(** * PokeMMO-Bot: the decision/automation engine of [simple_pokebot.py]

    A shallow embedding of the engine (detector, battle policy, movement
    engine, main loop) and of the control-surface callbacks that write its
    configuration, followed by the properties of the specification.

    Modelling conventions
    - Python [int] is [Z]; a Python [float] (a duration, a score, a
      threshold) is the rational [Q] it denotes. The one place where the
      program computes with floats, the hold time of [move], goes through
      the operations of the class [Float64], so that nothing is assumed
      about how they round; [binary64] is the instance that rounds as
      IEEE 754 does.
    - [time.sleep] refuses a negative duration with [ValueError]:
      [time_sleep] is the call, [sleep] the wait once the duration passed.
    - The dictionaries [max_pp], [current_pp], [templates] and [pp_entries]
      are finite maps; [d[k]] on a missing key raises [KeyError].
    - Code runs in a state-and-exception monad over a [World]: the objects
      of the program, the environment (successive screen captures, the
      clicks of the operator) and the trace of observable events.
    - The worker thread yields to the control surface whenever it sleeps:
      [time.sleep] runs the callbacks the operator triggers at that tick.
    - [while] loops take fuel; running out of fuel is the outcome [OutOfFuel],
      distinct from every Python exception. *)

From Stdlib Require Import ZArith QArith Qminmax Qabs Lia.
From stdpp Require Import base gmap strings list fin_maps.

Open Scope string_scope.
Open Scope list_scope.
Open Scope Z_scope.

(** ** Enumerations *)

Inductive BotState :=
  | STOPPED | MOVING | IN_BATTLE | ATTACKING | RUNNING | TELEPORTING | HEALING.

Inductive Direction := UP | DOWN | LEFT | RIGHT.

#[global] Instance BotState_eq_dec : EqDecision BotState.
Proof. solve_decision. Defined.

#[global] Instance Direction_eq_dec : EqDecision Direction.
Proof. solve_decision. Defined.

(** ** Outcomes *)

Inductive Exn :=
  | KeyError (key : Z)          (* a PP dictionary indexed by a missing key *)
  | ValueError                  (* [int(text)] on a non-numeric text *)
  | External (msg : string).    (* raised by ImageGrab, numpy or cv2 *)

(** A call into a library returns or raises. *)
Inductive Try (A : Type) :=
  | Returns (a : A)
  | Raises (e : Exn).
Arguments Returns {A} a.
Arguments Raises {A} e.

(** A computation of the model returns, raises or runs out of fuel. *)
Inductive Res (A : Type) :=
  | Ok (a : A)
  | Raise (e : Exn)
  | OutOfFuel.
Arguments Ok {A} a.
Arguments Raise {A} e.
Arguments OutOfFuel {A}.

(** ** The image library

    [cv2.matchTemplate(screen, template, TM_CCOEFF_NORMED)] is external: it
    yields the map of correlation scores, one per alignment (flattened
    here), or raises (for instance when the template exceeds the screen). *)

Class OpenCV := {
  Image : Type;
  matchTemplate : Image -> Image -> Try (list Q)
}.

(** ** Floating point

    Python floats are IEEE 754 binary64 numbers. [x + y], [x * y] and the
    conversion [float(n)] that [x * n] applies to an [int] are parameters,
    on the rationals the floats denote; values beyond the range of
    binary64 are not modelled. *)

Class Float64 := {
  float_add : Q -> Q -> Q;
  float_mul : Q -> Q -> Q;
  float_of_int : Z -> Q
}.

(** ** Observable events *)

Inductive Event :=
  | Press (key : string)        (* pydirectinput.press *)
  | KeyDown (key : string)      (* pydirectinput.keyDown *)
  | KeyUp (key : string)        (* pydirectinput.keyUp *)
  | Sleep (seconds : Q)         (* time.sleep *)
  | Grab                        (* ImageGrab.grab *)
  | Stdout (msg : string)       (* print *)
  | SetState (s : BotState)     (* an assignment to PokemonBot.state *)
  | SpawnWorker                 (* threading.Thread(target=main_loop).start() *)
  | StatusLabel (text : string) (* status_label.config(text=...) *)
  | ControlButton (text : string).

(** ** Configuration (dataclass [BotConfig]) *)

Record BotConfig := {
  time_per_space : Q;
  time_to_turn : Q;
  movement_delay : Q;
  detection_threshold : Q;
  attack_wait_time : Q;
  startup_delay : Z;
  selected_ability : Z;
  backup_ability : Z;
  use_backup : bool;
  use_abra_teleport : bool;
  max_pp : gmap Z Z;
  current_pp : gmap Z Z
}.

(** [BotConfig()] followed by [__post_init__]: both dictionaries are
    [None], so [max_pp] gets the four defaults and [current_pp] its copy. *)
Definition default_max_pp : gmap Z Z :=
  <[1:=20]> (<[2:=20]> (<[3:=20]> (<[4:=20]> ∅))).

Definition BotConfig_default : BotConfig := {|
  time_per_space := 0.20;
  time_to_turn := 0.12;
  movement_delay := 0.5;
  detection_threshold := 0.8;
  attack_wait_time := 11.0;
  startup_delay := 3;
  selected_ability := 1;
  backup_ability := 2;
  use_backup := true;
  use_abra_teleport := false;
  max_pp := default_max_pp;
  current_pp := default_max_pp
|}.

Definition with_current_pp (m : gmap Z Z) (c : BotConfig) : BotConfig :=
  {| time_per_space := time_per_space c; time_to_turn := time_to_turn c;
     movement_delay := movement_delay c;
     detection_threshold := detection_threshold c;
     attack_wait_time := attack_wait_time c; startup_delay := startup_delay c;
     selected_ability := selected_ability c;
     backup_ability := backup_ability c; use_backup := use_backup c;
     use_abra_teleport := use_abra_teleport c; max_pp := max_pp c;
     current_pp := m |}.

Definition with_max_pp (m : gmap Z Z) (c : BotConfig) : BotConfig :=
  {| time_per_space := time_per_space c; time_to_turn := time_to_turn c;
     movement_delay := movement_delay c;
     detection_threshold := detection_threshold c;
     attack_wait_time := attack_wait_time c; startup_delay := startup_delay c;
     selected_ability := selected_ability c;
     backup_ability := backup_ability c; use_backup := use_backup c;
     use_abra_teleport := use_abra_teleport c; max_pp := m;
     current_pp := current_pp c |}.

Definition with_abilities (sel bak : Z) (ub tp : bool) (c : BotConfig)
  : BotConfig :=
  {| time_per_space := time_per_space c; time_to_turn := time_to_turn c;
     movement_delay := movement_delay c;
     detection_threshold := detection_threshold c;
     attack_wait_time := attack_wait_time c; startup_delay := startup_delay c;
     selected_ability := sel; backup_ability := bak; use_backup := ub;
     use_abra_teleport := tp; max_pp := max_pp c;
     current_pp := current_pp c |}.

Definition with_timings (per_space turn delay : Q) (c : BotConfig)
  : BotConfig :=
  {| time_per_space := per_space; time_to_turn := turn;
     movement_delay := delay;
     detection_threshold := detection_threshold c;
     attack_wait_time := attack_wait_time c; startup_delay := startup_delay c;
     selected_ability := selected_ability c;
     backup_ability := backup_ability c; use_backup := use_backup c;
     use_abra_teleport := use_abra_teleport c; max_pp := max_pp c;
     current_pp := current_pp c |}.

(** ** The movement controller and the statistics *)

Record Movement := {
  pattern : string;
  current_direction : Direction;
  spaces_to_move : Z
}.

Record Stats := {
  movements : Z;
  battles : Z;
  runs : Z
}.

(** ** Clicks of the operator on the control surface *)

Inductive GuiAction :=
  | ClickToggle                              (* toggle_bot *)
  | EditEntry (ability : Z) (text : option Z) (* typing in a Max PP entry *)
  | CommitEntry (ability : Z)                (* update_pp: <Return>, <FocusOut> *)
  | ClickResetPP                             (* reset_pp *)
  | PickAbility (ability : Z)                (* update_ability *)
  | PickBackup (ability : Z)                 (* update_backup *)
  | CheckBackup (on : bool)                  (* update_backup_usage *)
  | CheckTeleport (on : bool)                (* update_abra_teleport *)
  | PickPattern (p : string)                 (* update_pattern *)
  | SlideSpaces (n : Z)                      (* update_spaces *)
  | SlideSpaceTime (t : Q)                   (* update_space_time *)
  | SlideTurnTime (t : Q)                    (* update_turn_time *)
  | SlideDelay (t : Q).                      (* update_delay *)

(** ** The world: program objects, environment, trace *)

Section Engine.
Context `{cv : OpenCV} `{fl : Float64}.

Record World := {
  (* PokemonBot and the objects it owns *)
  config : BotConfig;
  templates : gmap string Image;        (* ImageDetector.templates *)
  movement_controller : Movement;
  state : BotState;
  stats : Stats;
  running : bool;
  (* BotGUI: the parsed content of the four Max PP entries;
     [None] stands for a text that [int] rejects *)
  pp_entries : gmap Z (option Z);
  (* environment *)
  screens : nat -> Try Image;           (* what the n-th capture does *)
  grabs : nat;                          (* captures taken so far *)
  gui : list (nat * GuiAction);         (* clicks, by the tick they land on *)
  ticks : nat;                          (* sleeps taken so far *)
  trace : list Event                    (* oldest event first *)
}.

Definition set_config (c : BotConfig) (w : World) : World :=
  {| config := c; templates := templates w;
     movement_controller := movement_controller w; state := state w;
     stats := stats w; running := running w; pp_entries := pp_entries w;
     screens := screens w; grabs := grabs w; gui := gui w; ticks := ticks w;
     trace := trace w |}.

Definition set_movement (m : Movement) (w : World) : World :=
  {| config := config w; templates := templates w;
     movement_controller := m; state := state w;
     stats := stats w; running := running w; pp_entries := pp_entries w;
     screens := screens w; grabs := grabs w; gui := gui w; ticks := ticks w;
     trace := trace w |}.

Definition put_state (s : BotState) (w : World) : World :=
  {| config := config w; templates := templates w;
     movement_controller := movement_controller w; state := s;
     stats := stats w; running := running w; pp_entries := pp_entries w;
     screens := screens w; grabs := grabs w; gui := gui w; ticks := ticks w;
     trace := trace w |}.

Definition set_stats (s : Stats) (w : World) : World :=
  {| config := config w; templates := templates w;
     movement_controller := movement_controller w; state := state w;
     stats := s; running := running w; pp_entries := pp_entries w;
     screens := screens w; grabs := grabs w; gui := gui w; ticks := ticks w;
     trace := trace w |}.

Definition set_running (b : bool) (w : World) : World :=
  {| config := config w; templates := templates w;
     movement_controller := movement_controller w; state := state w;
     stats := stats w; running := b; pp_entries := pp_entries w;
     screens := screens w; grabs := grabs w; gui := gui w; ticks := ticks w;
     trace := trace w |}.

Definition set_pp_entries (e : gmap Z (option Z)) (w : World) : World :=
  {| config := config w; templates := templates w;
     movement_controller := movement_controller w; state := state w;
     stats := stats w; running := running w; pp_entries := e;
     screens := screens w; grabs := grabs w; gui := gui w; ticks := ticks w;
     trace := trace w |}.

Definition set_grabs (n : nat) (w : World) : World :=
  {| config := config w; templates := templates w;
     movement_controller := movement_controller w; state := state w;
     stats := stats w; running := running w; pp_entries := pp_entries w;
     screens := screens w; grabs := n; gui := gui w; ticks := ticks w;
     trace := trace w |}.

Definition set_ticks (n : nat) (w : World) : World :=
  {| config := config w; templates := templates w;
     movement_controller := movement_controller w; state := state w;
     stats := stats w; running := running w; pp_entries := pp_entries w;
     screens := screens w; grabs := grabs w; gui := gui w; ticks := n;
     trace := trace w |}.

Definition set_trace (t : list Event) (w : World) : World :=
  {| config := config w; templates := templates w;
     movement_controller := movement_controller w; state := state w;
     stats := stats w; running := running w; pp_entries := pp_entries w;
     screens := screens w; grabs := grabs w; gui := gui w; ticks := ticks w;
     trace := t |}.

(** ** The monad *)

Definition M (A : Type) : Type := World -> Res A * World.

Definition ret {A} (a : A) : M A := fun w => (Ok a, w).

Definition bind {A B} (m : M A) (k : A -> M B) : M B := fun w =>
  match m w with
  | (Ok a, w') => k a w'
  | (Raise e, w') => (Raise e, w')
  | (OutOfFuel, w') => (OutOfFuel, w')
  end.

Definition raise {A} (e : Exn) : M A := fun w => (Raise e, w).

Definition out_of_fuel {A} : M A := fun w => (OutOfFuel, w).

(** [try: body except Exception as e: handler e] *)
Definition try_except {A} (body : M A) (handler : Exn -> M A) : M A :=
  fun w =>
    match body w with
    | (Raise e, w') => handler e w'
    | r => r
    end.

Definition get : M World := fun w => (Ok w, w).

Definition modify (f : World -> World) : M unit := fun w => (Ok tt, f w).

Declare Scope py_scope.
Delimit Scope py_scope with py.
Notation "x <- m ;; k" := (bind m (fun x => k))
  (at level 100, m at next level, right associativity) : py_scope.
Notation "m ;; k" := (bind m (fun _ => k))
  (at level 100, right associativity) : py_scope.
Open Scope py_scope.

(** [for x in xs: body x] *)
Fixpoint for_each {A} (xs : list A) (body : A -> M unit) : M unit :=
  match xs with
  | [] => ret tt
  | x :: xs' => body x ;; for_each xs' body
  end.

(** [range(1, 5)] *)
Definition range_1_5 : list Z := [1; 2; 3; 4].

(** ** Primitive effects *)

Definition log (e : Event) : M unit :=
  modify (fun w => set_trace (trace w ++ [e]) w).

Definition press (key : string) : M unit := log (Press key).
Definition keyDown (key : string) : M unit := log (KeyDown key).
Definition keyUp (key : string) : M unit := log (KeyUp key).
Definition print (msg : string) : M unit := log (Stdout msg).

(** [self.state = s] *)
Definition set_state (s : BotState) : M unit :=
  modify (put_state s) ;; log (SetState s).

(** [d[k]] on a PP dictionary *)
Definition dict_get (d : gmap Z Z) (k : Z) : M Z :=
  match d !! k with
  | Some v => ret v
  | None => raise (KeyError k)
  end.

(** [self.config.current_pp[k]] and [self.config.max_pp[k]] *)
Definition current_pp_at (k : Z) : M Z :=
  w <- get ;; dict_get (current_pp (config w)) k.

Definition max_pp_at (k : Z) : M Z :=
  w <- get ;; dict_get (max_pp (config w)) k.

(** [self.config.current_pp[k] = v] and [self.config.max_pp[k] = v] *)
Definition current_pp_set (k v : Z) : M unit :=
  modify (fun w =>
    set_config (with_current_pp (<[k:=v]> (current_pp (config w))) (config w)) w).

Definition max_pp_set (k v : Z) : M unit :=
  modify (fun w =>
    set_config (with_max_pp (<[k:=v]> (max_pp (config w))) (config w)) w).

(** The screenshot of [detect]: [ImageGrab.grab()], [np.array] and
    [cv2.cvtColor], any of which may raise. *)
Definition grab_screen : M Image := fun w =>
  (match screens w (grabs w) with
   | Returns screen => Ok screen
   | Raises e => Raise e
   end,
   set_trace (trace w ++ [Grab]) (set_grabs (S (grabs w)) w)).

(** ** PokemonBot.start and PokemonBot.stop *)

Definition start : M unit :=
  modify (set_running true) ;;
  set_state MOVING ;;
  log SpawnWorker.

Definition stop : M unit :=
  modify (set_running false) ;;
  set_state STOPPED.

(** ** SmartMovementController.set_pattern and set_spaces *)

Definition set_pattern (p : string) : M unit :=
  modify (fun w =>
    set_movement
      {| pattern := p;
         current_direction := if decide (p = "horizontal") then LEFT else UP;
         spaces_to_move := spaces_to_move (movement_controller w) |} w).

Definition set_spaces (spaces : Z) : M unit :=
  modify (fun w =>
    set_movement
      {| pattern := pattern (movement_controller w);
         current_direction := current_direction (movement_controller w);
         spaces_to_move := spaces |} w).

(** ** BotGUI callbacks (widget redraws other than the status label and
    the control button are not modelled) *)

(** [update_pp_display]: reads both dictionaries for the four abilities. *)
Definition update_pp_display : M unit :=
  for_each range_1_5 (fun ability =>
    _ <- current_pp_at ability ;;
    _ <- max_pp_at ability ;;
    ret tt).

(** [int(self.pp_entries[ability].get())] *)
Definition entry_value (ability : Z) : M Z :=
  w <- get ;;
  match pp_entries w !! ability with
  | None => raise (KeyError ability)
  | Some None => raise ValueError
  | Some (Some value) => ret value
  end.

Definition update_pp (ability : Z) : M unit :=
  try_except
    (value <- entry_value ability ;;
     if 0 <? value then
       max_pp_set ability value ;;
       current_pp_set ability value ;;
       update_pp_display
     else ret tt)
    (fun e =>
       match e with
       | ValueError =>
           m <- max_pp_at ability ;;
           modify (fun w =>
             set_pp_entries (<[ability := Some m]> (pp_entries w)) w)
       | _ => raise e
       end).

Definition reset_pp : M unit :=
  for_each range_1_5 (fun ability =>
    m <- max_pp_at ability ;;
    current_pp_set ability m) ;;
  update_pp_display.

Definition toggle_bot : M unit :=
  w <- get ;;
  if negb (running w) then
    match templates w !! "hp_bar" with
    | None => log (StatusLabel "Load HP Bar image first!")
    | Some _ =>
        for_each range_1_5 update_pp ;;
        start ;;
        log (ControlButton "STOP BOT") ;;
        log (StatusLabel "Status: Running")
    end
  else
    stop ;;
    log (ControlButton "START BOT") ;;
    log (StatusLabel "Status: Stopped").

Definition update_config (f : BotConfig -> BotConfig) : M unit :=
  modify (fun w => set_config (f (config w)) w).

Definition callback (a : GuiAction) : M unit :=
  match a with
  | ClickToggle => toggle_bot
  | EditEntry ability text =>
      modify (fun w => set_pp_entries (<[ability := text]> (pp_entries w)) w)
  | CommitEntry ability => update_pp ability
  | ClickResetPP => reset_pp
  | PickAbility ability =>
      update_config (fun c =>
        with_abilities ability (backup_ability c) (use_backup c)
          (use_abra_teleport c) c)
  | PickBackup ability =>
      update_config (fun c =>
        with_abilities (selected_ability c) ability (use_backup c)
          (use_abra_teleport c) c)
  | CheckBackup on =>
      update_config (fun c =>
        with_abilities (selected_ability c) (backup_ability c) on
          (use_abra_teleport c) c)
  | CheckTeleport on =>
      update_config (fun c =>
        with_abilities (selected_ability c) (backup_ability c) (use_backup c)
          on c)
  | PickPattern p => set_pattern p
  | SlideSpaces n => set_spaces n
  | SlideSpaceTime t =>
      update_config (fun c =>
        with_timings t (time_to_turn c) (movement_delay c) c)
  | SlideTurnTime t =>
      update_config (fun c =>
        with_timings (time_per_space c) t (movement_delay c) c)
  | SlideDelay t =>
      update_config (fun c =>
        with_timings (time_per_space c) (time_to_turn c) t c)
  end.

(** Tk runs a callback to its end or to the exception it raises, which the
    event loop reports and drops; either way its writes stay. *)
Definition run_callback (w : World) (a : GuiAction) : World :=
  snd (callback a w).

(** The clicks that land on tick [t], in order. *)
Definition due (t : nat) (g : list (nat * GuiAction)) : list GuiAction :=
  map snd (filter (fun p => Nat.eqb (fst p) t) g).

(** The wait of [time.sleep(seconds)], once the duration has passed its
    sign check: the worker yields; the control surface runs the callbacks
    due at this tick. The calls whose duration is a literal, or one of the
    two fields that no code assigns ([attack_wait_time], 11.0, and
    [startup_delay], 3), are written with it directly. *)
Definition sleep (seconds : Q) : M unit := fun w =>
  let w1 := set_trace (trace w ++ [Sleep seconds]) w in
  let w2 := fold_left run_callback (due (ticks w1) (gui w1)) w1 in
  (Ok tt, set_ticks (S (ticks w2)) w2).

(** [time.sleep(seconds)] on a computed duration: a negative one raises
    [ValueError] before any wait. *)
Definition time_sleep (seconds : Q) : M unit :=
  if Qle_bool 0 seconds then sleep seconds else raise ValueError.

(** ** ImageDetector *)

Definition lift {A} (r : Try A) : M A :=
  match r with
  | Returns a => ret a
  | Raises e => raise e
  end.

(** [cv2.minMaxLoc(result)], without the two locations. *)
Definition minMaxLoc (result : list Q) : Try (Q * Q) :=
  match result with
  | [] => Raises (External "minMaxLoc: empty array")
  | s :: rest => Returns (fold_left Qmin rest s, fold_left Qmax rest s)
  end.

Definition exn_message (e : Exn) : string :=
  match e with
  | KeyError _ => "KeyError"
  | ValueError => "ValueError"
  | External msg => msg
  end.

Definition detect (template_name : string) (threshold : Q) : M bool :=
  w <- get ;;
  match templates w !! template_name with
  | None => ret false
  | Some template =>
      try_except
        (screenshot_bgr <- grab_screen ;;
         result <- lift (matchTemplate screenshot_bgr template) ;;
         mm <- lift (minMaxLoc result) ;;
         let max_val := snd mm in
         ret (Qle_bool threshold max_val))
        (fun e =>
           print (String.append "Detection error for "
                    (String.append template_name
                       (String.append ": " (exn_message e)))) ;;
           ret false)
  end.

Definition is_in_battle (threshold : Q) : M bool :=
  detect "hp_bar" threshold.

Definition is_battle_menu_visible (threshold : Q) : M bool :=
  detect "battle_menu" threshold.

(** ** BattleController *)

Definition get_ability_to_use : M (option Z) :=
  w <- get ;;
  let c := config w in
  pp <- dict_get (current_pp c) (selected_ability c) ;;
  if 0 <? pp then ret (Some (selected_ability c))
  else if use_backup c then
    pp' <- dict_get (current_pp c) (backup_ability c) ;;
    if 0 <? pp' then ret (Some (backup_ability c)) else ret None
  else ret None.

Definition select_fight_and_ability (ability : option Z) : M bool :=
  ability <- match ability with
             | None => get_ability_to_use
             | Some a => ret (Some a)
             end ;;
  match ability with
  | None => ret false
  | Some ability =>
      press "up" ;; sleep 0.1 ;;
      press "z" ;; sleep 0.3 ;;
      press "up" ;; sleep 0.1 ;;
      press "up" ;; sleep 0.1 ;;
      press "left" ;; sleep 0.1 ;;
      (if ability =? 1 then
         press "z"
       else if ability =? 2 then
         press "right" ;; sleep 0.1 ;; press "z"
       else if ability =? 3 then
         press "down" ;; sleep 0.1 ;; press "z"
       else if ability =? 4 then
         press "down" ;; sleep 0.1 ;; press "right" ;; sleep 0.1 ;; press "z"
       else ret tt) ;;
      pp <- current_pp_at ability ;;
      current_pp_set ability (pp - 1) ;;
      sleep 0.3 ;;
      ret true
  end.

Definition select_run : M bool :=
  press "up" ;; sleep 0.1 ;;
  press "down" ;; sleep 0.1 ;;
  press "right" ;; sleep 0.1 ;;
  press "z" ;; sleep 0.3 ;;
  ret true.

Definition threshold : M Q :=
  w <- get ;; ret (detection_threshold (config w)).

(** One pass of the [while] of [handle_battle] per unit of fuel. *)
Fixpoint handle_battle (fuel : nat) : M string :=
  match fuel with
  | O => out_of_fuel
  | S fuel' =>
      thr <- threshold ;;
      in_battle <- is_in_battle thr ;;
      if in_battle then
        thr <- threshold ;;
        menu <- is_battle_menu_visible thr ;;
        returned <-
          (if menu then
             fought <- select_fight_and_ability None ;;
             if negb fought then
               ran <- select_run ;;
               if ran then ret (Some "run") else ret None
             else ret None
           else ret None) ;;
        match returned with
        | Some result => ret result
        | None =>
            w <- get ;;
            sleep (attack_wait_time (config w)) ;;
            thr <- threshold ;;
            still <- is_in_battle thr ;;
            if negb still then ret "battle_complete"
            else handle_battle fuel'
        end
      else ret "battle_complete"
  end.

(** ** SmartMovementController *)

Definition direction_keys (d : Direction) : string :=
  match d with
  | LEFT => "left"
  | RIGHT => "right"
  | UP => "up"
  | DOWN => "down"
  end.

Definition move (direction : Direction) (spaces : Z) : M unit :=
  let key := direction_keys direction in
  w <- get ;;
  turn_time <-
    (if decide (current_direction (movement_controller w) <> direction) then
       modify (set_movement
         {| pattern := pattern (movement_controller w);
            current_direction := direction;
            spaces_to_move := spaces_to_move (movement_controller w) |}) ;;
       ret (time_to_turn (config w))
     else ret 0%Q) ;;
  let total_time :=
    float_add turn_time
      (float_mul (time_per_space (config w)) (float_of_int spaces)) in
  keyDown key ;;
  time_sleep total_time ;;
  keyUp key ;;
  sleep 0.1.

Definition spaces : M Z :=
  w <- get ;; ret (spaces_to_move (movement_controller w)).

Definition move_cycle : M unit :=
  w <- get ;;
  if decide (pattern (movement_controller w) = "horizontal") then
    n <- spaces ;; move LEFT n ;;
    sleep 0.2 ;;
    n <- spaces ;; move RIGHT n ;;
    sleep 0.2
  else if decide (pattern (movement_controller w) = "vertical") then
    n <- spaces ;; move UP n ;;
    sleep 0.2 ;;
    n <- spaces ;; move DOWN n ;;
    sleep 0.2
  else ret tt.

(** ** PokemonBot *)

Definition teleport_to_pokecenter : M bool :=
  thr <- threshold ;;
  in_battle <- is_in_battle thr ;;
  if negb in_battle then
    set_state TELEPORTING ;;
    print "Teleporting to Pokémon Center..." ;;
    press "9" ;;
    sleep 6 ;;
    ret true
  else ret false.

Definition heal_pokemon_at_center : M unit :=
  set_state HEALING ;;
  print "Healing Pokémon at center..." ;;
  sleep 0.8 ;;
  press "z" ;; sleep 0.8 ;;
  press "z" ;; sleep 0.8 ;;
  press "z" ;; sleep 0.8 ;;
  press "z" ;; sleep 0.8 ;;
  press "z" ;; sleep 0.8 ;;
  for_each range_1_5 (fun ability =>
    m <- max_pp_at ability ;;
    current_pp_set ability m) ;;
  print "Pokémon healed! Stopping bot..." ;;
  stop.

(** [any(pp > 0 for pp in d.values())] *)
Definition any_positive (d : gmap Z Z) : bool :=
  existsb (fun kv => 0 <? snd kv) (map_to_list d).

Definition add_stat (db dr dm : Z) : M unit :=
  modify (fun w =>
    set_stats {| movements := movements (stats w) + dm;
                 battles := battles (stats w) + db;
                 runs := runs (stats w) + dr |} w).

(** How a pass of the outer loop ends: at its last line, or by [return]. *)
Inductive LoopCtl := Continue | Return.

(** [main_loop], from the test of [result] to [self.state = MOVING]. *)
Definition after_battle (result : string) : M LoopCtl :=
  returned <-
    (if decide (result = "run") then
       set_state RUNNING ;;
       add_stat 0 1 0 ;;
       w <- get ;;
       if use_abra_teleport (config w) then
         sleep 2 ;;
         teleported <- teleport_to_pokecenter ;;
         if teleported then
           sleep 2 ;;
           heal_pokemon_at_center ;;
           ret Return
         else ret Continue
       else ret Continue
     else ret Continue) ;;
  match returned with
  | Return => ret Return
  | Continue => set_state MOVING ;; ret Continue
  end.

(** The body of the [while self.running] of [main_loop]. *)
Definition main_loop_body (battle_fuel : nat) : M LoopCtl :=
  thr <- threshold ;;
  in_battle <- is_in_battle thr ;;
  returned <-
    (if in_battle then
       set_state IN_BATTLE ;;
       add_stat 1 0 0 ;;
       w <- get ;;
       let has_pp := any_positive (current_pp (config w)) in
       (if negb has_pp then set_state RUNNING else set_state ATTACKING) ;;
       result <- handle_battle battle_fuel ;;
       after_battle result
     else
       w <- get ;;
       if decide (state w = MOVING) then
         move_cycle ;;
         add_stat 0 0 1 ;;
         w' <- get ;;
         time_sleep (movement_delay (config w')) ;;
         ret Continue
       else ret Continue) ;;
  match returned with
  | Return => ret Return
  | Continue => sleep 0.1 ;; ret Continue
  end.

(** The [while self.running] loop, one pass per unit of fuel; the flag is
    read before any fuel is needed. *)
Fixpoint main_loop_from (fuel battle_fuel : nat) : M unit :=
  w <- get ;;
  if running w then
    match fuel with
    | O => out_of_fuel
    | S fuel' =>
        returned <- main_loop_body battle_fuel ;;
        match returned with
        | Return => ret tt
        | Continue => main_loop_from fuel' battle_fuel
        end
    end
  else ret tt.

Definition main_loop (fuel battle_fuel : nat) : M unit :=
  w <- get ;;
  sleep (inject_Z (startup_delay (config w))) ;;
  main_loop_from fuel battle_fuel.

(** ** Construction

    [BotGUI()] builds [PokemonBot()]: a stopped bot with the default
    configuration, a horizontal movement controller facing left, zeroed
    statistics and "20" in each Max PP entry. The templates found on disk,
    the screens to come and the clicks to come are the environment. *)
Definition BotGUI_init (found : gmap string Image)
    (scr : nat -> Try Image) (clicks : list (nat * GuiAction)) : World :=
  {| config := BotConfig_default;
     templates := found;
     movement_controller :=
       {| pattern := "horizontal"; current_direction := LEFT;
          spaces_to_move := 1 |};
     state := STOPPED;
     stats := {| movements := 0; battles := 0; runs := 0 |};
     running := false;
     pp_entries :=
       <[1:=Some 20]> (<[2:=Some 20]> (<[3:=Some 20]> (<[4:=Some 20]> ∅)));
     screens := scr;
     grabs := 0;
     gui := clicks;
     ticks := 0;
     trace := [] |}.

(** ** Vocabulary of the properties *)

(** The control surface stays idle. *)
Definition quiet (w : World) : Prop := gui w = [].

(** Whether the [n]-th capture shows the named template: the template is
    loaded, the capture and the matching succeed, and some alignment
    scores at least [thr]. *)
Definition scores_reach (tpls : gmap string Image) (scr : nat -> Try Image)
    (thr : Q) (n : nat) (template_name : string) : bool :=
  match tpls !! template_name with
  | None => false
  | Some template =>
      match scr n with
      | Returns screen =>
          match matchTemplate screen template with
          | Returns (s :: rest) => Qle_bool thr (fold_left Qmax rest s)
          | _ => false
          end
      | _ => false
      end
  end.

(** The same, for the templates, screens and threshold of a world. *)
Definition seen (w : World) (n : nat) (template_name : string) : bool :=
  scores_reach (templates w) (screens w) (detection_threshold (config w)) n
    template_name.

(** The movement cost as the specification words it, in exact
    arithmetic. *)
Definition spec_cost (turn_cost per_tile_cost : Q) (direction : Direction)
    (spaces : Z) (facing : Direction) : Q :=
  ((if decide (direction = facing) then 0 else turn_cost) +
   per_tile_cost * inject_Z spaces)%Q.

(** The hold time [move] computes, with or without the turn. *)
Definition hold_time (c : BotConfig) (spaces : Z) (turn : bool) : Q :=
  float_add (if turn then time_to_turn c else 0)
    (float_mul (time_per_space c) (float_of_int spaces)).

(** The invariant of the data model, on the four abilities. *)
Definition pp_invariant (c : BotConfig) : Prop :=
  forall i, 1 <= i <= 4 ->
    exists cur mx, current_pp c !! i = Some cur /\ max_pp c !! i = Some mx /\
                   0 <= cur <= mx.

(** Every ability counter is non-negative. *)
Definition nonneg_counters (c : BotConfig) : Prop :=
  map_Forall (fun _ v => 0 <= v) (current_pp c).

(** [m] is the maximum of the scores. *)
Definition is_max (m : Q) (scores : list Q) : Prop :=
  (exists s, In s scores /\ (s == m)%Q) /\
  forall s, In s scores -> (s <= m)%Q.

(** [hoare P m Q]: from a world satisfying [P], the computation [m] ends
    (by returning, raising or running out of fuel) in a world satisfying
    [Q]. *)
Definition hoare {A} (P : World -> Prop) (m : M A) (Q : World -> Prop)
  : Prop :=
  forall w, P w -> Q (snd (m w)).

(** Two worlds with the same PP dictionaries (and the same clicks to
    come, which no code writes). *)
Definition same_pp (w w' : World) : Prop :=
  current_pp (config w') = current_pp (config w) /\
  max_pp (config w') = max_pp (config w) /\
  gui w' = gui w.

(** A computation that writes neither PP dictionary. *)
Definition keeps_pp {A} (m : M A) : Prop := forall w, same_pp w (snd (m w)).

(** The invariant, as a predicate on worlds. *)
Definition pp_ok (w : World) : Prop := pp_invariant (config w).

(** The invariant, together with a positive counter for the ability a
    fight script is about to spend, if any. *)
Definition guarded (oa : option Z) (w : World) : Prop :=
  pp_invariant (config w) /\
  match oa with
  | Some a => exists v, current_pp (config w) !! a = Some v /\ 0 < v
  | None => True
  end.

(** Both PP dictionaries are as given, and the control surface is idle. *)
Definition frozen (cur mx : gmap Z Z) (w : World) : Prop :=
  quiet w /\ current_pp (config w) = cur /\ max_pp (config w) = mx.

(** A predicate that reads nothing but the PP dictionaries and the clicks
    to come. *)
Class Respects (I : World -> Prop) : Prop :=
  respects : forall w w', same_pp w w' -> I w -> I w'.

(** A predicate that no callback of the control surface breaks. *)
Class Stable (I : World -> Prop) : Prop := {
  stable_respects :: Respects I;
  stable_callback : forall a, hoare I (callback a) I
}.

(** A predicate that holds only while the control surface is idle. *)
Class Still (I : World -> Prop) : Prop := {
  still_respects :: Respects I;
  still_quiet : forall w, I w -> quiet w
}.

(** A predicate that survives a sleep of the worker. *)
Class Sleeps (I : World -> Prop) : Prop :=
  sleeps : forall q, hoare I (sleep q) I.

(** A computation that never reads the running flag: with the control
    surface idle, it does the same from a world and from that world with
    the flag overwritten. *)
Definition flag_blind {A} (m : M A) : Prop :=
  forall w b, quiet w ->
    m (set_running b w) = (fst (m w), set_running b (snd (m w))) /\
    quiet (snd (m w)).

(** The events that follow the first assignment of [Stopped]. *)
Fixpoint after_stop (t : list Event) : list Event :=
  match t with
  | [] => []
  | SetState STOPPED :: t' => t'
  | _ :: t' => after_stop t'
  end.

(** The events a run added to the trace. *)
Definition new_events (w w' : World) : list Event :=
  drop (length (trace w)) (trace w').

(** The states assigned to [PokemonBot.state], in order. *)
Fixpoint states_of (t : list Event) : list BotState :=
  match t with
  | [] => []
  | SetState s :: t' => s :: states_of t'
  | _ :: t' => states_of t'
  end.

(** The number of worker threads launched. *)
Fixpoint workers_spawned (t : list Event) : nat :=
  match t with
  | [] => 0%nat
  | SpawnWorker :: t' => S (workers_spawned t')
  | _ :: t' => workers_spawned t'
  end.

(** The worker that runs from [w] to [w'] is the only one: at most one
    worker has been launched up to [w'], and none between [w] and [w'].
    The model runs one worker; a second one, launched while the first is
    alive, would run on the same objects. *)
Definition single_worker (w w' : World) : Prop :=
  (workers_spawned (trace w') <= 1)%nat /\
  workers_spawned (new_events w w') = 0%nat.

(** [alone I m]: from a world satisfying [I], the computation [m] ends in
    a world satisfying [I], as long as the worker that runs it is the only
    one. *)
Definition alone {A} (I : World -> Prop) (m : M A) : Prop :=
  forall w, I w -> single_worker w (snd (m w)) -> I (snd (m w)).

(** The keys pressed, in order. *)
Fixpoint presses_of (t : list Event) : list string :=
  match t with
  | [] => []
  | Press k :: t' => k :: presses_of t'
  | _ :: t' => presses_of t'
  end.

(** ** Vocabulary of the further properties *)

(** The world [w] at a later point of a battle: its trace, clock, capture
    count and remaining PP replaced, nothing else. *)
Definition snapshot (w : World) (tr : list Event) (t g : nat)
    (cur : gmap Z Z) : World :=
  set_trace tr
    (set_ticks t
       (set_grabs g (set_config (with_current_pp cur (config w)) w))).

(** From [s] to [s'] no statistic decreases, and battles gain on flees by
    at least [d]. *)
Definition grow (d : Z) (s s' : Stats) : Prop :=
  movements s <= movements s' /\
  battles s <= battles s' /\
  runs s <= runs s' /\
  d <= (battles s' - battles s) - (runs s' - runs s).

(** A computation whose statistics grow that way, however it ends. *)
Definition tallies {A} (d : Z) (m : M A) : Prop :=
  forall w, grow d (stats w) (stats (snd (m w))).

(** A PP dictionary that has the four abilities as keys. *)
Definition keyed (d : gmap Z Z) : Prop :=
  forall k, k ∈ range_1_5 -> is_Some (d !! k).

(** What committing the entry text [e] leaves in a dictionary slot that
    held [old]: a positive number replaces it, anything else is ignored. *)
Definition committed (e : option Z) (old : option Z) : option Z :=
  match e with
  | Some v => if 0 <? v then Some v else old
  | None => old
  end.

(** The world [w] with other PP dictionaries and entry texts, and nothing
    else changed. *)
Definition with_pp (cur mx : gmap Z Z) (ents : gmap Z (option Z))
    (w : World) : World :=
  set_pp_entries ents
    (set_config (with_current_pp cur (with_max_pp mx (config w))) w).

(** The clock accepts the hold times of [w]: with and without the turn,
    they are not negative for its timings and its number of spaces. *)
Definition clock_accepts (w : World) : Prop :=
  forall turn,
    (0 <= hold_time (config w) (spaces_to_move (movement_controller w))
            turn)%Q.

(** The events of one leg of a movement cycle: the key of the direction
    held for the hold time, with the turn if one is paid, released, and
    the two pauses that follow. *)
Definition leg (c : BotConfig) (d : Direction) (turn : bool) (n : Z)
    : list Event :=
  [KeyDown (direction_keys d);
   Sleep (hold_time c n turn);
   KeyUp (direction_keys d);
   Sleep 0.1;
   Sleep 0.2].

(** The two directions of a movement pattern. *)
Definition legs_of (p : string) : option (Direction * Direction) :=
  if decide (p = "horizontal") then Some (LEFT, RIGHT)
  else if decide (p = "vertical") then Some (UP, DOWN)
  else None.

(** The keyboard events of a trace, in order. *)
Fixpoint key_events (t : list Event) : list Event :=
  match t with
  | [] => []
  | Press k :: t' => Press k :: key_events t'
  | KeyDown k :: t' => KeyDown k :: key_events t'
  | KeyUp k :: t' => KeyUp k :: key_events t'
  | _ :: t' => key_events t'
  end.

(** The clicks the widgets can produce: an ability picked as primary or
    as backup is one of the four radio buttons. *)
Definition widget_click (a : GuiAction) : Prop :=
  match a with
  | PickAbility k => k ∈ range_1_5
  | PickBackup k => k ∈ range_1_5
  | _ => True
  end.

(** Every ability the worker can look up is a key of both PP
    dictionaries, now and after any click to come. *)
Definition in_table (w : World) : Prop :=
  keyed (current_pp (config w)) /\
  keyed (max_pp (config w)) /\
  selected_ability (config w) ∈ range_1_5 /\
  backup_ability (config w) ∈ range_1_5 /\
  Forall (fun c => widget_click (snd c)) (gui w).

(** From a world satisfying [I], the computation [m] ends in a world
    satisfying [I], what it returns satisfies [Q], and it raises nothing
    but the [ValueError] of the clock refusing a negative duration. *)
Definition sure {A} (I : World -> Prop) (Q : A -> Prop) (m : M A) : Prop :=
  forall w, I w ->
    I (snd (m w)) /\
    match fst (m w) with
    | Ok a => Q a
    | Raise e => e = ValueError
    | OutOfFuel => True
    end.

(** The float operations give nothing negative from what is not
    negative, as rounding to the nearest float does. *)
Definition keeps_sign : Prop :=
  (forall a b, (0 <= a)%Q -> (0 <= b)%Q -> (0 <= float_add a b)%Q) /\
  (forall a b, (0 <= a)%Q -> (0 <= b)%Q -> (0 <= float_mul a b)%Q) /\
  (forall n, 0 <= n -> (0 <= float_of_int n)%Q).

(** The values the scales of the control surface give: spaces from 1 to
    4, time per space from 0.15 to 0.30, turn time from 0.08 to 0.20,
    cycle delay from 0.3 to 2.0. What matters below is that none is
    negative. *)
Definition on_scale (a : GuiAction) : Prop :=
  match a with
  | SlideSpaces n => 0 <= n
  | SlideSpaceTime t => (0 <= t)%Q
  | SlideTurnTime t => (0 <= t)%Q
  | SlideDelay t => (0 <= t)%Q
  | _ => True
  end.

(** No timing and no number of spaces is negative, now and after any
    click to come. *)
Definition steady_clock (w : World) : Prop :=
  (0 <= time_per_space (config w))%Q /\
  (0 <= time_to_turn (config w))%Q /\
  (0 <= movement_delay (config w))%Q /\
  0 <= spaces_to_move (movement_controller w) /\
  Forall (fun c => on_scale (snd c)) (gui w).

(** From a world with a steady clock, the computation [m] ends in one,
    and it does not raise [ValueError]. *)
Definition calm {A} (m : M A) : Prop :=
  forall w, steady_clock w ->
    steady_clock (snd (m w)) /\ fst (m w) <> Raise ValueError.

(** ** ImageDetector.load_templates

    The files as the detector sees them: [os.path.exists], and
    [cv2.imread], which gives [None] for a file it cannot decode; and, for
    the files the control surface writes, what [cv2.imwrite] does with a
    path and what the codec gives back. *)
Record Files := {
  path_exists : string -> bool;
  imread : string -> option Image;
  (* whether [cv2.imwrite] has an encoder for the extension of the path;
     it raises [cv2.error] when it has none *)
  can_encode : string -> bool;
  (* whether the file can be created; [cv2.imwrite] returns [False] when
     it cannot *)
  writable : string -> bool;
  (* what [cv2.imread] gives back from a file written by [cv2.imwrite] *)
  recode : string -> Image -> Image
}.

Definition template_files : list (string * list string) :=
  [("hp_bar", ["hp_bar.png"; "hp_bar.jpg"]);
   ("battle_menu",
    ["battle_menu.png"; "battle_options.png"; "battle_menu.jpg"])].

(** The inner [for file in files] of [load_templates], up to its
    [break]. *)
Fixpoint load_first (fs : Files) (name : string) (files : list string)
    (tpls : gmap string Image) : gmap string Image :=
  match files with
  | [] => tpls
  | file :: rest =>
      if path_exists fs file then
        match imread fs file with
        | Some template => <[name := template]> tpls
        | None => load_first fs name rest tpls
        end
      else load_first fs name rest tpls
  end.

Definition load_templates (fs : Files) (tpls : gmap string Image)
    : gmap string Image :=
  fold_left (fun tpls nf => load_first fs (fst nf) (snd nf) tpls)
    template_files tpls.

(** [ImageDetector()]: no template, then [load_templates]. *)
Definition ImageDetector_init (fs : Files) : gmap string Image :=
  load_templates fs ∅.

(** What [load_templates] gets out of a file: its image, if the file
    exists and decodes. *)
Definition readable (fs : Files) (file : string) : option Image :=
  if path_exists fs file then imread fs file else None.

(** ** Loading a template from the control surface *)

Definition set_templates (t : gmap string Image) (w : World) : World :=
  {| config := config w; templates := t;
     movement_controller := movement_controller w; state := state w;
     stats := stats w; running := running w; pp_entries := pp_entries w;
     screens := screens w; grabs := grabs w; gui := gui w;
     ticks := ticks w; trace := trace w |}.

(** The files once [path] holds [img] as encoded for its extension. *)
Definition written (fs : Files) (path : string) (img : Image) : Files :=
  {| path_exists := fun p => if decide (p = path) then true
                             else path_exists fs p;
     imread := fun p => if decide (p = path) then Some (recode fs path img)
                        else imread fs p;
     can_encode := can_encode fs;
     writable := writable fs;
     recode := recode fs |}.

(** [cv2.imwrite(path, img)]: raises when no encoder goes with the
    extension of [path]; otherwise writes the file, or leaves the files as
    they are when it cannot be created. The result ([True] or [False]) is
    not looked at by the caller. *)
Definition imwrite (fs : Files) (path : string) (img : Image) : Try Files :=
  if can_encode fs path then
    Returns (if writable fs path then written fs path img else fs)
  else
    Raises (External "could not find a writer for the specified extension").

(** [ImageDetector.load_template(name, filepath)] *)
Definition load_template (fs : Files) (name filepath : string) : M bool :=
  match imread fs filepath with
  | Some template =>
      modify (fun w => set_templates (<[name := template]> (templates w)) w) ;;
      ret true
  | None => ret false
  end.

(** [BotGUI.load_template(template_type)], where the file dialog answers
    [filename] (empty when cancelled) and [ext] is
    [os.path.splitext(filename)[1]]; the files as the callback leaves them
    are returned, and an exception of [cv2.imwrite] is the callback's. *)
Definition BotGUI_load_template (fs : Files)
    (template_type filename ext : string) : M Files :=
  if decide (filename = "") then ret fs
  else
    loaded <- load_template fs template_type filename ;;
    if loaded then
      match imread fs filename with
      | Some img => lift (imwrite fs (template_type +:+ ext) img)
      | None => raise (External "imwrite of an empty image")
      end
    else ret fs.

(** The text the control button shows: that of its last redraw. *)
Fixpoint button_text (t : list Event) : option string :=
  match t with
  | [] => None
  | ControlButton s :: t' =>
      match button_text t' with
      | Some s' => Some s'
      | None => Some s
      end
  | _ :: t' => button_text t'
  end.

(** A worker left alone: the control surface is idle, the button shows
    [b], the templates are [tp], the entries [ents], both PP dictionaries
    have the four abilities, and the running flag is [r]. *)
Definition left_alone (b : option string) (tp : gmap string Image)
    (ents : gmap Z (option Z)) (r : bool) (w : World) : Prop :=
  quiet w /\ button_text (trace w) = b /\ templates w = tp /\
  pp_entries w = ents /\ keyed (current_pp (config w)) /\
  keyed (max_pp (config w)) /\ running w = r.

(** From a world satisfying [P], if [m] returns [a] it does so in a world
    satisfying [Q a]. *)
Definition triple {A} (P : World -> Prop) (m : M A)
    (Q : A -> World -> Prop) : Prop :=
  forall w, P w ->
    match fst (m w) with
    | Ok a => Q a (snd (m w))
    | _ => True
    end.

End Engine.

(** ** Binary64

    Rounding to the nearest float, ties to the even mantissa: 53 bits of
    mantissa, exponents from -1074 up (no overflow to infinity). *)
Definition round_half_even (q : Q) : Z :=
  let n := Qnum q in
  let d := Z.pos (Qden q) in
  match (2 * (n mod d) ?= d) with
  | Lt => n / d
  | Gt => n / d + 1
  | Eq => if Z.even (n / d) then n / d else n / d + 1
  end.

Definition pow2 (e : Z) : Q :=
  if 0 <=? e then inject_Z (2 ^ e) else (1 # Z.to_pos (2 ^ (- e)))%Q.

Definition round64 (q : Q) : Q :=
  if Qeq_bool q 0 then 0%Q
  else
    let a := Qabs q in
    let e0 := Z.log2 (Qnum a) - Z.log2 (Z.pos (Qden a)) - 52 in
    let e1 :=
      if Qle_bool (pow2 52) (a * pow2 (- e0))%Q then e0 else e0 - 1 in
    let e := Z.max e1 (-1074) in
    let m := round_half_even (a * pow2 (- e))%Q in
    Qred ((if Qle_bool 0 q then 1 else -1) * inject_Z m * pow2 e)%Q.

#[global] Instance binary64 : Float64 := {|
  float_add := fun x y => round64 (x + y)%Q;
  float_mul := fun x y => round64 (x * y)%Q;
  float_of_int := fun n => round64 (inject_Z n)
|}.

(** Exact arithmetic, to compare with the formula of the specification. *)
Definition exact_arith : Float64 := {|
  float_add := Qplus;
  float_mul := Qmult;
  float_of_int := inject_Z
|}.

(** ** A toy image library, to run the engine on concrete screens

    An image is a row of glyphs. Matching slides the shorter row along the
    longer one (cv2 swaps image and template when the template is the
    larger) and scores an alignment 1 when the two rows agree there and 0
    when they do not; an empty row is refused. *)
Definition toy_scores (long short : list Z) : list Q :=
  map (fun i =>
         if bool_decide (take (length short) (drop i long) = short)
         then 1%Q else 0%Q)
    (seq 0%nat (length long - length short + 1)%nat).

Definition toy_match (screen template : list Z) : Try (list Q) :=
  match screen, template with
  | [], _ => Raises (External "empty image")
  | _, [] => Raises (External "empty template")
  | _, _ =>
      if (length screen <? length template)%nat
      then Returns (toy_scores template screen)
      else Returns (toy_scores screen template)
  end.

Definition toy_cv : OpenCV := {| Image := list Z; matchTemplate := toy_match |}.

Definition hp_glyph : Z := 7.
Definition menu_glyph : Z := 9.

Definition toy_templates : gmap string (list Z) :=
  <["hp_bar" := [hp_glyph]]> (<["battle_menu" := [menu_glyph]]> ∅).

(** A battle with its menu open, the overworld, and a failing capture. *)
Definition battle_screen : Try (list Z) := Returns [0; hp_glyph; menu_glyph].
Definition field_screen : Try (list Z) := Returns [0; 0; 0].
Definition broken_screen : Try (list Z) := Raises (External "screen grab failed").

(** ** Concrete worlds

    A control panel with both templates loaded, in front of a battle that
    never ends; the operator starts the bot, then unchecks the backup
    ability; one pass of the main loop later the worker has fought twenty
    turns, spent the primary ability and fled. *)
Definition fresh_gui : @World toy_cv :=
  @BotGUI_init toy_cv toy_templates (fun _ => battle_screen) [].

Definition w_started : @World toy_cv := snd (toggle_bot fresh_gui).

Definition w_nobackup : @World toy_cv :=
  snd (callback (CheckBackup false) w_started).

Definition w_spent : @World toy_cv := snd (main_loop_body 21 w_nobackup).

(** The same with every counter at 0. *)
Definition w_empty : @World toy_cv :=
  set_config
    (with_current_pp (<[1:=0]> (<[2:=0]> (<[3:=0]> (<[4:=0]> ∅))))
       (config w_spent)) w_spent.

(** A started bot on the overworld with escalation enabled, and the same
    in front of a battle. *)
Definition w_escalating : @World toy_cv :=
  snd (callback (CheckTeleport true)
         (snd (toggle_bot
                 (@BotGUI_init toy_cv toy_templates (fun _ => field_screen)
                    [])))).

Definition w_cornered : @World toy_cv :=
  snd (callback (CheckTeleport true) w_started).

(** Escalation enabled, backup disabled, the primary ability spent, in
    front of a battle that lasts three captures. *)
Definition w_last_use : @World toy_cv :=
  let started :=
    snd (toggle_bot
           (@BotGUI_init toy_cv toy_templates
              (fun n => if (n <? 3)%nat then battle_screen else field_screen)
              [])) in
  let set := snd (callback (CheckBackup false)
                    (snd (callback (CheckTeleport true) started))) in
  set_config
    (with_current_pp (<[1:=0]> (current_pp (config set))) (config set)) set.

(** A control panel with no template on disk. *)
Definition bare_gui : @World toy_cv :=
  @BotGUI_init toy_cv ∅ (fun _ => field_screen) [].

(** A started bot facing left with a per-tile time of 2^-60 s and a turn
    time of 1 s, written the way the slider callbacks write them (the
    scales of the panel stop short of these values; the fields take any
    float). *)
Definition w_fine_steps : @World toy_cv :=
  snd (callback (SlideTurnTime 1)
         (snd (callback (SlideSpaceTime (pow2 (-60))) w_started))).

(** A battle that lasts six captures; the operator clicks stop while the
    worker waits out the first turn (its eighth sleep). *)
Definition w_stop_mid_battle : @World toy_cv :=
  snd (toggle_bot
         (@BotGUI_init toy_cv toy_templates
            (fun n => if (n <? 6)%nat then battle_screen else field_screen)
            [(7%nat, ClickToggle)])).

(** ** Further concrete worlds *)

(** A started bot in front of a battle, with no battle menu template on
    disk. *)
Definition w_no_menu_template : @World toy_cv :=
  snd (toggle_bot
         (@BotGUI_init toy_cv (<["hp_bar" := [hp_glyph]]> ∅)
            (fun _ => battle_screen) [])).

(** A started bot in front of a battle that one attack wins: it is on
    screen for three captures. *)
Definition w_one_hit : @World toy_cv :=
  snd (toggle_bot
         (@BotGUI_init toy_cv toy_templates
            (fun n => if (n <? 3)%nat then battle_screen else field_screen)
            [])).

(** The operator typed letters in the second Max PP entry. *)
Definition w_typo : @World toy_cv :=
  snd (callback (EditEntry 2 None) fresh_gui).

(** A started bot on the overworld; the operator clicks the control
    button twice during the next sleep of the worker. *)
Definition w_double_click : @World toy_cv :=
  snd (toggle_bot
         (@BotGUI_init toy_cv toy_templates (fun _ => field_screen)
            [(0%nat, ClickToggle); (0%nat, ClickToggle)])).

(** A started bot on the overworld; during the run the operator moves the
    spaces slider to 4 and the delay slider to 0.3. *)
Definition w_sliding : @World toy_cv :=
  snd (toggle_bot
         (@BotGUI_init toy_cv toy_templates (fun _ => field_screen)
            [(0%nat, SlideSpaces 4); (1%nat, SlideDelay 0.3)])).

(** A started bot on the overworld with a movement delay of -1, written
    the way the slider callback writes it (the scale of the panel starts
    at 0.3; the field takes any float). *)
Definition w_negative_delay : @World toy_cv :=
  snd (callback (SlideDelay (-1)) w_escalating).

(** A directory that holds one screenshot of the HP bar, as a bitmap and
    under a name without extension; the codec writes the four formats the
    dialog offers. *)
Definition toy_files : @Files toy_cv :=
  @Build_Files toy_cv
    (fun p => bool_decide (p = "shot.bmp" \/ p = "shot"))
    (fun p => if decide (p = "shot.bmp" \/ p = "shot") then Some [hp_glyph]
              else None)
    (fun p => bool_decide
                (p ∈ ["hp_bar.png"; "hp_bar.jpg"; "hp_bar.jpeg"; "hp_bar.bmp"]))
    (fun _ => true)
    (fun _ img => img).


(** * Properties *)

Section Properties.
Context `{cv : OpenCV} `{fl : Float64}.

(** ** The detector *)

Lemma fold_Qmax_ge (rest : list Q) (s : Q) :
  (s <= fold_left Qmax rest s)%Q /\
  forall x, In x rest -> (x <= fold_left Qmax rest s)%Q.
Proof.
  revert s. induction rest as [|y rest IH]; intros s; simpl.
  - split; [apply Qle_refl | tauto].
  - destruct (IH (Qmax s y)) as [H1 H2]. split.
    + eapply Qle_trans; [apply Q.le_max_l | exact H1].
    + intros x [<- | Hx]; [|auto].
      eapply Qle_trans; [apply Q.le_max_r | exact H1].
Qed.

Lemma fold_Qmax_in (rest : list Q) (s : Q) :
  exists x, In x (s :: rest) /\ (x == fold_left Qmax rest s)%Q.
Proof.
  revert s. induction rest as [|y rest IH]; intros s; simpl.
  - exists s. split; [auto | reflexivity].
  - destruct (IH (Qmax s y)) as (x & [<- | Hx] & Hq).
    + destruct (Q.max_dec s y) as [E | E].
      * exists s. split; [auto|]. rewrite <- Hq. symmetry. exact E.
      * exists y. split; [auto|]. rewrite <- Hq. symmetry. exact E.
    + exists x. split; [auto | exact Hq].
Qed.

Lemma fold_Qmax_is_max (rest : list Q) (s : Q) :
  is_max (fold_left Qmax rest s) (s :: rest).
Proof.
  split; [apply fold_Qmax_in|].
  destruct (fold_Qmax_ge rest s) as [H1 H2].
  intros x [<- | Hx]; auto.
Qed.

Lemma is_max_unique (m m' : Q) (scores : list Q) :
  is_max m scores -> is_max m' scores -> (m == m')%Q.
Proof.
  intros [(s & Hs & Es) Hub] [(s' & Hs' & Es') Hub'].
  apply Qle_antisym.
  - rewrite <- Es. auto.
  - rewrite <- Es'. auto.
Qed.

(** C3. [detect] always returns a boolean and never raises. It returns
    [False], without capturing, when the name has no loaded template, and
    [False] when the capture raises. When the capture and the matching
    succeed, it returns [True] exactly when the maximum correlation score
    over all alignments reaches the threshold. *)
Theorem detect_fails_closed (template_name : string) (thr : Q) (w : World) :
  exists b w',
    detect template_name thr w = (Ok b, w') /\
    (templates w !! template_name = None -> b = false /\ w' = w) /\
    (forall template, templates w !! template_name = Some template ->
       (forall e, screens w (grabs w) = Raises e -> b = false) /\
       (forall screen scores m,
          screens w (grabs w) = Returns screen ->
          matchTemplate screen template = Returns scores ->
          is_max m scores ->
          (b = true <-> (thr <= m)%Q))).
Proof.
  unfold detect, bind, get.
  destruct (templates w !! template_name) as [template|] eqn:Ht.
  2:{ exists false, w. split; [reflexivity|]. split; [auto | discriminate]. }
  unfold try_except, bind, grab_screen.
  destruct (screens w (grabs w)) as [screen | e] eqn:Hs.
  2:{ eexists false, _. split; [reflexivity|]. split; [discriminate|].
      intros t _. split; [reflexivity | discriminate]. }
  unfold lift.
  destruct (matchTemplate screen template) as [scores | e] eqn:Hm.
  2:{ eexists false, _. split; [reflexivity|]. split; [discriminate|].
      intros t [= <-]. split; [discriminate|].
      intros ? ? ? [= <-]. rewrite Hm. discriminate. }
  destruct scores as [|s rest].
  { eexists false, _. split; [reflexivity|]. split; [discriminate|].
    intros t [= <-]. split; [discriminate|].
    intros ? ? ? [= <-]. rewrite Hm. intros [= <-] [(x & [] & _) _]. }
  eexists (Qle_bool thr (fold_left Qmax rest s)), _.
  split; [reflexivity|]. split; [discriminate|].
  intros t [= <-]. split; [discriminate|].
  intros ? ? m [= <-]. rewrite Hm. intros [= <-] Hmax.
  rewrite Qle_bool_iff.
  rewrite (is_max_unique _ _ _ Hmax (fold_Qmax_is_max rest s)). reflexivity.
Qed.

(** ** Ability selection *)

(** C1. With non-negative counters, and counters present for the selected
    abilities, [get_ability_to_use] returns without raising and leaves the
    world as it is. An ability it returns is the primary or the enabled
    backup and its counter is not 0. It returns [None] (flee) exactly when
    the primary counter is 0 and the backup is disabled or its counter is 0. *)
Theorem get_ability_to_use_sound (w : World) :
  nonneg_counters (config w) ->
  is_Some (current_pp (config w) !! selected_ability (config w)) ->
  (use_backup (config w) = true ->
   is_Some (current_pp (config w) !! backup_ability (config w))) ->
  exists r,
    get_ability_to_use w = (Ok r, w) /\
    (forall a, r = Some a ->
       (a = selected_ability (config w) \/
        use_backup (config w) = true /\ a = backup_ability (config w)) /\
       exists v, current_pp (config w) !! a = Some v /\ v <> 0) /\
    (r = None <->
       current_pp (config w) !! selected_ability (config w) = Some 0 /\
       (use_backup (config w) = false \/
        current_pp (config w) !! backup_ability (config w) = Some 0)).
Proof.
  intros Hnn [p Hp] Hb.
  unfold get_ability_to_use, bind, get, dict_get. rewrite Hp. unfold ret.
  pose proof (Hnn _ _ Hp) as Hp0. simpl in Hp0.
  destruct (0 <? p) eqn:Epos.
  - apply Z.ltb_lt in Epos. eexists. split; [reflexivity|]. split.
    + intros a [= <-]. split; [by left|]. exists p. split; [done | lia].
    + split; [discriminate|]. intros [H _].
      assert (p = 0) by congruence. lia.
  - apply Z.ltb_ge in Epos. assert (p = 0) as -> by lia.
    destruct (use_backup (config w)) eqn:Eub.
    + destruct (Hb eq_refl) as [q Hq]. rewrite Hq.
      pose proof (Hnn _ _ Hq) as Hq0. simpl in Hq0.
      destruct (0 <? q) eqn:Eq.
      * apply Z.ltb_lt in Eq. eexists. split; [reflexivity|]. split.
        -- intros a [= <-]. split; [by right|]. exists q. split; [done | lia].
        -- split; [discriminate|]. intros [_ [H | H]]; [discriminate|].
           assert (q = 0) by congruence. lia.
      * apply Z.ltb_ge in Eq. assert (q = 0) as -> by lia.
        eexists. split; [reflexivity|]. split; [discriminate|].
        split; [|done]. intros _. split; [done | by right].
    + eexists. split; [reflexivity|]. split; [discriminate|].
      split; [|done]. intros _. split; [done | by left].
Qed.

End Properties.

(** ** Invariant reasoning over the monad *)

Section Frame.
Context `{cv : OpenCV} `{fl : Float64}.

Lemma hoare_bind {A B} (P R Q : World -> Prop) (m : M A) (k : A -> M B) :
  hoare P m R -> (forall a, hoare R (k a) Q) -> (forall w, R w -> Q w) ->
  hoare P (bind m k) Q.
Proof.
  intros Hm Hk HRQ w HP. specialize (Hm w HP). unfold bind.
  destruct (m w) as [[a | e |] w']; simpl in *; auto. by apply Hk.
Qed.

Lemma hoare_try {A} (P R Q : World -> Prop) (m : M A) (h : Exn -> M A) :
  hoare P m R -> (forall e, hoare R (h e) Q) -> (forall w, R w -> Q w) ->
  hoare P (try_except m h) Q.
Proof.
  intros Hm Hh HRQ w HP. specialize (Hm w HP). unfold try_except.
  destruct (m w) as [[a | e |] w']; simpl in *; auto. by apply Hh.
Qed.

Lemma hoare_seq {A B} (I : World -> Prop) (m : M A) (k : A -> M B) :
  hoare I m I -> (forall a, hoare I (k a) I) -> hoare I (bind m k) I.
Proof. intros Hm Hk. by apply hoare_bind with (R := I). Qed.

Lemma hoare_catch {A} (I : World -> Prop) (m : M A) (h : Exn -> M A) :
  hoare I m I -> (forall e, hoare I (h e) I) -> hoare I (try_except m h) I.
Proof. intros Hm Hh. by apply hoare_try with (R := I). Qed.

Lemma hoare_for_each {A} (I : World -> Prop) (xs : list A) (body : A -> M unit) :
  (forall x, In x xs -> hoare I (body x) I) -> hoare I (for_each xs body) I.
Proof.
  induction xs as [|x xs IH]; intros H; simpl.
  - intros w Hw. exact Hw.
  - apply hoare_seq.
    + apply H. by left.
    + intros _. apply IH. intros y Hy. apply H. by right.
Qed.

Lemma same_pp_trans (w1 w2 w3 : World) :
  same_pp w1 w2 -> same_pp w2 w3 -> same_pp w1 w3.
Proof. intros (H1 & H2 & H3) (H4 & H5 & H6). repeat split; congruence. Qed.

Lemma keeps_pp_bind {A B} (m : M A) (k : A -> M B) :
  keeps_pp m -> (forall a, keeps_pp (k a)) -> keeps_pp (bind m k).
Proof.
  intros Hm Hk w. specialize (Hm w). unfold bind.
  destruct (m w) as [[a | e |] w']; simpl in *; auto.
  eapply same_pp_trans; [exact Hm | apply Hk].
Qed.

Lemma keeps_pp_try {A} (m : M A) (h : Exn -> M A) :
  keeps_pp m -> (forall e, keeps_pp (h e)) -> keeps_pp (try_except m h).
Proof.
  intros Hm Hh w. specialize (Hm w). unfold try_except.
  destruct (m w) as [[a | e |] w']; simpl in *; auto.
  eapply same_pp_trans; [exact Hm | apply Hh].
Qed.

Lemma keeps_pp_modify (f : World -> World) :
  (forall w, same_pp w (f w)) -> keeps_pp (modify f).
Proof. intros H w. apply H. Qed.

Lemma keeps_pp_pure {A} (m : M A) :
  (forall w, snd (m w) = w) -> keeps_pp m.
Proof. intros H w. rewrite H. by repeat split. Qed.

Lemma keeps_pp_grab : keeps_pp grab_screen.
Proof. intros w. repeat split; reflexivity. Qed.

Lemma keeps_pp_for_each {A} (xs : list A) (body : A -> M unit) :
  (forall x, keeps_pp (body x)) -> keeps_pp (for_each xs body).
Proof.
  intros H. induction xs as [|x xs IH]; simpl.
  - by apply keeps_pp_pure.
  - apply keeps_pp_bind; auto.
Qed.

End Frame.

(** The constant at the head of an application. *)
Ltac head_of t := lazymatch t with ?f _ => head_of f | _ => t end.

(** Proves [keeps_pp m] by the structure of [m]; gives up on a sleep and
    on a write to a PP dictionary. *)
Ltac keeps :=
  lazymatch goal with
  | |- keeps_pp (bind _ _) => apply keeps_pp_bind; [keeps | intros ?; keeps]
  | |- keeps_pp (try_except _ _) =>
      apply keeps_pp_try; [keeps | intros ?; keeps]
  | |- keeps_pp (for_each _ _) => apply keeps_pp_for_each; intros ?; keeps
  | |- keeps_pp (modify _) =>
      apply keeps_pp_modify; intros ?; repeat split; reflexivity
  | |- keeps_pp (ret _) => apply keeps_pp_pure; reflexivity
  | |- keeps_pp (raise _) => apply keeps_pp_pure; reflexivity
  | |- keeps_pp get => apply keeps_pp_pure; reflexivity
  | |- keeps_pp out_of_fuel => apply keeps_pp_pure; reflexivity
  | |- keeps_pp grab_screen => apply keeps_pp_grab
  | |- keeps_pp (sleep _) => fail
  | |- keeps_pp (current_pp_set _ _) => fail
  | |- keeps_pp (max_pp_set _ _) => fail
  | |- keeps_pp (match ?x with _ => _ end) => destruct x; keeps
  | |- keeps_pp (lift ?r) => destruct r; unfold lift; keeps
  | |- keeps_pp ?m => let h := head_of m in unfold h; keeps
  end.

Section Stability.
Context `{cv : OpenCV} `{fl : Float64}.

Lemma keeps_pp_detect name thr : keeps_pp (detect name thr).
Proof. keeps. Qed.

Lemma hoare_keeps {A} (I : World -> Prop) `{!Respects I} (m : M A) :
  keeps_pp m -> hoare I m I.
Proof. intros H w Hw. eapply respects; [apply H | exact Hw]. Qed.

#[global] Instance stable_sleeps (I : World -> Prop) `{!Stable I} : Sleeps I.
Proof.
  intros q w Hw. unfold sleep. cbn [snd].
  apply (respects (fold_left run_callback (due (ticks w) (gui w))
           (set_trace (trace w ++ [Sleep q]) w))).
  { by repeat split. }
  cbn [gui ticks set_trace].
  assert (I (set_trace (trace w ++ [Sleep q]) w)) as H0.
  { eapply respects; [|exact Hw]. by repeat split. }
  revert H0. generalize (set_trace (trace w ++ [Sleep q]) w).
  induction (due (ticks w) (gui w)) as [|a l IH]; intros w0 H0; simpl; [done|].
  apply IH. by apply stable_callback.
Qed.

#[global] Instance still_sleeps (I : World -> Prop) `{!Still I} : Sleeps I.
Proof.
  intros q w Hw. pose proof (still_quiet w Hw) as Hq.
  unfold sleep. cbn [snd gui ticks set_trace]. rewrite Hq. cbn [due filter map fold_left].
  eapply respects; [|exact Hw]. by repeat split.
Qed.

Lemma hoare_sleep (I : World -> Prop) `{!Sleeps I} q : hoare I (sleep q) I.
Proof. apply sleeps. Qed.

End Stability.

(** Proves [hoare I m I] by the structure of [m], from the hypotheses at
    hand, the frame lemmas and the sleep lemma. *)
Ltac hoare_run :=
  lazymatch goal with
  | |- hoare _ (bind _ _) _ =>
      apply hoare_seq; [hoare_run | intros ?; hoare_run]
  | |- hoare _ (try_except _ _) _ =>
      apply hoare_catch; [hoare_run | intros ?; hoare_run]
  | |- hoare _ (sleep _) _ => apply hoare_sleep; exact _
  | |- hoare _ (match ?x with _ => _ end) _ => destruct x; hoare_run
  | |- hoare _ ?m _ =>
      first [ assumption
            | apply hoare_keeps; [exact _ | solve [keeps]]
            | let h := head_of m in unfold h; hoare_run ]
  end.

(** ** The counters stay within bounds *)

Section Counters.
Context `{cv : OpenCV} `{fl : Float64}.

#[global] Instance guarded_respects oa : Respects (guarded oa).
Proof.
  intros w w' (Hc & Hm & _) [Hinv Hpos]. split.
  - intros i Hi. destruct (Hinv i Hi) as (c & m & H1 & H2 & H3).
    exists c, m. rewrite Hc, Hm. auto.
  - destruct oa; [|done]. by rewrite Hc.
Qed.

(** Writing a positive value to both maps. *)
Lemma guarded_set_both oa (k v : Z) (w : World) :
  0 < v -> guarded oa w ->
  guarded oa
    (set_config
       (with_current_pp (<[k:=v]> (current_pp (config w)))
          (with_max_pp (<[k:=v]> (max_pp (config w))) (config w))) w).
Proof.
  intros Hv [Hinv Hpos]. split.
  - intros i Hi. simpl. destruct (decide (k = i)) as [->|Hne].
    + exists v, v. rewrite !lookup_insert_eq. repeat split; lia.
    + rewrite !lookup_insert_ne by done. auto.
  - destruct oa as [a|]; [|done]. simpl.
    destruct (decide (k = a)) as [->|Hne].
    + exists v. by rewrite lookup_insert_eq.
    + by rewrite lookup_insert_ne.
Qed.

(** Resetting one of the four counters to its maximum. *)
Lemma guarded_reset oa (i m : Z) (w : World) :
  1 <= i <= 4 -> max_pp (config w) !! i = Some m -> guarded oa w ->
  guarded oa
    (set_config (with_current_pp (<[i:=m]> (current_pp (config w))) (config w)) w).
Proof.
  intros Hi Hm [Hinv Hpos].
  destruct (Hinv i Hi) as (c & m' & Hc & Hm' & Hle).
  assert (m' = m) as -> by congruence.
  split.
  - intros j Hj. simpl. destruct (decide (i = j)) as [<-|Hne].
    + exists m, m. rewrite lookup_insert_eq. repeat split; auto; lia.
    + rewrite lookup_insert_ne by done. auto.
  - destruct oa as [a|]; [|done]. simpl.
    destruct (decide (i = a)) as [<-|Hne].
    + exists m. rewrite lookup_insert_eq. split; [done|].
      destruct Hpos as (v & Hv & Hpos). assert (v = c) by congruence. lia.
    + by rewrite lookup_insert_ne.
Qed.

(** Spending one use of a counter that is positive. *)
Lemma guarded_spend (a v : Z) (w : World) :
  guarded (Some a) w -> current_pp (config w) !! a = Some v ->
  guarded None
    (set_config
       (with_current_pp (<[a:=v - 1]> (current_pp (config w))) (config w)) w).
Proof.
  intros [Hinv (v' & Hv' & Hpos)] Hv. assert (v' = v) as -> by congruence.
  split; [|done]. intros j Hj. simpl.
  destruct (Hinv j Hj) as (c & m & Hc & Hm & Hle).
  destruct (decide (a = j)) as [<-|Hne].
  - exists (v - 1), m. rewrite lookup_insert_eq.
    assert (c = v) by congruence. repeat split; auto; lia.
  - rewrite lookup_insert_ne by done. eauto.
Qed.

Lemma guarded_weaken oa (w : World) : guarded oa w -> guarded None w.
Proof. intros [H _]. by split. Qed.

Lemma hoare_update_pp oa ability :
  hoare (guarded oa) (update_pp ability) (guarded oa).
Proof.
  unfold update_pp. apply hoare_catch.
  - apply hoare_seq; [hoare_run|]. intros value.
    destruct (0 <? value) eqn:Hv; [|hoare_run].
    apply Z.ltb_lt in Hv. intros w Hw.
    assert (hoare (guarded oa) update_pp_display (guarded oa)) as Hd
      by hoare_run.
    apply (Hd _ (guarded_set_both oa ability value w Hv Hw)).
  - intros e. hoare_run.
Qed.

Lemma hoare_reset_loop oa :
  hoare (guarded oa)
    (for_each range_1_5 (fun ability =>
       bind (max_pp_at ability) (fun m => current_pp_set ability m)))
    (guarded oa).
Proof.
  apply hoare_for_each. intros i Hi w Hw.
  assert (1 <= i <= 4) as Hr.
  { unfold range_1_5 in Hi. simpl in Hi. lia. }
  unfold max_pp_at, bind, get, dict_get. cbn [fst snd].
  destruct (max_pp (config w) !! i) as [m|] eqn:Hm; [|exact Hw].
  by apply guarded_reset.
Qed.

Lemma hoare_reset_pp oa : hoare (guarded oa) reset_pp (guarded oa).
Proof.
  unfold reset_pp. apply hoare_seq; [apply hoare_reset_loop|].
  intros _. hoare_run.
Qed.

Lemma hoare_toggle_bot oa : hoare (guarded oa) toggle_bot (guarded oa).
Proof.
  unfold toggle_bot. apply hoare_seq; [hoare_run|]. intros w.
  destruct (negb (running w)); [|hoare_run].
  destruct (templates w !! "hp_bar"); [|hoare_run].
  apply hoare_seq; [|intros _; hoare_run].
  apply hoare_for_each. intros a _. apply hoare_update_pp.
Qed.

Lemma hoare_callback oa a : hoare (guarded oa) (callback a) (guarded oa).
Proof.
  destruct a; simpl;
    try apply hoare_toggle_bot; try apply hoare_update_pp;
    try apply hoare_reset_pp; hoare_run.
Qed.

#[global] Instance guarded_stable oa : Stable (guarded oa).
Proof. split; [apply _ | apply hoare_callback]. Qed.

Lemma get_ability_to_use_pure (w w' : World) (r : Res (option Z)) :
  get_ability_to_use w = (r, w') ->
  w' = w /\
  forall a, r = Ok (Some a) ->
    exists v, current_pp (config w) !! a = Some v /\ 0 < v.
Proof.
  unfold get_ability_to_use, bind, get, dict_get.
  destruct (current_pp (config w) !! selected_ability (config w)) as [p|] eqn:Hp;
    cbn [ret raise].
  2:{ intros [= <- <-]. split; [done | discriminate]. }
  destruct (0 <? p) eqn:Epos.
  { intros [= <- <-]. split; [done|]. intros a [= <-].
    exists p. split; [done | by apply Z.ltb_lt]. }
  destruct (use_backup (config w)).
  2:{ intros [= <- <-]. split; [done | discriminate]. }
  destruct (current_pp (config w) !! backup_ability (config w)) as [q|] eqn:Hq;
    cbn [ret raise].
  2:{ intros [= <- <-]. split; [done | discriminate]. }
  destruct (0 <? q) eqn:Eq; intros [= <- <-]; (split; [done|]);
    [|discriminate].
  intros a [= <-]. exists q. split; [done | by apply Z.ltb_lt].
Qed.

Lemma hoare_ret_bind {A B} (P Q : World -> Prop) (a : A) (k : A -> M B) :
  hoare P (k a) Q -> hoare P (bind (ret a) k) Q.
Proof. intros H. exact H. Qed.

Lemma hoare_bind_result {A B} (P Q : World -> Prop) (R : A -> World -> Prop)
    (m : M A) (k : A -> M B) :
  (forall w, P w ->
     match m w with (Ok a, w') => R a w' | (_, w') => Q w' end) ->
  (forall a, hoare (R a) (k a) Q) ->
  hoare P (bind m k) Q.
Proof.
  intros Hm Hk w HP. specialize (Hm w HP). unfold bind.
  destruct (m w) as [[a | e |] w']; cbn [snd]; auto. by apply Hk.
Qed.

End Counters.

(** The fight script on ability [a], from the first key press on: the
    counter of [a] stays positive until it is spent. *)
Ltac fight_script a :=
  do 11 (apply hoare_bind with (R := guarded (Some a));
         [solve [hoare_run] | intros _ | apply guarded_weaken]);
  let w := fresh "w" in
  let Hw := fresh "Hw" in
  let v := fresh "v" in
  let Hv := fresh "Hv" in
  let Ht := fresh "Ht" in
  intros w Hw; unfold current_pp_at, bind at 1 2, get, dict_get;
  cbn [fst snd];
  destruct (current_pp (config w) !! a) as [v|] eqn:Hv;
    [|by apply (guarded_weaken (Some a))];
  cbn [ret]; unfold bind at 1, current_pp_set, modify;
  assert (hoare (guarded None) (bind (sleep 0.3) (fun _ => ret true))
            (guarded None)) as Ht by hoare_run;
  apply Ht; by apply guarded_spend.

Section Invariant.
Context `{cv : OpenCV} `{fl : Float64}.

(** A fight on an ability whose counter is positive keeps the invariant,
    whatever the control surface does meanwhile. *)
Lemma hoare_fight_positive (a : Z) :
  hoare (guarded (Some a)) (select_fight_and_ability (Some a)) (guarded None).
Proof.
  unfold select_fight_and_ability.
  apply hoare_ret_bind. cbv beta iota. fight_script a.
Qed.

Lemma hoare_fight :
  hoare (guarded None) (select_fight_and_ability None) (guarded None).
Proof.
  unfold select_fight_and_ability.
  apply hoare_bind_result with
    (R := fun r w => match r with
                     | Some a => guarded (Some a) w
                     | None => guarded None w
                     end).
  - intros w Hw. destruct (get_ability_to_use w) as [r w'] eqn:E.
    destruct (get_ability_to_use_pure _ _ _ E) as [-> Hr].
    destruct r as [[a|] | e |]; try exact Hw.
    split; [apply Hw | by apply Hr].
  - intros [a|]; [fight_script a | hoare_run].
Qed.

Lemma hoare_heal oa :
  hoare (guarded oa) heal_pokemon_at_center (guarded oa).
Proof.
  pose proof (hoare_reset_loop oa) as Hloop.
  unfold heal_pokemon_at_center. hoare_run.
Qed.

Section Loop.
Context (I : World -> Prop) `{!Respects I} `{!Sleeps I}.
Context (Hfight : hoare I (select_fight_and_ability None) I).
Context (Hheal : hoare I heal_pokemon_at_center I).

Lemma hoare_handle_battle fuel : hoare I (handle_battle fuel) I.
Proof. induction fuel as [|fuel IH]; cbn [handle_battle]; hoare_run. Qed.

Lemma hoare_after_battle result : hoare I (after_battle result) I.
Proof. unfold after_battle. hoare_run. Qed.

Lemma hoare_main_loop_body bf : hoare I (main_loop_body bf) I.
Proof.
  pose proof (hoare_handle_battle bf) as Hb.
  pose proof hoare_after_battle as Ha.
  unfold main_loop_body. hoare_run.
Qed.

Lemma hoare_main_loop_from fuel bf : hoare I (main_loop_from fuel bf) I.
Proof.
  pose proof (hoare_main_loop_body bf) as Hb.
  induction fuel as [|fuel IH]; cbn [main_loop_from]; hoare_run.
Qed.

Lemma hoare_main_loop fuel bf : hoare I (main_loop fuel bf) I.
Proof.
  pose proof (hoare_main_loop_from fuel bf) as Hl.
  unfold main_loop. hoare_run.
Qed.
End Loop.

Lemma pp_invariant_default : pp_invariant BotConfig_default.
Proof.
  intros i Hi. exists 20, 20.
  assert (i = 1 \/ i = 2 \/ i = 3 \/ i = 4) as [-> | [-> | [-> | ->]]] by lia;
    repeat split; try reflexivity; lia.
Qed.

Lemma hoare_pp_ok {A} (m : M A) :
  hoare (guarded None) m (guarded None) -> hoare pp_ok m pp_ok.
Proof. intros H w Hw. by apply H. Qed.

(** C7. The invariant 0 <= current_pp[i] <= max_pp[i], i in 1..4, holds
    of the default configuration and of a freshly built bot, and every
    operation ends in a world where it holds if it started in one: ability
    selection, the PP reset and the Max PP update of the control surface
    and every other callback; and, as long as no second worker has been
    launched, the fight as the battle loop invokes it, the battle loop,
    healing, a sleep of the worker with whatever callbacks the operator
    triggers meanwhile, and the whole main loop. *)
Theorem pp_invariant_preserved :
  pp_invariant BotConfig_default /\
  (forall found scr clicks, pp_ok (BotGUI_init found scr clicks)) /\
  hoare pp_ok get_ability_to_use pp_ok /\
  alone pp_ok (select_fight_and_ability None) /\
  (forall fuel, alone pp_ok (handle_battle fuel)) /\
  alone pp_ok heal_pokemon_at_center /\
  hoare pp_ok reset_pp pp_ok /\
  (forall ability, hoare pp_ok (update_pp ability) pp_ok) /\
  (forall a, hoare pp_ok (callback a) pp_ok) /\
  (forall q, alone pp_ok (sleep q)) /\
  (forall fuel battle_fuel, alone pp_ok (main_loop fuel battle_fuel)).
Proof.
  pose proof hoare_fight as Hf. pose proof (hoare_heal None) as Hh.
  assert (forall A (m : M A), hoare pp_ok m pp_ok -> alone pp_ok m) as Ha.
  { intros A m H w Hw _. by apply H. }
  repeat split.
  - exact pp_invariant_default.
  - intros. exact pp_invariant_default.
  - apply hoare_pp_ok. hoare_run.
  - by apply Ha, hoare_pp_ok.
  - intros. apply Ha, hoare_pp_ok. by apply hoare_handle_battle; try apply _.
  - by apply Ha, hoare_pp_ok.
  - apply hoare_pp_ok, hoare_reset_pp.
  - intros. apply hoare_pp_ok, hoare_update_pp.
  - intros. apply hoare_pp_ok, hoare_callback.
  - intros. apply Ha, hoare_pp_ok, hoare_sleep, _.
  - intros. apply Ha, hoare_pp_ok. by apply hoare_main_loop; try apply _.
Qed.
End Invariant.

(** ** Execution while the control surface is idle *)

Section Quiet.
Context `{cv : OpenCV} `{fl : Float64}.

Lemma bind_assoc {A B C} (m : M A) (k1 : A -> M B) (k2 : B -> M C) (w : World) :
  bind (bind m k1) k2 w = bind m (fun x => bind (k1 x) k2) w.
Proof. unfold bind. destruct (m w) as [[a | e |] w']; reflexivity. Qed.

Lemma sleep_quiet (q : Q) (w : World) :
  quiet w ->
  sleep q w =
    (Ok tt, set_ticks (S (ticks w)) (set_trace (trace w ++ [Sleep q]) w)).
Proof. unfold quiet, sleep. intros H. simpl. rewrite H. reflexivity. Qed.

Lemma bind_sleep_quiet {B} (q : Q) (k : unit -> M B) (w : World) :
  quiet w ->
  bind (sleep q) k w =
    k tt (set_ticks (S (ticks w)) (set_trace (trace w ++ [Sleep q]) w)).
Proof. intros H. unfold bind. rewrite sleep_quiet by exact H. reflexivity. Qed.

Lemma bind_current_pp_at {B} (a v : Z) (k : Z -> M B) (w : World) :
  current_pp (config w) !! a = Some v ->
  bind (current_pp_at a) k w = k v w.
Proof.
  intros H. unfold current_pp_at, bind, get, dict_get. rewrite H. reflexivity.
Qed.

Lemma bind_max_pp_at {B} (a v : Z) (k : Z -> M B) (w : World) :
  max_pp (config w) !! a = Some v ->
  bind (max_pp_at a) k w = k v w.
Proof.
  intros H. unfold max_pp_at, bind, get, dict_get. rewrite H. reflexivity.
Qed.

#[global] Instance frozen_respects cur mx : Respects (frozen cur mx).
Proof.
  intros w w' (Hc & Hm & Hg) (Hq & H1 & H2). unfold frozen, quiet.
  rewrite Hc, Hm, Hg. auto.
Qed.

#[global] Instance frozen_still cur mx : Still (frozen cur mx).
Proof. split; [apply _ | by intros w [Hq _]]. Qed.

End Quiet.

(** Worlds are kept flat: setters unfold to a record of projections. *)
Ltac flat :=
  cbv beta delta [set_config set_movement put_state set_stats set_running
                  set_pp_entries set_grabs set_ticks set_trace];
  cbn [fst snd config templates movement_controller state stats
       running pp_entries screens grabs gui ticks trace
       current_pp max_pp with_current_pp with_max_pp
       time_per_space time_to_turn movement_delay detection_threshold
       attack_wait_time startup_delay selected_ability backup_ability
       use_backup use_abra_teleport
       pattern current_direction spaces_to_move movements battles runs].

(** Unfolds a primitive effect to [modify], [get] and [ret]. *)
Ltac prim m :=
  lazymatch m with
  | press _ => unfold press, log
  | keyDown _ => unfold keyDown, log
  | keyUp _ => unfold keyUp, log
  | print _ => unfold print, log
  | log _ => unfold log
  | set_state _ => unfold set_state, log
  | current_pp_set _ _ => unfold current_pp_set
  | max_pp_set _ _ => unfold max_pp_set
  | threshold => unfold threshold
  | spaces => unfold spaces
  | add_stat _ _ _ => unfold add_stat
  | update_config _ => unfold update_config
  | start => unfold start
  | stop => unfold stop
  end.

(** One step of the computation at the head of the goal. *)
Ltac step :=
  lazymatch goal with
  | |- context [bind ?m ?k ?w] =>
      lazymatch m with
      | bind ?m1 ?k1 => rewrite (bind_assoc m1 k1 k w)
      | ret ?a => change (bind m k w) with (k a w)
      | get => change (bind m k w) with (k w w)
      | modify ?f => change (bind m k w) with (k tt (f w))
      | sleep ?q =>
          rewrite (bind_sleep_quiet q k w) by (unfold quiet; flat; assumption)
      | current_pp_at ?a =>
          erewrite (bind_current_pp_at a _ k w) by (flat; eassumption)
      | max_pp_at ?a =>
          erewrite (bind_max_pp_at a _ k w) by (flat; eassumption)
      | (if ?c then _ else _) =>
          let c' := eval cbv in c in
          lazymatch c' with
          | true => change c with true; cbv iota
          | false => change c with false; cbv iota
          end
      | _ => prim m
      end
  | |- context [sleep ?q ?w] =>
      rewrite (sleep_quiet q w) by (unfold quiet; flat; assumption)
  | |- context [modify ?f ?w] => change (modify f w) with (Ok tt, f w)
  | |- context [ret ?a ?w] => change (ret a w) with (Ok a, w)
  | |- context [get ?w] => change (get w) with (Ok w, w)
  | |- context [?m ?w] => prim m
  end; flat.

Ltac exec := repeat step.

Section Fight.
Context `{cv : OpenCV} `{fl : Float64}.

Lemma one_to_four (a : Z) :
  1 <= a <= 4 -> a = 1 \/ a = 2 \/ a = 3 \/ a = 4.
Proof. lia. Qed.

(** C10. Called with an explicit ability between 1 and 4, the fight
    script runs to its end, presses its keys, takes one use off the
    counter of that ability whatever its value, and returns [True]; from a
    counter at 0 it leaves -1, outside the invariant. Called without an
    ability, the selection guards it: with nothing usable it returns
    [False] and writes nothing. *)
Theorem explicit_fight_is_unguarded (a v : Z) (w : World) :
  quiet w ->
  1 <= a <= 4 ->
  current_pp (config w) !! a = Some v ->
  (exists w' (evs : list Event),
     select_fight_and_ability (Some a) w = (Ok true, w') /\
     current_pp (config w') = <[a := v - 1]> (current_pp (config w)) /\
     max_pp (config w') = max_pp (config w) /\
     trace w' = trace w ++ evs /\
     presses_of evs =
       ["up"; "z"; "up"; "up"; "left"] ++
       match a with
       | 1 => ["z"]
       | 2 => ["right"; "z"]
       | 3 => ["down"; "z"]
       | _ => ["down"; "right"; "z"]
       end /\
     (v = 0 -> current_pp (config w') !! a = Some (-1) /\
               ~ pp_invariant (config w'))) /\
  (get_ability_to_use w = (Ok None, w) ->
   select_fight_and_ability None w = (Ok false, w)).
Proof.
  intros Hq Ha Hv. split.
  - unfold select_fight_and_ability.
    destruct (one_to_four a Ha) as [-> | [-> | [-> | ->]]];
      exec;
      (eexists; eexists; split; [reflexivity|]); flat;
      (split; [reflexivity|]); (split; [reflexivity|]);
      (split; [rewrite <- !app_assoc; reflexivity|]);
      (split; [reflexivity|]);
      intros ->; (split; [by rewrite lookup_insert_eq|]);
      intros Hinv;
      [ destruct (Hinv 1) as (c & m & Hc & _ & Hle); [lia|]
      | destruct (Hinv 2) as (c & m & Hc & _ & Hle); [lia|]
      | destruct (Hinv 3) as (c & m & Hc & _ & Hle); [lia|]
      | destruct (Hinv 4) as (c & m & Hc & _ & Hle); [lia|] ];
      cbn in Hc; rewrite lookup_insert_eq in Hc; injection Hc as <-; lia.
  - intros Hg. unfold select_fight_and_ability. unfold bind at 1.
    rewrite Hg. reflexivity.
Qed.
End Fight.

Section Effects.
Context `{cv : OpenCV} `{fl : Float64}.

Lemma states_of_app (t1 t2 : list Event) :
  states_of (t1 ++ t2) = states_of t1 ++ states_of t2.
Proof.
  induction t1 as [|e t1 IH]; simpl; [done|]. destruct e; simpl; congruence.
Qed.

Lemma presses_of_app (t1 t2 : list Event) :
  presses_of (t1 ++ t2) = presses_of t1 ++ presses_of t2.
Proof.
  induction t1 as [|e t1 IH]; simpl; [done|]. destruct e; simpl; congruence.
Qed.

(** C4. A fight on the chosen ability [a] returns [True], takes exactly one
    use off the counter of [a] and leaves every other counter and every
    maximum as it was; with nothing to choose it returns [False] and
    writes nothing. No other step writes a counter: while the control
    surface is idle, selection, the flee script, detection, movement,
    travel, start and stop keep both dictionaries, and whatever the fight
    and the healing reset preserve, the battle loop and the whole main loop
    preserve. *)
Theorem fight_spends_one_use :
  (forall (w : World) (a : Z),
     quiet w ->
     get_ability_to_use w = (Ok (Some a), w) ->
     exists v w',
       select_fight_and_ability None w = (Ok true, w') /\
       current_pp (config w) !! a = Some v /\
       current_pp (config w') !! a = Some (v - 1) /\
       (forall b, b <> a ->
          current_pp (config w') !! b = current_pp (config w) !! b) /\
       max_pp (config w') = max_pp (config w)) /\
  (forall w : World,
     get_ability_to_use w = (Ok None, w) ->
     select_fight_and_ability None w = (Ok false, w)) /\
  (forall cur mx,
     hoare (frozen cur mx) get_ability_to_use (frozen cur mx) /\
     hoare (frozen cur mx) select_run (frozen cur mx) /\
     (forall name thr, hoare (frozen cur mx) (detect name thr) (frozen cur mx)) /\
     (forall d n, hoare (frozen cur mx) (move d n) (frozen cur mx)) /\
     hoare (frozen cur mx) move_cycle (frozen cur mx) /\
     hoare (frozen cur mx) teleport_to_pokecenter (frozen cur mx) /\
     hoare (frozen cur mx) start (frozen cur mx) /\
     hoare (frozen cur mx) stop (frozen cur mx)) /\
  (forall I : World -> Prop,
     Respects I -> Sleeps I ->
     hoare I (select_fight_and_ability None) I ->
     hoare I heal_pokemon_at_center I ->
     (forall fuel, hoare I (handle_battle fuel) I) /\
     (forall fuel battle_fuel, hoare I (main_loop fuel battle_fuel) I)).
Proof.
  split; [|split; [|split]].
  - intros w a Hq Hg.
    destruct (get_ability_to_use_pure _ _ _ Hg) as [_ Hr].
    destruct (Hr a eq_refl) as (v & Hv & _). exists v.
    unfold select_fight_and_ability. unfold bind at 1. rewrite Hg.
    cbv beta iota. exec.
    destruct (a =? 1); [|destruct (a =? 2); [|destruct (a =? 3);
      [|destruct (a =? 4)]]];
      exec; (eexists; split; [reflexivity|]); flat;
      (split; [exact Hv|]);
      (split; [by rewrite lookup_insert_eq|]);
      (split; [|reflexivity]);
      intros b Hb; by rewrite lookup_insert_ne.
  - intros w Hg. unfold select_fight_and_ability. unfold bind at 1.
    rewrite Hg. reflexivity.
  - intros cur mx.
    repeat apply conj;
      [ | | intros name thr | intros d n | | | | ]; hoare_run.
  - intros I HR HS Hf Hh. split; intros.
    + by apply hoare_handle_battle.
    + by apply hoare_main_loop.
Qed.

Lemma bind_time_sleep_ok {B} (q : Q) (k : unit -> M B) (w : World) :
  (0 <= q)%Q -> bind (time_sleep q) k w = bind (sleep q) k w.
Proof.
  intros Hq. unfold time_sleep.
  by rewrite (proj2 (Qle_bool_iff 0 q) Hq).
Qed.

Lemma bind_time_sleep_neg {B} (q : Q) (k : unit -> M B) (w : World) :
  (q < 0)%Q -> bind (time_sleep q) k w = (Raise ValueError, w).
Proof.
  intros Hq. unfold time_sleep.
  destruct (Qle_bool 0 q) eqn:E; [|reflexivity].
  apply Qle_bool_iff in E. by apply Qle_not_lt in E.
Qed.

(** C5, amended. [move] computes the hold time (the turn cost unless the
    direction is the facing) + per-tile cost * spaces, in floating point.
    When it is not negative, the key of the direction is held for it, then
    released, and the move settles; when it is negative, [time.sleep]
    raises [ValueError] with the key down, and it is never released. In
    both cases the facing is the requested direction afterwards. In exact
    arithmetic the hold time is the formula of the specification, which is
    strictly increasing in the number of spaces for a positive per-tile
    cost. *)
Theorem move_cost_and_facing (d : Direction) (n : Z) (w : World) :
  quiet w ->
  let turn := bool_decide (current_direction (movement_controller w) <> d) in
  let held := hold_time (config w) n turn in
  ((0 <= held)%Q ->
   exists w',
     move d n w = (Ok tt, w') /\
     trace w' =
       trace w ++
       [KeyDown (direction_keys d); Sleep held; KeyUp (direction_keys d);
        Sleep 0.1] /\
     current_direction (movement_controller w') = d) /\
  ((held < 0)%Q ->
   exists w',
     move d n w = (Raise ValueError, w') /\
     trace w' = trace w ++ [KeyDown (direction_keys d)] /\
     current_direction (movement_controller w') = d) /\
  @hold_time exact_arith (config w) n turn =
    spec_cost (time_to_turn (config w)) (time_per_space (config w))
      d n (current_direction (movement_controller w)) /\
  (forall n',
     (0 < time_per_space (config w))%Q -> n < n' ->
     (spec_cost (time_to_turn (config w)) (time_per_space (config w))
        d n (current_direction (movement_controller w)) <
      spec_cost (time_to_turn (config w)) (time_per_space (config w))
        d n' (current_direction (movement_controller w)))%Q).
Proof.
  intros Hq turn held. subst held turn. unfold hold_time.
  repeat apply conj.
  - intros Hd. unfold move. exec.
    destruct (decide (current_direction (movement_controller w) <> d))
      as [Hne | Heq]; exec.
    + rewrite (bool_decide_eq_true_2 _ Hne) in Hd |- *.
      rewrite bind_time_sleep_ok by exact Hd. exec.
      eexists. split; [reflexivity|]. flat.
      split; [by rewrite <- !app_assoc | reflexivity].
    + rewrite (bool_decide_eq_false_2 _ Heq) in Hd |- *.
      rewrite bind_time_sleep_ok by exact Hd. exec.
      eexists. split; [reflexivity|]. flat.
      split; [by rewrite <- !app_assoc|].
      destruct (decide (current_direction (movement_controller w) = d));
        tauto.
  - intros Hd. unfold move. exec.
    destruct (decide (current_direction (movement_controller w) <> d))
      as [Hne | Heq]; exec.
    + rewrite (bool_decide_eq_true_2 _ Hne) in Hd.
      rewrite bind_time_sleep_neg by exact Hd.
      eexists. split; [reflexivity|]. by flat.
    + rewrite (bool_decide_eq_false_2 _ Heq) in Hd.
      rewrite bind_time_sleep_neg by exact Hd.
      eexists. split; [reflexivity|]. flat. split; [reflexivity|].
      destruct (decide (current_direction (movement_controller w) = d));
        tauto.
  - unfold spec_cost. cbn [float_add float_mul float_of_int exact_arith].
    destruct (decide (current_direction (movement_controller w) <> d))
      as [Hne | Heq].
    + rewrite (bool_decide_eq_true_2 _ Hne).
      destruct (decide (d = current_direction (movement_controller w)));
        [congruence | reflexivity].
    + rewrite (bool_decide_eq_false_2 _ Heq).
      destruct (decide (d = current_direction (movement_controller w)));
        [reflexivity|].
      destruct (decide (current_direction (movement_controller w) = d));
        [congruence | tauto].
  - intros n' Hpos Hlt. unfold spec_cost.
    apply Qplus_lt_r. apply Qmult_lt_l; [exact Hpos|].
    rewrite <- Zlt_Qlt. exact Hlt.
Qed.

Lemma workers_spawned_app (t1 t2 : list Event) :
  workers_spawned (t1 ++ t2) = (workers_spawned t1 + workers_spawned t2)%nat.
Proof.
  induction t1 as [|e t1 IH]; simpl; [done|]. destruct e; simpl; lia.
Qed.

(** C9. Asked to start while no [hp_bar] template is loaded, [toggle_bot]
    only shows its message: the state and the running flag stay as they
    were ([Stopped] and [False]), no state is assigned and no worker is
    launched. *)
Theorem start_refused_without_hp_bar (w : World) :
  running w = false ->
  templates w !! "hp_bar" = None ->
  toggle_bot w =
    (Ok tt,
     set_trace (trace w ++ [StatusLabel "Load HP Bar image first!"]) w) /\
  state (snd (toggle_bot w)) = state w /\
  running (snd (toggle_bot w)) = false /\
  states_of (trace (snd (toggle_bot w))) = states_of (trace w) /\
  workers_spawned (trace (snd (toggle_bot w))) = workers_spawned (trace w).
Proof.
  intros Hr Ht.
  assert (toggle_bot w =
    (Ok tt,
     set_trace (trace w ++ [StatusLabel "Load HP Bar image first!"]) w)) as E.
  { unfold toggle_bot, bind, get. rewrite Hr, Ht. reflexivity. }
  rewrite E. cbn [snd state running trace set_trace].
  repeat split; auto.
  - rewrite states_of_app. simpl. by rewrite app_nil_r.
  - rewrite workers_spawned_app. simpl. lia.
Qed.
End Effects.

(** ** Scenarios of the main loop *)

Section Detect.
Context `{cv : OpenCV} `{fl : Float64}.

Lemma bind_detect_seen {B} (name : string) (thr : Q) (k : bool -> M B)
    (w : World) :
  scores_reach (templates w) (screens w) thr (grabs w) name = true ->
  bind (detect name thr) k w =
    k true (set_trace (trace w ++ [Grab]) (set_grabs (S (grabs w)) w)).
Proof.
  unfold scores_reach, detect, bind at 1 2, get.
  destruct (templates w !! name) as [tpl|]; [|discriminate].
  unfold try_except, bind, grab_screen, lift.
  destruct (screens w (grabs w)) as [screen|]; [|discriminate].
  destruct (matchTemplate screen tpl) as [[|s rest]|]; try discriminate.
  cbn. intros ->. reflexivity.
Qed.

Lemma bind_detect_unseen (name : string) (thr : Q) (w : World) :
  scores_reach (templates w) (screens w) thr (grabs w) name = false ->
  exists evs dg,
    (forall B (k : bool -> M B),
       bind (detect name thr) k w =
         k false (set_trace (trace w ++ evs) (set_grabs (dg + grabs w) w))) /\
    states_of evs = [] /\ presses_of evs = [].
Proof.
  unfold scores_reach, detect.
  destruct (templates w !! name) as [tpl|] eqn:Ht.
  2:{ intros _. exists [], 0%nat. split; [|done]. intros B k.
      unfold bind at 1 2, get. rewrite Ht. cbn [ret].
      rewrite app_nil_r. by destruct w. }
  destruct (screens w (grabs w)) as [screen|e] eqn:Hs.
  2:{ intros _. eexists [Grab; Stdout _], 1%nat. split; [|done]. intros B k.
      unfold bind at 1 2, get. rewrite Ht.
      unfold try_except, bind at 1, grab_screen. rewrite Hs.
      cbn. by rewrite <- app_assoc. }
  destruct (matchTemplate screen tpl) as [[|s rest]|e] eqn:Hm.
  - intros _. eexists [Grab; Stdout _], 1%nat. split; [|done]. intros B k.
    unfold bind at 1 2, get. rewrite Ht.
    unfold try_except, bind at 1 2, grab_screen, lift. rewrite Hs.
    cbn. rewrite Hm. cbn. by rewrite <- app_assoc.
  - intros Hle. exists [Grab], 1%nat. split; [|done]. intros B k.
    unfold bind at 1 2, get. rewrite Ht.
    unfold try_except, bind at 1 2, grab_screen, lift. rewrite Hs.
    cbn. rewrite Hm. cbn. by rewrite Hle.
  - intros _. eexists [Grab; Stdout _], 1%nat. split; [|done]. intros B k.
    unfold bind at 1 2, get. rewrite Ht.
    unfold try_except, bind at 1 2, grab_screen, lift. rewrite Hs.
    cbn. rewrite Hm. cbn. by rewrite <- app_assoc.
Qed.

Lemma bind_get_ability_none {B} (k : option Z -> M B) (w : World) :
  current_pp (config w) !! selected_ability (config w) = Some 0 ->
  use_backup (config w) = false ->
  bind get_ability_to_use k w = k None w.
Proof.
  intros Hp Hb. unfold get_ability_to_use, bind at 1 2 3, get, dict_get.
  rewrite Hp. cbn. rewrite Hb. reflexivity.
Qed.
End Detect.

(** Stepping through the detector, the selection and the tests of the
    loops, on top of [step]. *)
Ltac walk :=
  lazymatch goal with
  | |- context [bind ?m ?k ?w] =>
      lazymatch m with
      | detect ?n ?t =>
          rewrite (bind_detect_seen n t k w) by (flat; assumption); flat
      | is_in_battle _ => unfold is_in_battle
      | is_battle_menu_visible _ => unfold is_battle_menu_visible
      | get_ability_to_use =>
          rewrite (bind_get_ability_none k w) by (flat; assumption); flat
      | select_fight_and_ability None => unfold select_fight_and_ability
      | select_run => unfold select_run
      | teleport_to_pokecenter => unfold teleport_to_pokecenter
      | heal_pokemon_at_center => unfold heal_pokemon_at_center
      | after_battle _ => unfold after_battle
      | handle_battle (S _) => cbn [handle_battle]
      | for_each _ _ => unfold range_1_5; cbn [for_each]
      | (if decide ?P then _ else _) =>
          destruct (decide P); [|congruence]
      | (if negb ?c then _ else _) =>
          lazymatch c with
          | true => change (negb true) with false; cbv iota
          | false => change (negb false) with true; cbv iota
          end
      | (if ?c then _ else _) =>
          lazymatch goal with H : c = _ |- _ => rewrite H; cbv iota end
      | (match ?c with Continue => _ | Return => _ end) =>
          lazymatch c with
          | Continue => cbv iota
          | Return => cbv iota
          end
      | _ => step
      end
  | |- _ => step
  end.

Section Scenarios.
Context `{cv : OpenCV} `{fl : Float64}.

(** C2, amended. The bot is running, the detector reports the battle at
    the outer poll and at the battle poll and the menu visible, the primary
    ability has no use left, the backup is disabled and so is escalation.
    Then one pass of the main loop assigns the states [In_battle], then
    [Attacking] when some counter, selected or not, is positive and
    [Running] (fleeing) when none is, then [Running], then [Moving]; it
    presses the four keys of the flee script only, adds exactly one to the
    flee counter and to the battle counter, and leaves the configuration
    as it was. *)
Theorem flee_when_depleted (battle_fuel : nat) (w : World) :
  quiet w ->
  current_pp (config w) !! selected_ability (config w) = Some 0 ->
  use_backup (config w) = false ->
  use_abra_teleport (config w) = false ->
  seen w (grabs w) "hp_bar" = true ->
  seen w (S (grabs w)) "hp_bar" = true ->
  seen w (S (S (grabs w))) "battle_menu" = true ->
  exists w' evs,
    main_loop_body (S battle_fuel) w = (Ok Continue, w') /\
    trace w' = trace w ++ evs /\
    states_of evs =
      [IN_BATTLE;
       if any_positive (current_pp (config w)) then ATTACKING else RUNNING;
       RUNNING; MOVING] /\
    presses_of evs = ["up"; "down"; "right"; "z"] /\
    runs (stats w') = runs (stats w) + 1 /\
    battles (stats w') = battles (stats w) + 1 /\
    state w' = MOVING /\
    config w' = config w.
Proof.
  unfold seen. intros Hq Hp Hb Ht H0 H1 H2.
  unfold main_loop_body. repeat walk.
  destruct (any_positive (current_pp (config w))); cbn [negb]; cbv iota;
    repeat walk;
    (eexists; eexists; split; [reflexivity|]); flat;
    (split; [rewrite <- !app_assoc; reflexivity|]);
    repeat split; try reflexivity; lia.
Qed.

Lemma bind_returns {A B} (m : M A) (k : A -> M B) (w w' : World) (a : A) :
  m w = (Ok a, w') -> bind m k w = k a w'.
Proof. intros H. unfold bind. by rewrite H. Qed.

(** What follows a flee when escalation is enabled, whatever led to the
    flee. *)
Lemma after_flee (w : World) :
  quiet w ->
  use_abra_teleport (config w) = true ->
  (forall i, 1 <= i <= 4 -> is_Some (max_pp (config w) !! i)) ->
  exists w' evs,
    trace w' = trace w ++ evs /\
    runs (stats w') = runs (stats w) + 1 /\
    max_pp (config w') = max_pp (config w) /\
    if seen w (grabs w) "hp_bar"
    then
      after_battle "run" w = (Ok Continue, w') /\
      state w' = MOVING /\
      running w' = running w /\
      states_of evs = [RUNNING; MOVING] /\
      presses_of evs = [] /\
      current_pp (config w') = current_pp (config w)
    else
      after_battle "run" w = (Ok Return, w') /\
      state w' = STOPPED /\
      running w' = false /\
      states_of evs = [RUNNING; TELEPORTING; HEALING; STOPPED] /\
      presses_of evs = ["9"; "z"; "z"; "z"; "z"; "z"] /\
      forall i, 1 <= i <= 4 ->
        current_pp (config w') !! i = max_pp (config w') !! i.
Proof.
  unfold seen. intros Hq Ht Hmax.
  destruct (Hmax 1) as [m1 Hm1]; [lia|]. destruct (Hmax 2) as [m2 Hm2]; [lia|].
  destruct (Hmax 3) as [m3 Hm3]; [lia|]. destruct (Hmax 4) as [m4 Hm4]; [lia|].
  destruct (scores_reach _ _ _ _ _) eqn:Hs; unfold after_battle; repeat walk.
  + (eexists; eexists; split; [|split; [|split; [|split; [reflexivity|]]]]);
      flat; [rewrite <- !app_assoc; reflexivity | lia | reflexivity |].
    repeat split; reflexivity.
  + match goal with
    | |- context [bind (detect ?n ?t) ?k ?W] =>
        destruct (bind_detect_unseen n t W) as (evs0 & dg & Hd & Hst & Hpr);
          [flat; assumption | rewrite Hd; flat]
    end.
    repeat walk.
    (eexists; eexists; split; [|split; [|split; [|split; [reflexivity|]]]]);
      flat; [rewrite <- !app_assoc; reflexivity | lia | reflexivity |].
    split; [reflexivity|]. split; [reflexivity|].
    split; [rewrite !states_of_app, Hst; reflexivity|].
    split; [rewrite !presses_of_app, Hpr; reflexivity|].
    intros i Hi.
    destruct (one_to_four i Hi) as [-> | [-> | [-> | ->]]];
      repeat (rewrite lookup_insert_ne by done);
      rewrite lookup_insert_eq; congruence.
Qed.

(** The pass of the main loop that flees with escalation enabled: the
    battle is detected at the outer poll and at the battle poll, the menu
    is visible, the primary ability is spent and the backup disabled. *)
Lemma flee_then_recover (bf : nat) (w : World) :
  quiet w ->
  use_abra_teleport (config w) = true ->
  (forall i, 1 <= i <= 4 -> is_Some (max_pp (config w) !! i)) ->
  current_pp (config w) !! selected_ability (config w) = Some 0 ->
  use_backup (config w) = false ->
  seen w (grabs w) "hp_bar" = true ->
  seen w (S (grabs w)) "hp_bar" = true ->
  seen w (S (S (grabs w))) "battle_menu" = true ->
  exists w' evs,
    trace w' = trace w ++ evs /\
    states_of evs =
      [IN_BATTLE;
       if any_positive (current_pp (config w)) then ATTACKING else RUNNING;
       RUNNING] ++
      (if seen w (S (S (S (grabs w)))) "hp_bar" then [MOVING]
       else [TELEPORTING; HEALING; STOPPED]) /\
    presses_of evs =
      ["up"; "down"; "right"; "z"] ++
      (if seen w (S (S (S (grabs w)))) "hp_bar" then []
       else ["9"; "z"; "z"; "z"; "z"; "z"]) /\
    runs (stats w') = runs (stats w) + 1 /\
    max_pp (config w') = max_pp (config w) /\
    if seen w (S (S (S (grabs w)))) "hp_bar"
    then
      main_loop_body (S bf) w = (Ok Continue, w') /\
      state w' = MOVING /\
      running w' = running w /\
      current_pp (config w') = current_pp (config w)
    else
      main_loop_body (S bf) w = (Ok Return, w') /\
      state w' = STOPPED /\
      running w' = false /\
      forall i, 1 <= i <= 4 ->
        current_pp (config w') !! i = max_pp (config w') !! i.
Proof.
  unfold seen. intros Hq Ht Hmax Hp Hb H0 H1 H2.
  destruct (Hmax 1) as [m1 Hm1]; [lia|]. destruct (Hmax 2) as [m2 Hm2]; [lia|].
  destruct (Hmax 3) as [m3 Hm3]; [lia|]. destruct (Hmax 4) as [m4 Hm4]; [lia|].
  destruct (scores_reach _ _ _ (S (S (S (grabs w)))) _) eqn:Hs;
    unfold main_loop_body; repeat walk;
    destruct (any_positive (current_pp (config w))); cbn [negb]; cbv iota;
    repeat walk.
  1,2: lazymatch goal with
       | |- context [(Ok Continue, ?W) = (Ok Continue, _)] => exists W
       end;
       (eexists; split; [flat; rewrite <- !app_assoc; reflexivity|]);
       flat; repeat split; try reflexivity; lia.
  all: match goal with
       | |- context [bind (detect ?n ?t) ?k ?W] =>
           destruct (bind_detect_unseen n t W) as (evs0 & dg & Hd & Hst & Hpr);
             [flat; assumption | rewrite Hd; flat]
       end;
       repeat walk;
       lazymatch goal with
       | |- context [(Ok Return, ?W) = (Ok Return, _)] => exists W
       end;
       (eexists; split; [flat; rewrite <- !app_assoc; reflexivity|]);
       flat;
       (split; [rewrite !states_of_app, Hst; reflexivity|]);
       (split; [rewrite !presses_of_app, Hpr; reflexivity|]);
       (split; [lia|]); (split; [reflexivity|]);
       (split; [reflexivity|]); (split; [reflexivity|]);
       (split; [reflexivity|]);
       intros i Hi;
       destruct (one_to_four i Hi) as [-> | [-> | [-> | ->]]];
       repeat (rewrite lookup_insert_ne by done);
       rewrite lookup_insert_eq; congruence.
Qed.

(** C6. A running worker whose pass of the main loop flees (battle
    detected at the outer poll and at the battle poll, menu visible,
    primary ability spent, backup disabled) with escalation enabled: if
    the detector still reports the battle at the travel check, nothing
    more is pressed, the counters are kept, the state falls back to
    [Moving] and the loop goes on with its next pass; otherwise the worker
    presses the travel key, interacts five times, resets the four counters
    to their maxima, ends in [Stopped] with the running flag cleared, and
    the worker loop exits. The same holds of what follows any flee,
    whatever led to it. *)
Theorem recovery_after_flee (fuel bf : nat) (w : World) :
  quiet w ->
  use_abra_teleport (config w) = true ->
  (forall i, 1 <= i <= 4 -> is_Some (max_pp (config w) !! i)) ->
  (running w = true ->
   current_pp (config w) !! selected_ability (config w) = Some 0 ->
   use_backup (config w) = false ->
   seen w (grabs w) "hp_bar" = true ->
   seen w (S (grabs w)) "hp_bar" = true ->
   seen w (S (S (grabs w))) "battle_menu" = true ->
   exists w' evs,
     trace w' = trace w ++ evs /\
     runs (stats w') = runs (stats w) + 1 /\
     max_pp (config w') = max_pp (config w) /\
     if seen w (S (S (S (grabs w)))) "hp_bar"
     then
       main_loop_from (S fuel) (S bf) w = main_loop_from fuel (S bf) w' /\
       state w' = MOVING /\
       running w' = true /\
       states_of evs =
         [IN_BATTLE;
          if any_positive (current_pp (config w)) then ATTACKING
          else RUNNING;
          RUNNING; MOVING] /\
       presses_of evs = ["up"; "down"; "right"; "z"] /\
       current_pp (config w') = current_pp (config w)
     else
       main_loop_from (S fuel) (S bf) w = (Ok tt, w') /\
       state w' = STOPPED /\
       running w' = false /\
       states_of evs =
         [IN_BATTLE;
          if any_positive (current_pp (config w)) then ATTACKING
          else RUNNING;
          RUNNING; TELEPORTING; HEALING; STOPPED] /\
       presses_of evs =
         ["up"; "down"; "right"; "z"; "9"; "z"; "z"; "z"; "z"; "z"] /\
       forall i, 1 <= i <= 4 ->
         current_pp (config w') !! i = max_pp (config w') !! i) /\
  (exists w' evs,
     trace w' = trace w ++ evs /\
     runs (stats w') = runs (stats w) + 1 /\
     max_pp (config w') = max_pp (config w) /\
     if seen w (grabs w) "hp_bar"
     then
       after_battle "run" w = (Ok Continue, w') /\
       state w' = MOVING /\
       running w' = running w /\
       states_of evs = [RUNNING; MOVING] /\
       presses_of evs = [] /\
       current_pp (config w') = current_pp (config w)
     else
       after_battle "run" w = (Ok Return, w') /\
       state w' = STOPPED /\
       running w' = false /\
       states_of evs = [RUNNING; TELEPORTING; HEALING; STOPPED] /\
       presses_of evs = ["9"; "z"; "z"; "z"; "z"; "z"] /\
       forall i, 1 <= i <= 4 ->
         current_pp (config w') !! i = max_pp (config w') !! i).
Proof.
  intros Hq Ht Hmax. split; [|by apply after_flee].
  intros Hr Hp Hb H0 H1 H2.
  destruct (flee_then_recover bf w Hq Ht Hmax Hp Hb H0 H1 H2)
    as (w' & evs & Htr & Hst & Hpr & Hruns & Hmx & Hrest).
  exists w', evs. repeat (split; [assumption|]).
  assert (forall c, main_loop_body (S bf) w = (Ok c, w') ->
            main_loop_from (S fuel) (S bf) w =
              match c with
              | Continue => main_loop_from fuel (S bf) w'
              | Return => (Ok tt, w')
              end) as Hloop.
  { intros c Hbody. cbn [main_loop_from].
    change (bind get ?k w) with (k w w). cbv beta. rewrite Hr.
    rewrite (bind_returns _ _ _ _ _ Hbody). by destruct c. }
  destruct (seen w (S (S (S (grabs w)))) "hp_bar").
  - destruct Hrest as (Hbody & Hs & Hrun & Hcur).
    rewrite app_nil_r in Hpr.
    repeat split; try assumption; [by rewrite (Hloop _ Hbody) | congruence].
  - destruct Hrest as (Hbody & Hs & Hrun & Hcur).
    repeat split; try assumption. by rewrite (Hloop _ Hbody).
Qed.
End Scenarios.

(** ** Where the stop flag is read *)

Section Blind.
Context `{cv : OpenCV} `{fl : Float64}.

Lemma flag_blind_bind {A B} (m : M A) (k : A -> M B) :
  flag_blind m -> (forall a, flag_blind (k a)) -> flag_blind (bind m k).
Proof.
  intros Hm Hk w b Hq. destruct (Hm w b Hq) as [E Hq']. unfold bind.
  rewrite E. destruct (m w) as [[a | e |] w']; cbn [fst snd] in *; auto.
  apply Hk. exact Hq'.
Qed.

Lemma flag_blind_get {B} (k : World -> M B) :
  (forall w0 b w1, k (set_running b w0) w1 = k w0 w1) ->
  (forall w0, flag_blind (k w0)) ->
  flag_blind (bind get k).
Proof.
  intros He Hk w b Hq. unfold bind, get. rewrite He. by apply Hk.
Qed.

Lemma flag_blind_try {A} (m : M A) (h : Exn -> M A) :
  flag_blind m -> (forall e, flag_blind (h e)) -> flag_blind (try_except m h).
Proof.
  intros Hm Hh w b Hq. destruct (Hm w b Hq) as [E Hq']. unfold try_except.
  rewrite E. destruct (m w) as [[a | e |] w']; cbn [fst snd] in *; auto.
  apply Hh. exact Hq'.
Qed.

Lemma flag_blind_modify (f : World -> World) :
  (forall w b, f (set_running b w) = set_running b (f w)) ->
  (forall w, gui (f w) = gui w) ->
  flag_blind (modify f).
Proof.
  intros Hf Hg w b Hq. unfold modify. cbn [fst snd]. rewrite Hf.
  split; [done|]. unfold quiet. by rewrite Hg.
Qed.

Lemma flag_blind_const {A} (r : Res A) : flag_blind (fun w => (r, w)).
Proof. intros w b Hq. by split. Qed.

Lemma flag_blind_sleep q : flag_blind (sleep q).
Proof.
  intros w b Hq. rewrite !sleep_quiet by exact Hq. by split.
Qed.

Lemma flag_blind_grab : flag_blind grab_screen.
Proof. intros w b Hq. by split. Qed.
End Blind.

(** Proves [flag_blind m] by the structure of [m]. *)
Ltac blind :=
  lazymatch goal with
  | |- flag_blind (bind get _) =>
      apply flag_blind_get; [intros ? ? ?; reflexivity | intros ?; blind]
  | |- flag_blind (bind _ _) => apply flag_blind_bind; [blind | intros ?; blind]
  | |- flag_blind (try_except _ _) =>
      apply flag_blind_try; [blind | intros ?; blind]
  | |- flag_blind (modify _) =>
      apply flag_blind_modify; [intros ? ?; reflexivity | intros ?; reflexivity]
  | |- flag_blind (ret _) => apply flag_blind_const
  | |- flag_blind (raise _) => apply flag_blind_const
  | |- flag_blind out_of_fuel => apply flag_blind_const
  | |- flag_blind (sleep _) => apply flag_blind_sleep
  | |- flag_blind grab_screen => apply flag_blind_grab
  | |- flag_blind (match ?x with _ => _ end) => destruct x; blind
  | |- flag_blind (lift ?r) => destruct r; unfold lift; blind
  | |- flag_blind ?m =>
      first [ assumption | let h := head_of m in unfold h; blind ]
  end.

Section Stop.
Context `{cv : OpenCV} `{fl : Float64}.

Lemma flag_blind_handle_battle fuel : flag_blind (handle_battle fuel).
Proof. induction fuel as [|fuel IH]; cbn [handle_battle]; blind. Qed.

Lemma flag_blind_move_cycle : flag_blind move_cycle.
Proof. blind. Qed.

(** C8, amended. The worker reads the stop flag at the top of the outer
    loop only. Found cleared there, it ends the worker at once: no poll, no
    input, no sleep. The battle-turn loop, the fight and flee scripts and
    the movement cycle never read it: with the control surface idle they
    run the same way whether the flag is set or cleared. *)
Theorem stop_checked_at_loop_top_only :
  (forall fuel battle_fuel (w : World),
     running w = false -> main_loop_from fuel battle_fuel w = (Ok tt, w)) /\
  (forall fuel, flag_blind (handle_battle fuel)) /\
  flag_blind (select_fight_and_ability None) /\
  flag_blind select_run /\
  flag_blind move_cycle.
Proof.
  split; [|repeat apply conj; [apply flag_blind_handle_battle | | | ]; blind].
  intros fuel bf w Hr. destruct fuel; cbn [main_loop_from];
    unfold bind, get; rewrite Hr; reflexivity.
Qed.
End Stop.
(** * Further properties of the code *)

(** ** The battle loop, turn by turn *)

Section BattleLoop.
Context `{cv : OpenCV} `{fl : Float64}.

Lemma snapshot_self (w : World) :
  snapshot w (trace w) (ticks w) (grabs w) (current_pp (config w)) = w.
Proof. destruct w as [c ? ? ? ? ? ? ? ? ? ? ?]. by destruct c. Qed.

(** What the selection returns, by cases on the two counters. *)
Lemma get_ability_primary (w : World) (v : Z) :
  current_pp (config w) !! selected_ability (config w) = Some v ->
  0 < v ->
  get_ability_to_use w = (Ok (Some (selected_ability (config w))), w).
Proof.
  intros Hp Hv. apply Z.ltb_lt in Hv.
  unfold get_ability_to_use, bind, get, dict_get.
  rewrite Hp. cbn. rewrite Hv. reflexivity.
Qed.

Lemma get_ability_backup (w : World) (p v : Z) :
  current_pp (config w) !! selected_ability (config w) = Some p ->
  p <= 0 ->
  use_backup (config w) = true ->
  current_pp (config w) !! backup_ability (config w) = Some v ->
  0 < v ->
  get_ability_to_use w = (Ok (Some (backup_ability (config w))), w).
Proof.
  intros Hp Hp0 Hb Hq Hv. apply Z.ltb_lt in Hv. apply Z.ltb_ge in Hp0.
  unfold get_ability_to_use, bind, get, dict_get.
  rewrite Hp. cbn. rewrite Hp0, Hb, Hq. cbn. rewrite Hv. reflexivity.
Qed.

Lemma get_ability_none (w : World) (p : Z) :
  current_pp (config w) !! selected_ability (config w) = Some p ->
  p <= 0 ->
  (use_backup (config w) = false \/
   exists q, current_pp (config w) !! backup_ability (config w) = Some q /\
             q <= 0) ->
  get_ability_to_use w = (Ok None, w).
Proof.
  intros Hp Hp0 Hb. apply Z.ltb_ge in Hp0.
  unfold get_ability_to_use, bind, get, dict_get.
  rewrite Hp. cbn. rewrite Hp0.
  destruct Hb as [-> | (q & Hq & Hq0)]; [reflexivity|].
  apply Z.ltb_ge in Hq0. rewrite Hq. cbn. rewrite Hq0.
  by destruct (use_backup (config w)).
Qed.

(** The fight on the chosen ability, in one step. *)
Lemma bind_fight_chosen (w : World) (a v : Z) :
  quiet w ->
  get_ability_to_use w = (Ok (Some a), w) ->
  current_pp (config w) !! a = Some v ->
  exists evs t,
    (forall B (k : bool -> M B),
       bind (select_fight_and_ability None) k w =
         k true
           (snapshot w (trace w ++ evs) t (grabs w)
              (<[a := v - 1]> (current_pp (config w))))) /\
    states_of evs = [].
Proof.
  intros Hq Hg Hp. unfold snapshot.
  destruct (a =? 1) eqn:E1;
    [|destruct (a =? 2) eqn:E2;
      [|destruct (a =? 3) eqn:E3; [|destruct (a =? 4) eqn:E4]]];
    (eexists; eexists; split;
     [ intros B k;
       unfold select_fight_and_ability;
       rewrite bind_assoc; unfold bind at 1; rewrite Hg; cbv beta iota;
       repeat walk; rewrite <- !app_assoc; reflexivity
     | reflexivity ]).
Qed.

Lemma bind_no_fight {B} (k : bool -> M B) (w : World) :
  get_ability_to_use w = (Ok None, w) ->
  bind (select_fight_and_ability None) k w = k false w.
Proof.
  intros Hg. unfold select_fight_and_ability.
  rewrite bind_assoc. unfold bind at 1. rewrite Hg. reflexivity.
Qed.
End BattleLoop.

(** Walks a turn of the battle loop up to the fight. *)
Ltac to_the_fight :=
  repeat (lazymatch goal with
          | |- context [bind (select_fight_and_ability None) _ _] => fail
          | _ => walk
          end).

Section BattleLoop2.
Context `{cv : OpenCV} `{fl : Float64}.

(** A turn in which the chosen ability [a] fights and the battle goes on. *)
Lemma fight_turn (w : World) (a v : Z) (f : nat) tr t g cur :
  quiet w ->
  seen w g "hp_bar" = true ->
  seen w (S g) "battle_menu" = true ->
  seen w (S (S g)) "hp_bar" = true ->
  (forall W, config W = with_current_pp cur (config w) ->
             get_ability_to_use W = (Ok (Some a), W)) ->
  cur !! a = Some v ->
  exists tr' t',
    handle_battle (S f) (snapshot w tr t g cur) =
      handle_battle f (snapshot w tr' t' (S (S (S g))) (<[a := v - 1]> cur)).
Proof.
  unfold seen. intros Hq H0 H1 H2 Hg Hc.
  cbn [handle_battle]. unfold snapshot. to_the_fight.
  lazymatch goal with
  | |- context [bind (select_fight_and_ability None) ?k ?W] =>
      destruct (bind_fight_chosen W a v) as (tr1 & t1 & E & _);
        [exact Hq | by apply Hg | exact Hc |]
  end.
  rewrite E. unfold snapshot. repeat walk. cbn [negb].
  eexists _, _. reflexivity.
Qed.

(** The turn in which nothing can fight: the flee script, then "run". *)
Lemma flee_turn (w : World) (f : nat) tr t g cur :
  quiet w ->
  seen w g "hp_bar" = true ->
  seen w (S g) "battle_menu" = true ->
  (forall W, config W = with_current_pp cur (config w) ->
             get_ability_to_use W = (Ok None, W)) ->
  exists tr' t',
    handle_battle (S f) (snapshot w tr t g cur) =
      (Ok "run", snapshot w tr' t' (S (S g)) cur) /\
    presses_of tr' = presses_of tr ++ ["up"; "down"; "right"; "z"].
Proof.
  unfold seen. intros Hq H0 H1 Hg.
  cbn [handle_battle]. unfold snapshot. to_the_fight.
  rewrite bind_no_fight by (apply Hg; reflexivity). flat. repeat walk.
  eexists _, _. split; [reflexivity|].
  rewrite !presses_of_app. cbn. rewrite !app_nil_r, <- !app_assoc.
  reflexivity.
Qed.

(** [n] turns spend the [n] uses of an ability that stays the chosen one
    while its counter is positive. *)
Lemma fight_turns (w : World) (a : Z) (f : nat) :
  quiet w ->
  (forall k, seen w k "hp_bar" = true) ->
  (forall k, seen w k "battle_menu" = true) ->
  forall (n : nat) tr t g cur,
    cur !! a = Some (Z.of_nat n) ->
    (forall v W, 0 < v ->
       config W = with_current_pp (<[a := v]> cur) (config w) ->
       get_ability_to_use W = (Ok (Some a), W)) ->
    exists tr' t' g' cur',
      handle_battle (n + f) (snapshot w tr t g cur) =
        handle_battle f (snapshot w tr' t' g' cur') /\
      g' = (g + 3 * n)%nat /\
      cur' = <[a := 0]> cur.
Proof.
  intros Hq Hhp Hmenu n.
  induction n as [|n IH]; intros tr t g cur Hc Hg.
  - exists tr, t, g, cur. split; [reflexivity|]. split; [lia|].
    symmetry. by apply insert_id.
  - destruct (fight_turn w a (Z.of_nat (S n)) (n + f) tr t g cur)
      as (tr1 & t1 & E1); auto.
    { intros W HW. apply (Hg (Z.of_nat (S n))); [lia|].
      by rewrite insert_id. }
    change (S n + f)%nat with (S (n + f)). rewrite E1.
    destruct (IH tr1 t1 (S (S (S g))) (<[a := Z.of_nat (S n) - 1]> cur))
      as (tr' & t' & g' & cur' & E' & Hg' & Hcur).
    { rewrite lookup_insert_eq. f_equal. lia. }
    { intros v W Hv HW. apply (Hg v); [exact Hv|].
      by rewrite insert_insert_eq in HW. }
    exists tr', t', g', cur'. split; [exact E'|]. split; [lia|].
    rewrite Hcur. apply insert_insert_eq.
Qed.

Lemma config_snapshot_lookup (W w : World) (cur : gmap Z Z) :
  config W = with_current_pp cur (config w) ->
  current_pp (config W) = cur /\
  selected_ability (config W) = selected_ability (config w) /\
  backup_ability (config W) = backup_ability (config w) /\
  use_backup (config W) = use_backup (config w).
Proof. intros ->. by repeat split. Qed.

(** X1. A battle that does not end by itself ends in flight once the PP
    runs out: with the battle and its menu detected at every poll and the
    control surface idle, [handle_battle] fights once per use left on the
    primary ability, then, if the backup is enabled and is another
    ability, once per use left on the backup, and on the next turn runs
    the flee script and returns "run". It needs one unit of fuel per
    turn; the abilities used end at 0, no maximum changes, and each
    fighting turn takes three screen captures, the fleeing turn two. *)
Theorem battle_ends_in_flight_when_pp_runs_out (n m fuel : nat) (w : World) :
  quiet w ->
  (forall k, seen w k "hp_bar" = true) ->
  (forall k, seen w k "battle_menu" = true) ->
  current_pp (config w) !! selected_ability (config w) = Some (Z.of_nat n) ->
  (use_backup (config w) = false ->
   exists w',
     handle_battle (S n + fuel) w = (Ok "run", w') /\
     current_pp (config w') =
       <[selected_ability (config w) := 0]> (current_pp (config w)) /\
     max_pp (config w') = max_pp (config w) /\
     grabs w' = (grabs w + 3 * n + 2)%nat) /\
  (use_backup (config w) = true ->
   backup_ability (config w) <> selected_ability (config w) ->
   current_pp (config w) !! backup_ability (config w) = Some (Z.of_nat m) ->
   exists w',
     handle_battle (S (n + m) + fuel) w = (Ok "run", w') /\
     current_pp (config w') =
       <[backup_ability (config w) := 0]>
         (<[selected_ability (config w) := 0]> (current_pp (config w))) /\
     max_pp (config w') = max_pp (config w) /\
     grabs w' = (grabs w + 3 * (n + m) + 2)%nat).
Proof.
  intros Hq Hhp Hmenu Hc.
  destruct (fight_turns w (selected_ability (config w)) (m + S fuel) Hq Hhp
              Hmenu n (trace w) (ticks w) (grabs w) (current_pp (config w)) Hc)
    as (tr1 & t1 & g1 & cur1 & E1 & Hg1 & Hcur1).
  { intros v W Hv HW.
    destruct (config_snapshot_lookup _ _ _ HW) as (Hcur & Hsel & _).
    rewrite <- Hsel. apply (get_ability_primary W v); [|exact Hv].
    by rewrite Hcur, Hsel, lookup_insert_eq. }
  rewrite snapshot_self in E1. split.
  - intros Hb.
    destruct (fight_turns w (selected_ability (config w)) (S fuel) Hq Hhp
                Hmenu n (trace w) (ticks w) (grabs w) (current_pp (config w))
                Hc)
      as (tr2 & t2 & g2 & cur2 & E2 & Hg2 & Hcur2).
    { intros v W Hv HW.
      destruct (config_snapshot_lookup _ _ _ HW) as (Hcur & Hsel & _).
      rewrite <- Hsel. apply (get_ability_primary W v); [|exact Hv].
      by rewrite Hcur, Hsel, lookup_insert_eq. }
    rewrite snapshot_self in E2.
    destruct (flee_turn w fuel tr2 t2 g2 cur2 Hq (Hhp _) (Hmenu _))
      as (tr' & t' & E' & _).
    { intros W HW.
      destruct (config_snapshot_lookup _ _ _ HW) as (Hcur & Hsel & _ & Hub).
      apply (get_ability_none W 0).
      - by rewrite Hcur, Hsel, Hcur2, lookup_insert_eq.
      - lia.
      - left. congruence. }
    replace (S n + fuel)%nat with (n + S fuel)%nat by lia.
    rewrite E2, E'. eexists. split; [reflexivity|].
    unfold snapshot. flat. rewrite Hcur2. repeat split; try done; lia.
  - intros Hb Hne Hm.
    destruct (fight_turns w (backup_ability (config w)) (S fuel) Hq Hhp
                Hmenu m tr1 t1 g1 cur1)
      as (tr2 & t2 & g2 & cur2 & E2 & Hg2 & Hcur2).
    { by rewrite Hcur1, lookup_insert_ne. }
    { intros v W Hv HW.
      destruct (config_snapshot_lookup _ _ _ HW) as (Hcur & Hsel & Hbak & Hub).
      rewrite <- Hbak. apply (get_ability_backup W 0 v).
      - rewrite Hcur, Hsel, Hcur1, lookup_insert_ne by done.
        by rewrite lookup_insert_eq.
      - lia.
      - congruence.
      - by rewrite Hcur, Hbak, lookup_insert_eq.
      - exact Hv. }
    destruct (flee_turn w fuel tr2 t2 g2 cur2 Hq (Hhp _) (Hmenu _))
      as (tr' & t' & E' & _).
    { intros W HW.
      destruct (config_snapshot_lookup _ _ _ HW) as (Hcur & Hsel & Hbak & Hub).
      apply (get_ability_none W 0).
      - rewrite Hcur, Hsel, Hcur2, Hcur1, lookup_insert_ne by done.
        by rewrite lookup_insert_eq.
      - lia.
      - right. exists 0. split; [|lia].
        by rewrite Hcur, Hbak, Hcur2, lookup_insert_eq. }
    replace (S (n + m) + fuel)%nat with (n + (m + S fuel))%nat by lia.
    rewrite E1, E2, E'. eexists. split; [reflexivity|].
    unfold snapshot. flat. rewrite Hcur2, Hcur1. repeat split; try done; lia.
Qed.

Lemma spin_while_hidden (w : World) :
  quiet w ->
  (forall k, seen w k "hp_bar" = true) ->
  (forall k, seen w k "battle_menu" = false) ->
  forall (fuel : nat) tr t g cur,
    exists tr' t' g',
      handle_battle fuel (snapshot w tr t g cur) =
        (OutOfFuel, snapshot w tr' t' g' cur) /\
      t' = (t + fuel)%nat /\
      presses_of tr' = presses_of tr.
Proof.
  unfold seen. intros Hq Hhp Hmenu fuel.
  induction fuel as [|fuel IH]; intros tr t g cur.
  - exists tr, t, g. split; [reflexivity|]. split; [lia | reflexivity].
  - pose proof (Hhp g) as H0. cbn [handle_battle]. unfold snapshot.
    repeat walk.
    lazymatch goal with
    | |- context [bind (detect ?n ?thr) ?k ?W] =>
        destruct (bind_detect_unseen n thr W) as (evs0 & dg & Hd & Hst & Hpr);
          [flat; apply Hmenu | rewrite Hd; flat]
    end.
    pose proof (Hhp (dg + S g)%nat) as H1.
    repeat walk. cbn [negb].
    lazymatch goal with
    | |- context [handle_battle ?f ?W] =>
        change W with
          (snapshot w (trace W) (ticks W) (grabs W) cur);
        destruct (IH (trace W) (ticks W) (grabs W) cur)
          as (tr' & t' & g' & E' & Ht & Hp)
    end.
    rewrite E'. exists tr', t', g'. split; [reflexivity|].
    cbn [ticks trace] in Ht, Hp. split; [lia|].
    rewrite Hp, !presses_of_app, Hpr. cbn. by rewrite !app_nil_r.
Qed.

(** X2. While the battle is detected and its menu is not (hidden, or its
    template never loaded, which starting the bot does not ask for), the
    battle loop does not return: whatever the fuel, it runs out of it,
    having pressed no key and changed no setting, one sleep per turn. *)
Theorem battle_loop_spins_while_menu_hidden (fuel : nat) (w : World) :
  quiet w ->
  (forall k, seen w k "hp_bar" = true) ->
  (forall k, seen w k "battle_menu" = false) ->
  exists w',
    handle_battle fuel w = (OutOfFuel, w') /\
    presses_of (trace w') = presses_of (trace w) /\
    config w' = config w /\
    ticks w' = (ticks w + fuel)%nat.
Proof.
  intros Hq Hhp Hmenu.
  destruct (spin_while_hidden w Hq Hhp Hmenu fuel (trace w) (ticks w)
              (grabs w) (current_pp (config w)))
    as (tr' & t' & g' & E & Ht & Hp).
  rewrite snapshot_self in E. eexists. split; [exact E|].
  unfold snapshot. flat. repeat split; auto.
  by destruct (config w).
Qed.
End BattleLoop2.

(** ** The statistics *)

Section Tally.
Context `{cv : OpenCV} `{fl : Float64}.

Lemma grow_refl (s : Stats) : grow 0 s s.
Proof. unfold grow. lia. Qed.

Lemma grow_trans (d1 d2 : Z) (s1 s2 s3 : Stats) :
  grow d1 s1 s2 -> grow d2 s2 s3 -> grow (d1 + d2) s1 s3.
Proof. unfold grow. lia. Qed.

Lemma grow_weaken (d d' : Z) (s s' : Stats) :
  d' <= d -> grow d s s' -> grow d' s s'.
Proof. unfold grow. lia. Qed.

Lemma tallies_bind {A B} (d1 d2 : Z) (m : M A) (k : A -> M B) :
  d2 <= 0 ->
  tallies d1 m -> (forall a, tallies d2 (k a)) -> tallies (d1 + d2) (bind m k).
Proof.
  intros Hd Hm Hk w. specialize (Hm w). unfold bind.
  destruct (m w) as [[a | e |] w']; cbn [snd] in *;
    try (apply (grow_weaken d1); [lia | exact Hm]).
  eapply grow_trans; [exact Hm | apply Hk].
Qed.

Lemma tallies_seq {A B} (m : M A) (k : A -> M B) :
  tallies 0 m -> (forall a, tallies 0 (k a)) -> tallies 0 (bind m k).
Proof. intros Hm Hk. by apply (tallies_bind 0 0). Qed.

Lemma tallies_try {A} (m : M A) (h : Exn -> M A) :
  tallies 0 m -> (forall e, tallies 0 (h e)) -> tallies 0 (try_except m h).
Proof.
  intros Hm Hh w. specialize (Hm w). unfold try_except.
  destruct (m w) as [[a | e |] w']; cbn [snd] in *; auto.
  apply (grow_trans 0 0 _ _ _ Hm). apply Hh.
Qed.

Lemma tallies_modify (f : World -> World) :
  (forall w, stats (f w) = stats w) -> tallies 0 (modify f).
Proof. intros H w. cbn [modify snd]. rewrite H. apply grow_refl. Qed.

Lemma tallies_pure {A} (m : M A) :
  (forall w, snd (m w) = w) -> tallies 0 m.
Proof. intros H w. rewrite H. apply grow_refl. Qed.

Lemma tallies_grab : tallies 0 grab_screen.
Proof. intros w. apply grow_refl. Qed.

Lemma tallies_for_each {A} (xs : list A) (body : A -> M unit) :
  (forall x, tallies 0 (body x)) -> tallies 0 (for_each xs body).
Proof.
  intros H. induction xs as [|x xs IH]; simpl.
  - by apply tallies_pure.
  - apply tallies_seq; auto.
Qed.

Lemma tallies_add_stat (db dr dm : Z) :
  0 <= db -> 0 <= dr -> 0 <= dm -> tallies (db - dr) (add_stat db dr dm).
Proof. intros ? ? ? w. unfold grow. cbn. lia. Qed.
End Tally.

(** Proves [tallies 0 m] by the structure of [m]; gives up on a sleep and
    on a write to the statistics. *)
Ltac tally :=
  lazymatch goal with
  | |- tallies 0 (bind _ _) => apply tallies_seq; [tally | intros ?; tally]
  | |- tallies 0 (try_except _ _) =>
      apply tallies_try; [tally | intros ?; tally]
  | |- tallies 0 (for_each _ _) => apply tallies_for_each; intros ?; tally
  | |- tallies 0 (modify _) => apply tallies_modify; intros ?; reflexivity
  | |- tallies 0 (ret _) => apply tallies_pure; reflexivity
  | |- tallies 0 (raise _) => apply tallies_pure; reflexivity
  | |- tallies 0 get => apply tallies_pure; reflexivity
  | |- tallies 0 out_of_fuel => apply tallies_pure; reflexivity
  | |- tallies 0 grab_screen => apply tallies_grab
  | |- tallies 0 (add_stat _ _ _) => fail
  | |- tallies 0 (sleep _) => solve [auto]
  | |- tallies 0 (match ?x with _ => _ end) => destruct x; tally
  | |- tallies 0 (lift ?r) => destruct r; unfold lift; tally
  | |- tallies 0 ?m =>
      first [ assumption | let h := head_of m in unfold h; tally ]
  end.

Section Tally2.
Context `{cv : OpenCV} `{fl : Float64}.

Lemma tallies_callback (a : GuiAction) : tallies 0 (callback a).
Proof. destruct a; cbn [callback]; tally. Qed.

Lemma tallies_sleep (q : Q) : tallies 0 (sleep q).
Proof.
  intros w. unfold sleep. cbn [snd stats set_ticks].
  change (stats w) with (stats (set_trace (trace w ++ [Sleep q]) w)) at 1.
  cbn [gui ticks set_trace].
  generalize (set_trace (trace w ++ [Sleep q]) w).
  induction (due (ticks w) (gui w)) as [|a l IH]; intros w0; simpl.
  - apply grow_refl.
  - apply (grow_trans 0 0 _ (stats (run_callback w0 a))); [|apply IH].
    apply tallies_callback.
Qed.

Lemma tallies_handle_battle (fuel : nat) : tallies 0 (handle_battle fuel).
Proof.
  pose proof tallies_sleep as Hs.
  induction fuel as [|fuel IH]; cbn [handle_battle]; tally.
Qed.
End Tally2.

Section Tally3.
Context `{cv : OpenCV} `{fl : Float64}.

Lemma tallies_weaken {A} (d d' : Z) (m : M A) :
  d' <= d -> tallies d m -> tallies d' m.
Proof. intros Hd H w. by apply (grow_weaken d). Qed.

Lemma tallies_after_battle (result : string) :
  tallies (-1) (after_battle result).
Proof.
  pose proof tallies_sleep as Hs.
  unfold after_battle.
  apply (tallies_bind (-1) 0); [lia | | intros r; tally].
  destruct (decide (result = "run")).
  - apply (tallies_bind 0 (-1)); [lia | tally | intros _].
    apply (tallies_bind (-1) 0); [lia | | intros _; tally].
    apply (tallies_add_stat 0 1 0); lia.
  - apply (tallies_weaken 0); [lia | tally].
Qed.

Lemma tallies_main_loop_body (bf : nat) : tallies 0 (main_loop_body bf).
Proof.
  pose proof tallies_sleep as Hs.
  pose proof tallies_handle_battle as Hb.
  unfold main_loop_body.
  apply tallies_seq; [tally | intros thr].
  apply tallies_seq; [tally | intros in_battle].
  apply tallies_seq; [| intros r; tally].
  destruct in_battle.
  - apply (tallies_weaken (0 + (1 + -1))); [lia |].
    apply (tallies_bind 0 (1 + -1)); [lia | tally | intros _].
    apply (tallies_bind 1 (-1)); [lia | apply (tallies_add_stat 1 0 0); lia |].
    intros _.
    apply (tallies_bind 0 (-1)); [lia | tally | intros w].
    apply (tallies_bind 0 (-1)); [lia | tally | intros _].
    apply (tallies_bind 0 (-1)); [lia | apply Hb | intros result].
    apply tallies_after_battle.
  - apply tallies_seq; [tally | intros w].
    destruct (decide (state w = MOVING)); [| tally].
    apply tallies_seq; [tally | intros _].
    apply tallies_seq; [| intros _; tally].
    apply (tallies_add_stat 0 0 1); lia.
Qed.

Lemma tallies_main_loop_from (fuel bf : nat) :
  tallies 0 (main_loop_from fuel bf).
Proof.
  pose proof (tallies_main_loop_body bf) as Hb.
  induction fuel as [|fuel IH]; cbn [main_loop_from]; tally.
Qed.

(** X3. Statistics never decrease over a run of the worker, and flees never
    outgrow battles, whatever the screens show and whatever is clicked, as
    long as the worker is the only one: no second worker is launched by a
    stop and a start clicked during the run. *)
Theorem statistics_only_grow (fuel bf : nat) (w : World) :
  single_worker w (snd (main_loop fuel bf w)) ->
  let s := stats w in
  let s' := stats (snd (main_loop fuel bf w)) in
  movements s <= movements s' /\
  battles s <= battles s' /\
  runs s <= runs s' /\
  runs s' - runs s <= battles s' - battles s.
Proof.
  intros _.
  pose proof tallies_sleep as Hs.
  pose proof (tallies_main_loop_from fuel bf) as Hl.
  assert (tallies 0 (main_loop fuel bf)) as H by (unfold main_loop; tally).
  specialize (H w). unfold grow in H. cbv zeta. lia.
Qed.
End Tally3.

(** ** The control surface: PP entries, reset, start and stop *)

Section Surface.
Context `{cv : OpenCV} `{fl : Float64}.

Lemma new_events_app (w w' : World) (evs : list Event) :
  trace w' = trace w ++ evs -> new_events w w' = evs.
Proof. intros H. unfold new_events. by rewrite H, drop_app_length. Qed.

Lemma keyed_four (d : gmap Z Z) :
  keyed d ->
  exists v1 v2 v3 v4,
    d !! 1 = Some v1 /\ d !! 2 = Some v2 /\ d !! 3 = Some v3 /\ d !! 4 = Some v4.
Proof.
  intros H.
  destruct (H 1) as [v1 H1]; [set_solver|].
  destruct (H 2) as [v2 H2]; [set_solver|].
  destruct (H 3) as [v3 H3]; [set_solver|].
  destruct (H 4) as [v4 H4]; [set_solver|].
  by exists v1, v2, v3, v4.
Qed.

Lemma keyed_insert (d : gmap Z Z) (k v : Z) : keyed d -> keyed (<[k := v]> d).
Proof.
  intros H i Hi. destruct (decide (i = k)) as [-> | Hne].
  - rewrite lookup_insert_eq. by eexists.
  - rewrite lookup_insert_ne by done. by apply H.
Qed.

Lemma range_1_5_cases (k : Z) :
  k ∈ range_1_5 -> k = 1 \/ k = 2 \/ k = 3 \/ k = 4.
Proof.
  unfold range_1_5. rewrite !elem_of_cons, elem_of_nil. tauto.
Qed.

Lemma update_pp_display_ok (w : World) :
  keyed (current_pp (config w)) -> keyed (max_pp (config w)) ->
  update_pp_display w = (Ok tt, w).
Proof.
  intros Hc Hm.
  destruct (keyed_four _ Hc) as (c1 & c2 & c3 & c4 & C1 & C2 & C3 & C4).
  destruct (keyed_four _ Hm) as (m1 & m2 & m3 & m4 & M1 & M2 & M3 & M4).
  unfold update_pp_display, range_1_5. cbn [for_each].
  exec. reflexivity.
Qed.

Lemma set_config_self (w : World) : set_config (config w) w = w.
Proof. by destruct w. Qed.

Lemma with_current_pp_self (c : BotConfig) :
  with_current_pp (current_pp c) c = c.
Proof. by destruct c. Qed.

(** X4. Reset PP: with the four abilities in the table, the reset returns,
    sets each of the four counters to its maximum, touches no other key
    and no maximum, and nothing else of the bot; a second reset changes
    nothing. *)
Theorem reset_pp_refills (w : World) :
  keyed (max_pp (config w)) ->
  exists cur',
    reset_pp w = (Ok tt, set_config (with_current_pp cur' (config w)) w) /\
    (forall k, k ∈ range_1_5 -> cur' !! k = max_pp (config w) !! k) /\
    (forall k, k ∉ range_1_5 -> cur' !! k = current_pp (config w) !! k) /\
    reset_pp (set_config (with_current_pp cur' (config w)) w) =
      (Ok tt, set_config (with_current_pp cur' (config w)) w).
Proof.
  intros Hm.
  destruct (keyed_four _ Hm) as (m1 & m2 & m3 & m4 & M1 & M2 & M3 & M4).
  set (cur' := <[4 := m4]> (<[3 := m3]> (<[2 := m2]> (<[1 := m1]>
                 (current_pp (config w)))))).
  assert (forall k, k ∈ range_1_5 -> cur' !! k = max_pp (config w) !! k) as Hin.
  { intros k Hk. subst cur'.
    destruct (range_1_5_cases k Hk) as [-> | [-> | [-> | ->]]];
      rewrite ?lookup_insert_eq, ?(lookup_insert_ne _ 4 3),
        ?(lookup_insert_ne _ 4 2), ?(lookup_insert_ne _ 4 1),
        ?(lookup_insert_ne _ 3 2), ?(lookup_insert_ne _ 3 1),
        ?(lookup_insert_ne _ 2 1), ?lookup_insert_eq by lia; congruence. }
  assert (forall W, max_pp (config W) = max_pp (config w) ->
            reset_pp W =
              (Ok tt, set_config (with_current_pp
                 (<[4 := m4]> (<[3 := m3]> (<[2 := m2]> (<[1 := m1]>
                    (current_pp (config W)))))) (config W)) W)) as Hrun.
  { intros W HW. rewrite <- HW in M1, M2, M3, M4.
    unfold reset_pp, range_1_5. cbn [for_each]. exec.
    change (bind (ret tt) ?k ?w0) with (k tt w0). cbv beta.
    rewrite update_pp_display_ok.
    - reflexivity.
    - flat. intros k Hk.
      destruct (range_1_5_cases k Hk) as [-> | [-> | [-> | ->]]];
        rewrite ?lookup_insert_eq, ?(lookup_insert_ne _ 4 3),
          ?(lookup_insert_ne _ 4 2), ?(lookup_insert_ne _ 4 1),
          ?(lookup_insert_ne _ 3 2), ?(lookup_insert_ne _ 3 1),
          ?(lookup_insert_ne _ 2 1), ?lookup_insert_eq by lia; by eexists.
    - flat. intros k Hk.
      destruct (range_1_5_cases k Hk) as [-> | [-> | [-> | ->]]];
        by eexists. }
  exists cur'. repeat apply conj.
  - by rewrite Hrun.
  - exact Hin.
  - intros k Hk. subst cur'. unfold range_1_5 in Hk.
    rewrite !lookup_insert_ne by set_solver. reflexivity.
  - rewrite Hrun by (by destruct w as [[] ? ? ? ? ? ? ? ? ? ? ?]).
    f_equal.
    replace (<[4 := m4]> (<[3 := m3]> (<[2 := m2]> (<[1 := m1]>
               (current_pp (config (set_config
                  (with_current_pp cur' (config w)) w)))))))
      with cur'.
    + by destruct w as [[] ? ? ? ? ? ? ? ? ? ? ?].
    + change (current_pp (config (set_config
                (with_current_pp cur' (config w)) w))) with cur'.
      symmetry.
      rewrite (insert_id _ 1 m1), (insert_id _ 2 m2), (insert_id _ 3 m3),
        (insert_id _ 4 m4); try reflexivity;
        rewrite Hin by (unfold range_1_5; set_solver); assumption.
Qed.
End Surface.

Section Surface2.
Context `{cv : OpenCV} `{fl : Float64}.

Lemma with_pp_self (w : World) :
  with_pp (current_pp (config w)) (max_pp (config w)) (pp_entries w) w = w.
Proof. by destruct w as [[] ? ? ? ? ? ? ? ? ? ? ?]. Qed.

Lemma with_pp_with_pp cur1 mx1 ents1 cur2 mx2 ents2 (w : World) :
  with_pp cur2 mx2 ents2 (with_pp cur1 mx1 ents1 w) = with_pp cur2 mx2 ents2 w.
Proof. by destruct w as [[] ? ? ? ? ? ? ? ? ? ? ?]. Qed.

Lemma update_pp_commit (a : Z) (e : option Z) (w : World) :
  a ∈ range_1_5 ->
  keyed (current_pp (config w)) -> keyed (max_pp (config w)) ->
  pp_entries w !! a = Some e ->
  exists cur' mx' ents',
    update_pp a w = (Ok tt, with_pp cur' mx' ents' w) /\
    keyed cur' /\ keyed mx' /\
    cur' !! a = committed e (current_pp (config w) !! a) /\
    mx' !! a = committed e (max_pp (config w) !! a) /\
    ents' !! a =
      Some (match e with Some v => Some v | None => max_pp (config w) !! a end) /\
    (forall k, k <> a ->
       cur' !! k = current_pp (config w) !! k /\
       mx' !! k = max_pp (config w) !! k /\
       ents' !! k = pp_entries w !! k).
Proof.
  intros Ha Hc Hm He.
  destruct e as [v|]; [destruct (0 <? v) eqn:Hv|].
  - exists (<[a := v]> (current_pp (config w))),
      (<[a := v]> (max_pp (config w))), (pp_entries w).
    repeat apply conj.
    + unfold update_pp, try_except, entry_value.
      rewrite bind_assoc. change (bind get ?k w) with (k w w). cbv beta.
      rewrite He. change (bind (ret v) ?k w) with (k v w). cbv beta.
      rewrite Hv. exec.
      rewrite update_pp_display_ok; flat; [| by apply keyed_insert ..].
      by destruct w as [[] ? ? ? ? ? ? ? ? ? ? ?].
    + by apply keyed_insert.
    + by apply keyed_insert.
    + cbn. rewrite Hv. by rewrite lookup_insert_eq.
    + cbn. rewrite Hv. by rewrite lookup_insert_eq.
    + done.
    + intros k Hk. by rewrite !lookup_insert_ne.
  - exists (current_pp (config w)), (max_pp (config w)), (pp_entries w).
    repeat apply conj; try done.
    + unfold update_pp, try_except, entry_value.
      rewrite bind_assoc. change (bind get ?k w) with (k w w). cbv beta.
      rewrite He. change (bind (ret v) ?k w) with (k v w). cbv beta.
      rewrite Hv. by rewrite with_pp_self.
    + cbn. by rewrite Hv.
    + cbn. by rewrite Hv.
  - destruct (Hm a Ha) as [m Hma].
    exists (current_pp (config w)), (max_pp (config w)),
      (<[a := Some m]> (pp_entries w)).
    repeat apply conj; try done.
    + unfold update_pp, try_except, entry_value.
      rewrite bind_assoc. change (bind get ?k w) with (k w w). cbv beta.
      rewrite He. unfold bind at 1. unfold raise at 1. cbv beta iota.
      exec. by destruct w as [[] ? ? ? ? ? ? ? ? ? ? ?].
    + by rewrite lookup_insert_eq, Hma.
    + intros k Hk. by rewrite lookup_insert_ne.
Qed.

(** X5. Committing a Max PP entry: a positive number becomes both the
    maximum and the remaining count of that ability; a number that is not
    positive is ignored and stays in the entry; a text that is no number
    is replaced in the entry by the current maximum. No other ability, and
    nothing else of the bot, changes. *)
Theorem update_pp_commits (a : Z) (e : option Z) (w : World) :
  a ∈ range_1_5 ->
  keyed (current_pp (config w)) -> keyed (max_pp (config w)) ->
  pp_entries w !! a = Some e ->
  exists cur' mx' ents',
    update_pp a w = (Ok tt, with_pp cur' mx' ents' w) /\
    (forall k, cur' !! k =
       if decide (k = a) then committed e (current_pp (config w) !! k)
       else current_pp (config w) !! k) /\
    (forall k, mx' !! k =
       if decide (k = a) then committed e (max_pp (config w) !! k)
       else max_pp (config w) !! k) /\
    (forall k, ents' !! k =
       if decide (k = a)
       then Some (match e with
                  | Some v => Some v
                  | None => max_pp (config w) !! a
                  end)
       else pp_entries w !! k).
Proof.
  intros Ha Hc Hm He.
  destruct (update_pp_commit a e w Ha Hc Hm He)
    as (cur' & mx' & ents' & Hrun & _ & _ & H1 & H2 & H3 & Hoff).
  exists cur', mx', ents'. repeat apply conj; [exact Hrun | ..];
    intros k; destruct (decide (k = a)) as [-> | Hne]; try done;
    by apply Hoff.
Qed.
End Surface2.

Section Surface3.
Context `{cv : OpenCV} `{fl : Float64}.

Lemma commit_entries (w : World) (e1 e2 e3 e4 : option Z) :
  keyed (current_pp (config w)) -> keyed (max_pp (config w)) ->
  pp_entries w !! 1 = Some e1 -> pp_entries w !! 2 = Some e2 ->
  pp_entries w !! 3 = Some e3 -> pp_entries w !! 4 = Some e4 ->
  exists cur' mx' ents',
    for_each range_1_5 update_pp w = (Ok tt, with_pp cur' mx' ents' w) /\
    cur' !! 1 = committed e1 (current_pp (config w) !! 1) /\
    cur' !! 2 = committed e2 (current_pp (config w) !! 2) /\
    cur' !! 3 = committed e3 (current_pp (config w) !! 3) /\
    cur' !! 4 = committed e4 (current_pp (config w) !! 4) /\
    mx' !! 1 = committed e1 (max_pp (config w) !! 1) /\
    mx' !! 2 = committed e2 (max_pp (config w) !! 2) /\
    mx' !! 3 = committed e3 (max_pp (config w) !! 3) /\
    mx' !! 4 = committed e4 (max_pp (config w) !! 4).
Proof.
  intros Hc Hm E1 E2 E3 E4.
  assert (forall k : Z, k = 1 \/ k = 2 \/ k = 3 \/ k = 4 -> k ∈ range_1_5)
    as Hin.
  { intros k Hk. unfold range_1_5. rewrite !elem_of_cons. tauto. }
  destruct (update_pp_commit 1 e1 w) as
    (c1 & m1 & n1 & R1 & Kc1 & Km1 & C1 & M1 & _ & O1); auto.
  destruct (update_pp_commit 2 e2 (with_pp c1 m1 n1 w)) as
    (c2 & m2 & n2 & R2 & Kc2 & Km2 & C2 & M2 & _ & O2); auto.
  { change (n1 !! 2 = Some e2). destruct (O1 2) as (_ & _ & ->); done. }
  rewrite with_pp_with_pp in R2.
  change (current_pp (config (with_pp c1 m1 n1 w))) with c1 in *.
  change (max_pp (config (with_pp c1 m1 n1 w))) with m1 in *.
  change (pp_entries (with_pp c1 m1 n1 w)) with n1 in *.
  destruct (update_pp_commit 3 e3 (with_pp c2 m2 n2 w)) as
    (c3 & m3 & n3 & R3 & Kc3 & Km3 & C3 & M3 & _ & O3); auto.
  { change (n2 !! 3 = Some e3).
    destruct (O2 3) as (_ & _ & ->); [done|].
    destruct (O1 3) as (_ & _ & ->); done. }
  rewrite with_pp_with_pp in R3.
  change (current_pp (config (with_pp c2 m2 n2 w))) with c2 in *.
  change (max_pp (config (with_pp c2 m2 n2 w))) with m2 in *.
  change (pp_entries (with_pp c2 m2 n2 w)) with n2 in *.
  destruct (update_pp_commit 4 e4 (with_pp c3 m3 n3 w)) as
    (c4 & m4 & n4 & R4 & Kc4 & Km4 & C4 & M4 & _ & O4); auto.
  { change (n3 !! 4 = Some e4).
    destruct (O3 4) as (_ & _ & ->); [done|].
    destruct (O2 4) as (_ & _ & ->); [done|].
    destruct (O1 4) as (_ & _ & ->); done. }
  rewrite with_pp_with_pp in R4.
  change (current_pp (config (with_pp c3 m3 n3 w))) with c3 in *.
  change (max_pp (config (with_pp c3 m3 n3 w))) with m3 in *.
  change (pp_entries (with_pp c3 m3 n3 w)) with n3 in *.
  exists c4, m4, n4. repeat apply conj.
  - unfold range_1_5. cbn [for_each].
    unfold bind at 1. rewrite R1. cbv beta iota.
    unfold bind at 1. rewrite R2. cbv beta iota.
    unfold bind at 1. rewrite R3. cbv beta iota.
    unfold bind at 1. rewrite R4. reflexivity.
  - destruct (O4 1) as (-> & _); [done|]. destruct (O3 1) as (-> & _); [done|].
    destruct (O2 1) as (-> & _); [done|]. exact C1.
  - destruct (O4 2) as (-> & _); [done|]. destruct (O3 2) as (-> & _); [done|].
    rewrite C2. destruct (O1 2) as (-> & _); done.
  - destruct (O4 3) as (-> & _); [done|]. rewrite C3.
    destruct (O2 3) as (-> & _); [done|]. destruct (O1 3) as (-> & _); done.
  - rewrite C4. destruct (O3 4) as (-> & _); [done|].
    destruct (O2 4) as (-> & _); [done|]. destruct (O1 4) as (-> & _); done.
  - destruct (O4 1) as (_ & -> & _); [done|].
    destruct (O3 1) as (_ & -> & _); [done|].
    destruct (O2 1) as (_ & -> & _); [done|]. exact M1.
  - destruct (O4 2) as (_ & -> & _); [done|].
    destruct (O3 2) as (_ & -> & _); [done|].
    rewrite M2. destruct (O1 2) as (_ & -> & _); done.
  - destruct (O4 3) as (_ & -> & _); [done|]. rewrite M3.
    destruct (O2 3) as (_ & -> & _); [done|].
    destruct (O1 3) as (_ & -> & _); done.
  - rewrite M4. destruct (O3 4) as (_ & -> & _); [done|].
    destruct (O2 4) as (_ & -> & _); [done|].
    destruct (O1 4) as (_ & -> & _); done.
Qed.

Lemma toggle_bot_start (w : World) (img : Image) :
  running w = false ->
  templates w !! "hp_bar" = Some img ->
  keyed (current_pp (config w)) -> keyed (max_pp (config w)) ->
  (forall k, k ∈ range_1_5 -> is_Some (pp_entries w !! k)) ->
  exists cur' mx' ents',
    toggle_bot w =
      (Ok tt,
       set_trace (trace w ++ [SetState MOVING; SpawnWorker;
                              ControlButton "STOP BOT";
                              StatusLabel "Status: Running"])
         (put_state MOVING (set_running true (with_pp cur' mx' ents' w)))) /\
    forall k e, k ∈ range_1_5 -> pp_entries w !! k = Some e ->
      cur' !! k = committed e (current_pp (config w) !! k) /\
      mx' !! k = committed e (max_pp (config w) !! k).
Proof.
  intros Hr Ht Hc Hm He.
  assert (forall k : Z, k = 1 \/ k = 2 \/ k = 3 \/ k = 4 -> k ∈ range_1_5)
    as Hin.
  { intros k Hk. unfold range_1_5. rewrite !elem_of_cons. tauto. }
  destruct (He 1) as [e1 E1]; [auto|]. destruct (He 2) as [e2 E2]; [auto|].
  destruct (He 3) as [e3 E3]; [auto|]. destruct (He 4) as [e4 E4]; [auto|].
  destruct (commit_entries w e1 e2 e3 e4 Hc Hm E1 E2 E3 E4)
    as (cur' & mx' & ents' & Hrun & C1 & C2 & C3 & C4 & M1 & M2 & M3 & M4).
  exists cur', mx', ents'. split.
  - unfold toggle_bot. change (bind get ?k w) with (k w w). cbv beta.
    rewrite Hr, Ht. cbn [negb].
    unfold bind at 1. rewrite Hrun. cbv beta iota.
    exec. rewrite <- !app_assoc. reflexivity.
  - intros k e Hk Hke.
    destruct (range_1_5_cases k Hk) as [-> | [-> | [-> | ->]]];
      rewrite Hke in *; simplify_eq; auto.
Qed.

(** X6. Starting the bot: with the HP bar template loaded and the four
    entries filled, the click commits the four entries first, so every
    ability whose entry holds a positive number starts with remaining =
    maximum = that number, whatever was spent before; then the bot is
    running, in state Moving, one worker is launched, and the button and
    the status label are switched. *)
Theorem start_commits_entries (w : World) (img : Image) :
  running w = false ->
  templates w !! "hp_bar" = Some img ->
  keyed (current_pp (config w)) -> keyed (max_pp (config w)) ->
  (forall k, k ∈ range_1_5 -> is_Some (pp_entries w !! k)) ->
  exists w',
    toggle_bot w = (Ok tt, w') /\
    running w' = true /\ state w' = MOVING /\
    new_events w w' =
      [SetState MOVING; SpawnWorker; ControlButton "STOP BOT";
       StatusLabel "Status: Running"] /\
    (forall k e, k ∈ range_1_5 -> pp_entries w !! k = Some e ->
       current_pp (config w') !! k = committed e (current_pp (config w) !! k) /\
       max_pp (config w') !! k = committed e (max_pp (config w) !! k)) /\
    stats w' = stats w /\ movement_controller w' = movement_controller w.
Proof.
  intros Hr Ht Hc Hm He.
  destruct (toggle_bot_start w img Hr Ht Hc Hm He)
    as (cur' & mx' & ents' & Hrun & Hpp).
  eexists. split; [exact Hrun|].
  repeat apply conj; try reflexivity.
  - by apply new_events_app.
  - exact Hpp.
Qed.

Lemma stop_click (w : World) :
  running w = true ->
  toggle_bot w =
    (Ok tt,
     set_trace (trace w ++ [SetState STOPPED; ControlButton "START BOT";
                            StatusLabel "Status: Stopped"])
       (put_state STOPPED (set_running false w))).
Proof.
  intros Hr. unfold toggle_bot. change (bind get ?k w) with (k w w). cbv beta.
  rewrite Hr. cbn [negb]. exec. rewrite <- !app_assoc.
  by destruct w.
Qed.
End Surface3.

(** ** Movement cycles *)

Section Cycle.
Context `{cv : OpenCV} `{fl : Float64}.

Lemma move_quiet {B} (d : Direction) (n : Z) (k : unit -> M B) (w : World) :
  quiet w ->
  (0 <= hold_time (config w) n
          (bool_decide (current_direction (movement_controller w) <> d)))%Q ->
  bind (move d n) k w =
    bind (sleep 0.1) k
      (set_ticks (S (ticks w))
         (set_trace
            (trace w ++
             [KeyDown (direction_keys d);
              Sleep (hold_time (config w) n
                       (bool_decide
                          (current_direction (movement_controller w) <> d)));
              KeyUp (direction_keys d)])
            (set_movement
               {| pattern := pattern (movement_controller w);
                  current_direction := d;
                  spaces_to_move := spaces_to_move (movement_controller w) |}
               w))).
Proof.
  intros Hq Hd. unfold hold_time in *. unfold move. exec.
  destruct (decide (current_direction (movement_controller w) <> d))
    as [Hne | Heq].
  - rewrite (bool_decide_eq_true_2 _ Hne) in Hd |- *. exec.
    rewrite bind_time_sleep_ok by exact Hd. exec.
    rewrite <- !app_assoc. reflexivity.
  - rewrite (bool_decide_eq_false_2 _ Heq) in Hd |- *. exec.
    rewrite bind_time_sleep_ok by exact Hd. exec.
    assert (current_direction (movement_controller w) = d) as Hfacing
      by (destruct (decide (current_direction (movement_controller w) = d));
          tauto).
    rewrite <- !app_assoc. cbn [app].
    destruct w as [? ? [p cd sp] ? ? ? ? ? ? ? ? ?]. cbn in *. subst cd.
    reflexivity.
Qed.

Lemma move_refused {B} (d : Direction) (n : Z) (k : unit -> M B) (w : World) :
  (hold_time (config w) n
     (bool_decide (current_direction (movement_controller w) <> d)) < 0)%Q ->
  bind (move d n) k w =
    (Raise ValueError,
     set_trace (trace w ++ [KeyDown (direction_keys d)])
       (set_movement
          {| pattern := pattern (movement_controller w);
             current_direction := d;
             spaces_to_move := spaces_to_move (movement_controller w) |}
          w)).
Proof.
  intros Hd. unfold hold_time in *. unfold move. exec.
  destruct (decide (current_direction (movement_controller w) <> d))
    as [Hne | Heq].
  - rewrite (bool_decide_eq_true_2 _ Hne) in Hd. exec.
    by rewrite bind_time_sleep_neg by exact Hd.
  - rewrite (bool_decide_eq_false_2 _ Heq) in Hd. exec.
    rewrite bind_time_sleep_neg by exact Hd.
    assert (current_direction (movement_controller w) = d) as Hfacing
      by (destruct (decide (current_direction (movement_controller w) = d));
          tauto).
    destruct w as [? ? [p cd sp] ? ? ? ? ? ? ? ? ?]. cbn in *. subst cd.
    reflexivity.
Qed.

Lemma move_cycle_run (w : World) (d1 d2 : Direction) :
  quiet w ->
  legs_of (pattern (movement_controller w)) = Some (d1, d2) ->
  clock_accepts w ->
  move_cycle w =
    (Ok tt,
     set_ticks (6 + ticks w)
       (set_trace
          (trace w ++
           leg (config w) d1
             (bool_decide (current_direction (movement_controller w) <> d1))
             (spaces_to_move (movement_controller w)) ++
           leg (config w) d2 true (spaces_to_move (movement_controller w)))
          (set_movement
             {| pattern := pattern (movement_controller w);
                current_direction := d2;
                spaces_to_move := spaces_to_move (movement_controller w) |}
             w))).
Proof.
  intros Hq Hp Hc. unfold legs_of in Hp. unfold move_cycle.
  change (bind get ?k w) with (k w w). cbv beta.
  destruct (decide (pattern (movement_controller w) = "horizontal"));
    [|destruct (decide (pattern (movement_controller w) = "vertical"))];
    simplify_eq.
  - exec.
    rewrite move_quiet by (first [unfold quiet; flat; assumption | apply Hc]).
    flat. exec.
    rewrite move_quiet by (first [unfold quiet; flat; assumption | apply Hc]).
    flat. exec.
    unfold leg. rewrite <- !app_assoc. reflexivity.
  - exec.
    rewrite move_quiet by (first [unfold quiet; flat; assumption | apply Hc]).
    flat. exec.
    rewrite move_quiet by (first [unfold quiet; flat; assumption | apply Hc]).
    flat. exec.
    unfold leg. rewrite <- !app_assoc. reflexivity.
Qed.

Lemma move_cycle_refused {B} (k : unit -> M B) (w : World)
    (d1 d2 : Direction) :
  legs_of (pattern (movement_controller w)) = Some (d1, d2) ->
  (hold_time (config w) (spaces_to_move (movement_controller w))
     (bool_decide (current_direction (movement_controller w) <> d1)) < 0)%Q ->
  bind move_cycle k w =
    (Raise ValueError,
     set_trace (trace w ++ [KeyDown (direction_keys d1)])
       (set_movement
          {| pattern := pattern (movement_controller w);
             current_direction := d1;
             spaces_to_move := spaces_to_move (movement_controller w) |}
          w)).
Proof.
  intros Hp Hd. unfold legs_of in Hp. unfold move_cycle.
  rewrite bind_assoc.
  change (bind get ?k0 w) with (k0 w w). cbv beta.
  destruct (decide (pattern (movement_controller w) = "horizontal"));
    [|destruct (decide (pattern (movement_controller w) = "vertical"))];
    simplify_eq.
  - exec. by rewrite move_refused by exact Hd.
  - exec. by rewrite move_refused by exact Hd.
Qed.
End Cycle.

Section Cycle2.
Context `{cv : OpenCV} `{fl : Float64}.

Lemma key_events_app (t1 t2 : list Event) :
  key_events (t1 ++ t2) = key_events t1 ++ key_events t2.
Proof.
  induction t1 as [|e t1 IH]; simpl; [done|]. destruct e; simpl; congruence.
Qed.

Lemma legs_differ (p : string) (d1 d2 : Direction) :
  legs_of p = Some (d1, d2) -> d2 <> d1.
Proof.
  unfold legs_of. repeat case_decide; intros; simplify_eq; discriminate.
Qed.

Lemma move_cycle_unknown (w : World) :
  legs_of (pattern (movement_controller w)) = None -> move_cycle w = (Ok tt, w).
Proof.
  unfold legs_of, move_cycle. intros Hp.
  change (bind get ?k w) with (k w w). cbv beta.
  repeat case_decide; simplify_eq. reflexivity.
Qed.

Lemma move_cycle_spec (w : World) (d1 d2 : Direction) :
  quiet w ->
  legs_of (pattern (movement_controller w)) = Some (d1, d2) ->
  clock_accepts w ->
  exists w',
    move_cycle w = (Ok tt, w') /\
    trace w' =
      trace w ++
      leg (config w) d1
        (bool_decide (current_direction (movement_controller w) <> d1))
        (spaces_to_move (movement_controller w))
      ++ leg (config w) d2 true (spaces_to_move (movement_controller w)) /\
    config w' = config w /\
    movement_controller w' =
      {| pattern := pattern (movement_controller w);
         current_direction := d2;
         spaces_to_move := spaces_to_move (movement_controller w) |} /\
    quiet w' /\
    state w' = state w /\ stats w' = stats w /\ running w' = running w.
Proof.
  intros Hq Hp Hc.
  eexists. split; [by apply move_cycle_run|].
  repeat apply conj; try reflexivity. exact Hq.
Qed.

(** X7. One movement cycle with the control surface idle, when the clock
    accepts the hold times (they are not negative, with and without the
    turn): the first leg pays the turn cost unless the character already
    faces that way, the return leg always pays it, and the cycle ends
    facing the return direction; so every following cycle pays the turn
    cost twice. The hold times are the floating-point values of
    [hold_time]. The configuration, the pattern and the number of spaces
    are not changed. *)
Theorem move_cycle_round_trip (w : World) (d1 d2 : Direction) :
  quiet w ->
  legs_of (pattern (movement_controller w)) = Some (d1, d2) ->
  clock_accepts w ->
  let c := config w in
  let n := spaces_to_move (movement_controller w) in
  exists w',
    move_cycle w = (Ok tt, w') /\
    new_events w w' =
      leg c d1 (bool_decide (current_direction (movement_controller w) <> d1)) n
      ++ leg c d2 true n /\
    config w' = c /\
    movement_controller w' =
      {| pattern := pattern (movement_controller w);
         current_direction := d2;
         spaces_to_move := n |} /\
    exists w'',
      move_cycle w' = (Ok tt, w'') /\
      new_events w' w'' = leg c d1 true n ++ leg c d2 true n /\
      movement_controller w'' = movement_controller w'.
Proof.
  intros Hq Hp Hclock c n.
  destruct (move_cycle_spec w d1 d2 Hq Hp Hclock)
    as (w' & Hrun & Hev & Hc & Hm & Hq' & _).
  exists w'. repeat apply conj; try assumption.
  { by apply new_events_app. }
  destruct (move_cycle_spec w' d1 d2 Hq')
    as (w'' & Hrun' & Hev' & _ & Hm' & _).
  { by rewrite Hm. }
  { intros turn. rewrite Hc, Hm. apply Hclock. }
  exists w''. repeat apply conj; try assumption.
  - apply new_events_app. rewrite Hev', Hc, Hm.
    cbn [current_direction spaces_to_move].
    by rewrite (bool_decide_eq_true_2 _ (legs_differ _ _ _ Hp)).
  - rewrite Hm', Hm. reflexivity.
Qed.

(** X8. Choosing a pattern turns the stored facing to the first direction
    of that pattern, so the cycle that follows pays the turn cost on the
    return leg only, wherever the character faced before; this when the
    clock accepts the hold times, which are the floating-point values of
    [hold_time]. *)
Theorem set_pattern_then_cycle (p : string) (w : World) (d1 d2 : Direction) :
  quiet w ->
  legs_of p = Some (d1, d2) ->
  clock_accepts w ->
  exists w',
    bind (set_pattern p) (fun _ => move_cycle) w = (Ok tt, w') /\
    new_events w w' =
      leg (config w) d1 false (spaces_to_move (movement_controller w)) ++
      leg (config w) d2 true (spaces_to_move (movement_controller w)) /\
    current_direction (movement_controller w') = d2.
Proof.
  intros Hq Hp Hclock. unfold set_pattern.
  change (bind (modify ?f) ?k w) with (k tt (f w)). cbv beta.
  assert (d1 = if decide (p = "horizontal") then LEFT else UP) as Hd1.
  { unfold legs_of in Hp. repeat case_decide; by simplify_eq. }
  eexists. split; [by apply move_cycle_run|].
  split; [|reflexivity].
  apply new_events_app. flat. rewrite <- Hd1.
  by rewrite bool_decide_eq_false_2 by (intros H; by apply H).
Qed.
End Cycle2.

Section MovementPass.
Context `{cv : OpenCV} `{fl : Float64}.

Lemma bind_ok {A B} (m : M A) (k : A -> M B) (w : World) (a : A) (w' : World) :
  m w = (Ok a, w') -> bind m k w = k a w'.
Proof. intros H. unfold bind. by rewrite H. Qed.

Lemma bind_detect_miss (name : string) (thr : Q) (w : World) :
  scores_reach (templates w) (screens w) thr (grabs w) name = false ->
  exists evs dg,
    (forall B (k : bool -> M B),
       bind (detect name thr) k w =
         k false (set_trace (trace w ++ evs) (set_grabs (dg + grabs w) w))) /\
    key_events evs = [].
Proof.
  unfold scores_reach, detect.
  destruct (templates w !! name) as [tpl|] eqn:Ht.
  2:{ intros _. exists [], 0%nat. split; [|done]. intros B k.
      unfold bind at 1 2, get. rewrite Ht. cbn [ret].
      rewrite app_nil_r. by destruct w. }
  destruct (screens w (grabs w)) as [screen|e] eqn:Hs.
  2:{ intros _. eexists [Grab; Stdout _], 1%nat. split; [|done]. intros B k.
      unfold bind at 1 2, get. rewrite Ht.
      unfold try_except, bind at 1, grab_screen. rewrite Hs.
      cbn. by rewrite <- app_assoc. }
  destruct (matchTemplate screen tpl) as [[|s rest]|e] eqn:Hm.
  - intros _. eexists [Grab; Stdout _], 1%nat. split; [|done]. intros B k.
    unfold bind at 1 2, get. rewrite Ht.
    unfold try_except, bind at 1 2, grab_screen, lift. rewrite Hs.
    cbn. rewrite Hm. cbn. by rewrite <- app_assoc.
  - intros Hle. exists [Grab], 1%nat. split; [|done]. intros B k.
    unfold bind at 1 2, get. rewrite Ht.
    unfold try_except, bind at 1 2, grab_screen, lift. rewrite Hs.
    cbn. rewrite Hm. cbn. by rewrite Hle.
  - intros _. eexists [Grab; Stdout _], 1%nat. split; [|done]. intros B k.
    unfold bind at 1 2, get. rewrite Ht.
    unfold try_except, bind at 1 2, grab_screen, lift. rewrite Hs.
    cbn. rewrite Hm. cbn. by rewrite <- app_assoc.
Qed.

Lemma move_cycle_any (w : World) :
  quiet w ->
  (legs_of (pattern (movement_controller w)) <> None -> clock_accepts w) ->
  exists w' evs,
    move_cycle w = (Ok tt, w') /\
    trace w' = trace w ++ evs /\
    key_events evs =
      match legs_of (pattern (movement_controller w)) with
      | Some (d1, d2) =>
          [KeyDown (direction_keys d1); KeyUp (direction_keys d1);
           KeyDown (direction_keys d2); KeyUp (direction_keys d2)]
      | None => []
      end /\
    config w' = config w /\ quiet w' /\
    state w' = state w /\ stats w' = stats w /\ running w' = running w.
Proof.
  intros Hq Hclock.
  destruct (legs_of (pattern (movement_controller w))) as [[d1 d2]|] eqn:Hp.
  - destruct (move_cycle_spec w d1 d2 Hq Hp)
      as (w' & Hrun & Hev & Hc & _ & Hq' & Hs & Hst & Hr).
    { by apply Hclock. }
    exists w'. eexists. repeat apply conj; try eassumption. reflexivity.
  - exists w, []. rewrite app_nil_r.
    repeat apply conj; try done. by apply move_cycle_unknown.
Qed.

(** The pass up to the movement cycle: the capture shows no battle, and
    the cycle starts in a world that differs by the capture only. *)
Lemma pass_reaches_cycle (bf : nat) (w : World) :
  state w = MOVING ->
  seen w (grabs w) "hp_bar" = false ->
  exists evs dg,
    key_events evs = [] /\
    main_loop_body bf w =
      bind
        (bind move_cycle (fun _ =>
           bind (add_stat 0 0 1) (fun _ =>
             bind get (fun w' =>
               bind (time_sleep (movement_delay (config w'))) (fun _ =>
                 ret Continue)))))
        (fun returned =>
           match returned with
           | Return => ret Return
           | Continue => bind (sleep 0.1) (fun _ => ret Continue)
           end)
        (set_trace (trace w ++ evs) (set_grabs (dg + grabs w) w)).
Proof.
  intros Hs Hb.
  destruct (bind_detect_miss "hp_bar" (detection_threshold (config w)) w Hb)
    as (evs & dg & Hdet & Hevs).
  exists evs, dg. split; [exact Hevs|].
  unfold main_loop_body.
  repeat (lazymatch goal with
          | |- context [bind (detect _ _) _ _] => fail
          | _ => walk
          end).
  rewrite Hdet. flat.
  lazymatch goal with
  | |- bind (bind get ?f) ?k ?W = ?R => change (bind (f W) k W = R)
  end.
  cbv beta. cbn [state].
  destruct (decide (state w = MOVING)); [reflexivity|contradiction].
Qed.

(** X9. A pass of the main loop outside battle, in state Moving and with
    the control surface idle. When the clock accepts the hold times of the
    pattern and the movement delay is not negative: one movement cycle,
    then the movement counter goes up by one, the loop waits the movement
    delay and ends the pass; the keys of the pass are those of the two
    legs of the pattern; with a pattern that is neither horizontal nor
    vertical no key is touched, and the pass is counted as a movement all
    the same. When the hold time of the first leg is negative, the pass
    raises [ValueError] with the key of that leg down and nothing counted.
    When the hold times are accepted and the movement delay is negative,
    the pass raises [ValueError] after the cycle and the count. *)
Theorem movement_pass (bf : nat) (w : World) :
  quiet w ->
  state w = MOVING ->
  seen w (grabs w) "hp_bar" = false ->
  let legs := legs_of (pattern (movement_controller w)) in
  let keys :=
    match legs with
    | Some (d1, d2) =>
        [KeyDown (direction_keys d1); KeyUp (direction_keys d1);
         KeyDown (direction_keys d2); KeyUp (direction_keys d2)]
    | None => []
    end in
  let counted := {| movements := movements (stats w) + 1;
                    battles := battles (stats w);
                    runs := runs (stats w) |} in
  ((legs <> None -> clock_accepts w) ->
   (0 <= movement_delay (config w))%Q ->
   exists w',
     main_loop_body bf w = (Ok Continue, w') /\
     stats w' = counted /\
     key_events (new_events w w') = keys /\
     state w' = MOVING /\ config w' = config w /\ running w' = running w) /\
  (forall d1 d2,
     legs = Some (d1, d2) ->
     (hold_time (config w) (spaces_to_move (movement_controller w))
        (bool_decide (current_direction (movement_controller w) <> d1))
      < 0)%Q ->
     exists w',
       main_loop_body bf w = (Raise ValueError, w') /\
       stats w' = stats w /\
       key_events (new_events w w') = [KeyDown (direction_keys d1)]) /\
  ((legs <> None -> clock_accepts w) ->
   (movement_delay (config w) < 0)%Q ->
   exists w',
     main_loop_body bf w = (Raise ValueError, w') /\
     stats w' = counted /\
     key_events (new_events w w') = keys).
Proof.
  intros Hq Hs Hb legs keys counted.
  destruct (pass_reaches_cycle bf w Hs Hb) as (evs & dg & Hevs & ->).
  repeat apply conj.
  - intros Hclock Hdelay. rewrite bind_assoc.
    lazymatch goal with
    | |- context [bind move_cycle ?k ?W] =>
        destruct (move_cycle_any W Hq Hclock)
          as (w2 & evs2 & Hrun & Htr & Hk & Hc & Hq2 & Hs2 & Hst2 & Hr2);
        rewrite (bind_ok move_cycle k W tt w2 Hrun)
    end.
    cbn in Htr, Hk, Hc, Hs2, Hst2, Hr2.
    exec. rewrite bind_time_sleep_ok by (flat; by rewrite Hc). exec.
    eexists. split; [reflexivity|]. flat. repeat apply conj.
    + rewrite Hst2. subst counted. f_equal; lia.
    + erewrite new_events_app; [|flat; rewrite Htr, <- !app_assoc; reflexivity].
      rewrite !key_events_app, Hevs, Hk. cbn. by rewrite app_nil_r.
    + by rewrite Hs2.
    + exact Hc.
    + exact Hr2.
  - intros d1 d2 Hp Hneg. rewrite !bind_assoc.
    erewrite move_cycle_refused; [|exact Hp|exact Hneg].
    eexists. split; [reflexivity|]. flat. split; [reflexivity|].
    erewrite new_events_app; [|flat; rewrite <- !app_assoc; reflexivity].
    rewrite !key_events_app, Hevs. reflexivity.
  - intros Hclock Hdelay. rewrite bind_assoc.
    lazymatch goal with
    | |- context [bind move_cycle ?k ?W] =>
        destruct (move_cycle_any W Hq Hclock)
          as (w2 & evs2 & Hrun & Htr & Hk & Hc & Hq2 & Hs2 & Hst2 & Hr2);
        rewrite (bind_ok move_cycle k W tt w2 Hrun)
    end.
    cbn in Htr, Hk, Hc, Hs2, Hst2, Hr2.
    exec. rewrite bind_time_sleep_neg by (flat; by rewrite Hc).
    eexists. split; [reflexivity|]. flat. split.
    + rewrite Hst2. subst counted. f_equal; lia.
    + erewrite new_events_app; [|flat; rewrite Htr, <- !app_assoc; reflexivity].
      rewrite !key_events_app, Hevs, Hk. reflexivity.
Qed.
End MovementPass.

(** ** No exception in the worker *)

Section Sure.
Context `{cv : OpenCV} `{fl : Float64}.

Lemma sure_bind {A B} (I : World -> Prop) (Q1 : A -> Prop) (Q : B -> Prop)
    (m : M A) (k : A -> M B) :
  sure I Q1 m -> (forall a, Q1 a -> sure I Q (k a)) -> sure I Q (bind m k).
Proof.
  intros Hm Hk w Hw. destruct (Hm w Hw) as [HI HQ]. unfold bind.
  destruct (m w) as [[a | e |] w']; cbn [fst snd] in *; try done.
  by apply Hk.
Qed.

Lemma sure_seq {A B} (I : World -> Prop) (Q : B -> Prop)
    (m : M A) (k : A -> M B) :
  sure I (fun _ => True) m -> (forall a, sure I Q (k a)) -> sure I Q (bind m k).
Proof. intros Hm Hk. apply (sure_bind I (fun _ => True)); auto. Qed.

Lemma sure_bind_get {B} (I : World -> Prop) (Q : B -> Prop)
    (k : World -> M B) :
  (forall w0, I w0 -> sure I Q (k w0)) -> sure I Q (bind get k).
Proof. intros Hk w Hw. change (bind get k w) with (k w w). by apply Hk. Qed.

Lemma sure_modify (I : World -> Prop) (f : World -> World) :
  (forall w, I w -> I (f w)) -> sure I (fun _ => True) (modify f).
Proof. intros H w Hw. split; [by apply H | exact Logic.I]. Qed.

Lemma sure_ret {A} (I : World -> Prop) (Q : A -> Prop) (a : A) :
  Q a -> sure I Q (ret a).
Proof. intros H w Hw. by split. Qed.

Lemma sure_out_of_fuel {A} (I : World -> Prop) (Q : A -> Prop) :
  sure I Q (@out_of_fuel _ A).
Proof. intros w Hw. by split. Qed.

Lemma sure_weaken {A} (I : World -> Prop) (Q Q' : A -> Prop) (m : M A) :
  (forall a, Q a -> Q' a) -> sure I Q m -> sure I Q' m.
Proof.
  intros HQ Hm w Hw. destruct (Hm w Hw) as [HI Hr]. split; [done|].
  destruct (fst (m w)); auto.
Qed.

Lemma sure_for_each {A} (I : World -> Prop) (xs : list A)
    (body : A -> M unit) :
  (forall x, x ∈ xs -> sure I (fun _ => True) (body x)) ->
  sure I (fun _ => True) (for_each xs body).
Proof.
  induction xs as [|x xs IH]; intros H; simpl.
  - by apply sure_ret.
  - apply sure_seq.
    + apply H. by left.
    + intros _. apply IH. intros y Hy. apply H. by right.
Qed.

Lemma bind_ret_r {A} (m : M A) (w : World) : bind m ret w = m w.
Proof. unfold bind. by destruct (m w) as [[a | e |] w']. Qed.

Lemma detect_outcome (name : string) (thr : Q) (w : World) :
  exists b evs dg,
    detect name thr w =
      (Ok b, set_trace (trace w ++ evs) (set_grabs (dg + grabs w) w)).
Proof.
  destruct (scores_reach (templates w) (screens w) thr (grabs w) name) eqn:Hs.
  - exists true, [Grab], 1%nat.
    rewrite <- bind_ret_r. by rewrite bind_detect_seen.
  - destruct (bind_detect_miss name thr w Hs) as (evs & dg & Hk & _).
    exists false, evs, dg. rewrite <- bind_ret_r. by rewrite Hk.
Qed.

Lemma in_table_frame (w w' : World) :
  current_pp (config w') = current_pp (config w) ->
  max_pp (config w') = max_pp (config w) ->
  selected_ability (config w') = selected_ability (config w) ->
  backup_ability (config w') = backup_ability (config w) ->
  gui w' = gui w ->
  in_table w -> in_table w'.
Proof. unfold in_table. by intros -> -> -> -> ->. Qed.

Lemma sure_detect (name : string) (thr : Q) :
  sure in_table (fun _ => True) (detect name thr).
Proof.
  intros w Hw. destruct (detect_outcome name thr w) as (b & evs & dg & ->).
  split; [|exact I]. exact Hw.
Qed.

Lemma sure_current_pp_at (a : Z) :
  a ∈ range_1_5 -> sure in_table (fun _ => True) (current_pp_at a).
Proof.
  intros Ha w Hw. pose proof Hw as (Hc & _). destruct (Hc a Ha) as [v Hv].
  unfold current_pp_at, dict_get.
  change (bind get ?k w) with (k w w). cbv beta. rewrite Hv.
  split; [exact Hw | exact I].
Qed.

Lemma sure_max_pp_at (a : Z) :
  a ∈ range_1_5 -> sure in_table (fun _ => True) (max_pp_at a).
Proof.
  intros Ha w Hw. pose proof Hw as (_ & Hm & _). destruct (Hm a Ha) as [v Hv].
  unfold max_pp_at, dict_get.
  change (bind get ?k w) with (k w w). cbv beta. rewrite Hv.
  split; [exact Hw | exact I].
Qed.

Lemma in_table_current_pp_set (a v : Z) (w : World) :
  in_table w -> in_table (snd (current_pp_set a v w)).
Proof.
  intros (Hc & Hm & Hs & Hb & Hg). repeat apply conj; try assumption.
  cbn. by apply keyed_insert.
Qed.

Lemma in_table_max_pp_set (a v : Z) (w : World) :
  in_table w -> in_table (snd (max_pp_set a v w)).
Proof.
  intros (Hc & Hm & Hs & Hb & Hg). repeat apply conj; try assumption.
  cbn. by apply keyed_insert.
Qed.

Lemma sure_current_pp_set (a v : Z) :
  sure in_table (fun _ => True) (current_pp_set a v).
Proof. intros w Hw. split; [by apply in_table_current_pp_set | exact I]. Qed.

Lemma sure_get_ability_to_use :
  sure in_table
    (fun oa => match oa with Some a => a ∈ range_1_5 | None => True end)
    get_ability_to_use.
Proof.
  intros w Hw. pose proof Hw as (Hc & _ & Hs & Hb & _).
  destruct (Hc _ Hs) as [p Hp]. destruct (Hc _ Hb) as [q Hq].
  unfold get_ability_to_use.
  change (bind get ?k w) with (k w w). cbv beta zeta.
  unfold dict_get. rewrite Hp.
  change (bind (ret p) ?k w) with (k p w). cbv beta.
  destruct (0 <? p); [by split|].
  destruct (use_backup (config w)); [|by split].
  rewrite Hq. change (bind (ret q) ?k w) with (k q w). cbv beta.
  by destruct (0 <? q).
Qed.

(** What the control surface does to the tables: it may raise, and it
    keeps every looked-up ability in them. *)
Lemma in_table_update_pp (a : Z) : hoare in_table (update_pp a) in_table.
Proof.
  unfold update_pp. apply hoare_catch.
  - apply hoare_seq.
    + unfold entry_value. intros w Hw.
      change (bind get ?k w) with (k w w). cbv beta.
      by destruct (pp_entries w !! a) as [[v|]|].
    + intros v. destruct (0 <? v); [|by intros w Hw].
      apply hoare_seq; [intros w; apply in_table_max_pp_set|intros _].
      apply hoare_seq; [intros w; apply in_table_current_pp_set|intros _].
      unfold update_pp_display. apply hoare_for_each. intros k _.
      apply hoare_seq; [|intros _; apply hoare_seq; [|by intros _ w Hw]].
      * unfold current_pp_at, dict_get. intros w Hw.
        change (bind get ?k w) with (k w w). cbv beta.
        by destruct (current_pp (config w) !! k).
      * unfold max_pp_at, dict_get. intros w Hw.
        change (bind get ?k w) with (k w w). cbv beta.
        by destruct (max_pp (config w) !! k).
  - intros e. destruct e; try by intros w Hw.
    apply hoare_seq.
    + unfold max_pp_at, dict_get. intros w Hw.
      change (bind get ?k w) with (k w w). cbv beta.
      by destruct (max_pp (config w) !! a).
    + intros m w Hw. exact Hw.
Qed.
End Sure.

Section Sure2.
Context `{cv : OpenCV} `{fl : Float64}.

Lemma in_table_log (e : Event) : hoare in_table (log e) in_table.
Proof. by intros w Hw. Qed.

Lemma in_table_set_state (s : BotState) : hoare in_table (set_state s) in_table.
Proof. by intros w Hw. Qed.

Lemma in_table_reset_pp : hoare in_table reset_pp in_table.
Proof.
  unfold reset_pp. apply hoare_seq; [|intros _].
  - apply hoare_for_each. intros k _. apply hoare_seq.
    + unfold max_pp_at, dict_get. intros w Hw.
      change (bind get ?k w) with (k w w). cbv beta.
      by destruct (max_pp (config w) !! k).
    + intros m w. apply in_table_current_pp_set.
  - unfold update_pp_display. apply hoare_for_each. intros k _.
    apply hoare_seq; [|intros _; apply hoare_seq; [|by intros _ w Hw]].
    + unfold current_pp_at, dict_get. intros w Hw.
      change (bind get ?k w) with (k w w). cbv beta.
      by destruct (current_pp (config w) !! k).
    + unfold max_pp_at, dict_get. intros w Hw.
      change (bind get ?k w) with (k w w). cbv beta.
      by destruct (max_pp (config w) !! k).
Qed.

Lemma in_table_toggle_bot : hoare in_table toggle_bot in_table.
Proof.
  intros w Hw. unfold toggle_bot.
  change (bind get ?k w) with (k w w). cbv beta.
  destruct (negb (running w)); [destruct (templates w !! "hp_bar")|];
    try exact Hw.
  refine (hoare_seq in_table _ _ _ _ w Hw).
  - apply hoare_for_each. intros k _. apply in_table_update_pp.
  - by intros _ w' Hw'.
Qed.

Lemma in_table_callback (a : GuiAction) :
  widget_click a -> hoare in_table (callback a) in_table.
Proof.
  intros Ha. destruct a; cbn [callback].
  - apply in_table_toggle_bot.
  - by intros w Hw.
  - apply in_table_update_pp.
  - apply in_table_reset_pp.
  - intros w (Hc & Hm & Hs & Hb & Hg). by repeat split.
  - intros w (Hc & Hm & Hs & Hb & Hg). by repeat split.
  - by intros w Hw.
  - by intros w Hw.
  - by intros w Hw.
  - by intros w Hw.
  - by intros w Hw.
  - by intros w Hw.
  - by intros w Hw.
Qed.

Lemma due_widget_clicks (t : nat) (g : list (nat * GuiAction)) :
  Forall (fun c => widget_click (snd c)) g -> Forall widget_click (due t g).
Proof.
  unfold due. induction 1 as [|c g Hc Hg IH]; [constructor|].
  rewrite filter_cons. case_decide; simpl; [by constructor | exact IH].
Qed.

Lemma in_table_callbacks (l : list GuiAction) (w : World) :
  Forall widget_click l -> in_table w -> in_table (fold_left run_callback l w).
Proof.
  intros Hl. revert w. induction Hl as [|a l Ha Hl IH]; intros w Hw; simpl.
  - exact Hw.
  - apply IH. by apply in_table_callback.
Qed.

Lemma sure_sleep (q : Q) : sure in_table (fun _ => True) (sleep q).
Proof.
  intros w Hw. split; [|exact I]. unfold sleep. cbn [snd].
  apply (in_table_frame
           (fold_left run_callback (due (ticks w) (gui w))
              (set_trace (trace w ++ [Sleep q]) w))); try reflexivity.
  apply in_table_callbacks; [|exact Hw].
  apply due_widget_clicks. by destruct Hw as (_ & _ & _ & _ & ?).
Qed.

Lemma sure_time_sleep (q : Q) : sure in_table (fun _ => True) (time_sleep q).
Proof.
  unfold time_sleep. destruct (Qle_bool 0 q); [apply sure_sleep|].
  intros w Hw. by split.
Qed.
End Sure2.

(** Proves [sure in_table (fun _ => True) m] by the structure of [m];
    gives up on a raise and on a lookup of an ability not known to be in
    the table. *)
Ltac certain :=
  lazymatch goal with
  | |- sure _ _ (bind get _) =>
      apply sure_bind_get; intros ? ?; certain
  | |- sure _ _ (bind get_ability_to_use _) =>
      apply (sure_bind _ _ _ _ _ sure_get_ability_to_use);
      intros [?|] ?; certain
  | |- sure _ _ (bind _ _) => apply sure_seq; [certain | intros ?; certain]
  | |- sure _ _ (for_each _ _) => apply sure_for_each; intros ? ?; certain
  | |- sure _ _ (current_pp_set _ _) => apply sure_current_pp_set
  | |- sure _ _ (current_pp_at _) => apply sure_current_pp_at; assumption
  | |- sure _ _ (max_pp_at _) => apply sure_max_pp_at; assumption
  | |- sure _ _ (modify _) =>
      apply sure_modify; let H := fresh in intros ? H; exact H
  | |- sure _ _ (ret _) => apply sure_ret; exact I
  | |- sure _ _ out_of_fuel => apply sure_out_of_fuel
  | |- sure _ _ (raise _) => fail
  | |- sure _ _ (dict_get _ _) => fail
  | |- sure _ _ (sleep _) => apply sure_sleep
  | |- sure _ _ (time_sleep _) => apply sure_time_sleep
  | |- sure _ _ (detect _ _) => apply sure_detect
  | |- sure _ _ (match ?x with _ => _ end) => destruct x; certain
  | |- sure _ _ ?m =>
      first [ assumption | let h := head_of m in unfold h; certain ]
  end.

Section Sure3.
Context `{cv : OpenCV} `{fl : Float64}.

Lemma sure_handle_battle (fuel : nat) :
  sure in_table (fun _ => True) (handle_battle fuel).
Proof. induction fuel as [|fuel IH]; cbn [handle_battle]; certain. Qed.

Lemma sure_main_loop_from (fuel bf : nat) :
  sure in_table (fun _ => True) (main_loop_from fuel bf).
Proof.
  pose proof (sure_handle_battle bf) as Hb.
  induction fuel as [|fuel IH]; cbn [main_loop_from]; certain.
Qed.

Lemma in_table_init (found : gmap string Image) (scr : nat -> Try Image)
    (clicks : list (nat * GuiAction)) :
  Forall (fun c => widget_click (snd c)) clicks ->
  in_table (BotGUI_init found scr clicks).
Proof.
  intros Hg. repeat apply conj; try exact Hg;
    try (unfold range_1_5; rewrite !elem_of_cons; tauto);
    intros k Hk;
    destruct (range_1_5_cases k Hk) as [-> | [-> | [-> | ->]]];
    by eexists.
Qed.

Lemma sure_main_loop (fuel bf : nat) :
  sure in_table (fun _ => True) (main_loop fuel bf).
Proof.
  pose proof (sure_main_loop_from fuel bf) as Hl.
  unfold main_loop; certain.
Qed.

(** X10. The worker never dies of an exception over the PP tables: as long
    as the abilities picked on the control surface are among the four
    radio buttons, no run of the main loop raises anything but the
    [ValueError] of the clock refusing a negative duration, whatever the
    screens show, whatever is typed and clicked while it sleeps, and
    however long it runs; and the tables keep their keys. (The keyboard is
    taken not to fail; an error of the screen capture or of the matcher is
    caught by the detector.) *)
Theorem worker_never_raises (fuel bf : nat) (w : World) :
  in_table w ->
  (forall e, fst (main_loop fuel bf w) = Raise e -> e = ValueError) /\
  in_table (snd (main_loop fuel bf w)).
Proof.
  intros Hw.
  destruct (sure_main_loop fuel bf w Hw) as [HI Hr]. split; [|exact HI].
  intros e He. by rewrite He in Hr.
Qed.
End Sure3.

(** ** The templates on disk *)

Section Templates.
Context `{cv : OpenCV} `{fl : Float64}.

Lemma load_first_ne (fs : Files) (name name' : string) (files : list string)
    (tpls : gmap string Image) :
  name' <> name -> load_first fs name files tpls !! name' = tpls !! name'.
Proof.
  intros Hne. induction files as [|file rest IH]; cbn [load_first]; [done|].
  destruct (path_exists fs file); [|exact IH].
  destruct (imread fs file); [|exact IH].
  by rewrite lookup_insert_ne.
Qed.

Lemma load_templates_hp_bar (fs : Files) :
  ImageDetector_init fs !! "hp_bar" =
    match readable fs "hp_bar.png" with
    | Some t => Some t
    | None => readable fs "hp_bar.jpg"
    end.
Proof.
  unfold ImageDetector_init, load_templates, template_files.
  cbn [fold_left fst snd].
  rewrite load_first_ne by done.
  unfold readable. cbn [load_first].
  destruct (path_exists fs "hp_bar.png"), (imread fs "hp_bar.png"),
    (path_exists fs "hp_bar.jpg"), (imread fs "hp_bar.jpg");
    by simplify_map_eq.
Qed.

(** X11. The templates a new detector holds: for the HP bar the image of
    [hp_bar.png] if that file exists and decodes, else that of
    [hp_bar.jpg]; for the battle menu the first of [battle_menu.png],
    [battle_options.png] and [battle_menu.jpg] that exists and decodes;
    a file that exists but does not decode is passed over; and no template
    under any other name. *)
Theorem load_templates_first_readable (fs : Files) :
  ImageDetector_init fs !! "hp_bar" =
    match readable fs "hp_bar.png" with
    | Some t => Some t
    | None => readable fs "hp_bar.jpg"
    end /\
  ImageDetector_init fs !! "battle_menu" =
    match readable fs "battle_menu.png" with
    | Some t => Some t
    | None =>
        match readable fs "battle_options.png" with
        | Some t => Some t
        | None => readable fs "battle_menu.jpg"
        end
    end /\
  forall name, name <> "hp_bar" -> name <> "battle_menu" ->
    ImageDetector_init fs !! name = None.
Proof.
  split; [apply load_templates_hp_bar|].
  unfold ImageDetector_init, load_templates, template_files.
  cbn [fold_left fst snd].
  split; [|intros name H1 H2].
  - assert (load_first fs "hp_bar" ["hp_bar.png"; "hp_bar.jpg"] ∅
              !! "battle_menu" = None) as Hin by by rewrite load_first_ne.
    revert Hin.
    generalize (load_first fs "hp_bar" ["hp_bar.png"; "hp_bar.jpg"] ∅).
    intros inner Hin. unfold readable. cbn [load_first].
    destruct (path_exists fs "battle_menu.png"), (imread fs "battle_menu.png"),
      (path_exists fs "battle_options.png"), (imread fs "battle_options.png"),
      (path_exists fs "battle_menu.jpg"), (imread fs "battle_menu.jpg");
      rewrite ?lookup_insert_eq; done.
  - by rewrite !load_first_ne.
Qed.
End Templates.

(** ** Restarting while the worker sleeps *)

Section Restart.
Context `{cv : OpenCV} `{fl : Float64}.

(** X12. No join on restart: when the bot is stopped and started again
    from the control surface within one sleep of the worker, a second
    worker is launched while the first one, which finds the flag set when
    it wakes, goes on with its next pass. *)
Theorem quick_restart_spawns_second_worker (q : Q) (w : World) (img : Image) :
  running w = true ->
  templates w !! "hp_bar" = Some img ->
  keyed (current_pp (config w)) -> keyed (max_pp (config w)) ->
  (forall k, k ∈ range_1_5 -> is_Some (pp_entries w !! k)) ->
  due (ticks w) (gui w) = [ClickToggle; ClickToggle] ->
  exists w',
    sleep q w = (Ok tt, w') /\
    running w' = true /\
    new_events w w' =
      [Sleep q;
       SetState STOPPED; ControlButton "START BOT";
       StatusLabel "Status: Stopped";
       SetState MOVING; SpawnWorker; ControlButton "STOP BOT";
       StatusLabel "Status: Running"] /\
    forall fuel bf,
      main_loop_from (S fuel) bf w' =
        bind (main_loop_body bf)
          (fun returned =>
             match returned with
             | Return => ret tt
             | Continue => main_loop_from fuel bf
             end) w'.
Proof.
  intros Hr Ht Hc Hm He Hdue.
  unfold sleep. cbv zeta.
  change (due (ticks (set_trace (trace w ++ [Sleep q]) w))
            (gui (set_trace (trace w ++ [Sleep q]) w)))
    with (due (ticks w) (gui w)).
  rewrite Hdue. cbn [fold_left]. unfold run_callback. cbn [callback].
  rewrite (stop_click (set_trace (trace w ++ [Sleep q]) w)) by exact Hr.
  cbn [snd]. flat.
  lazymatch goal with
  | |- context [toggle_bot ?W] =>
      destruct (toggle_bot_start W img) as (cur' & mx' & ents' & Hrun & _);
        [reflexivity | exact Ht | exact Hc | exact Hm | exact He |];
      rewrite Hrun
  end.
  cbn [snd]. flat.
  eexists. split; [reflexivity|]. repeat apply conj.
  - reflexivity.
  - apply new_events_app. flat. rewrite <- !app_assoc. reflexivity.
  - intros fuel bf. cbn [main_loop_from].
    lazymatch goal with
    | |- bind get ?k ?W = _ => change (bind get k W) with (k W W)
    end.
    reflexivity.
Qed.
End Restart.

(** ** From the files to the first click *)

Section Startup.
Context `{cv : OpenCV} `{fl : Float64}.

Lemma keyed_default : keyed default_max_pp.
Proof.
  intros k Hk.
  destruct (range_1_5_cases k Hk) as [-> | [-> | [-> | ->]]]; by eexists.
Qed.

Lemma toggle_bot_refused (w : World) :
  running w = false ->
  templates w !! "hp_bar" = None ->
  toggle_bot w =
    (Ok tt, set_trace (trace w ++ [StatusLabel "Load HP Bar image first!"]) w).
Proof.
  intros Hr Ht. unfold toggle_bot.
  change (bind get ?k w) with (k w w). cbv beta.
  by rewrite Hr, Ht.
Qed.

(** X13. From the files to the first click: a bot built in a directory
    where [hp_bar.png] or [hp_bar.jpg] exists and decodes starts on the
    first click of the control button, with one worker; built anywhere
    else it stays stopped and launches nothing. The battle menu template
    is not asked for. *)
Theorem first_click_needs_hp_bar_file (fs : Files) (scr : nat -> Try Image)
    (clicks : list (nat * GuiAction)) :
  let w := BotGUI_init (ImageDetector_init fs) scr clicks in
  let w' := snd (toggle_bot w) in
  let found :=
    match readable fs "hp_bar.png", readable fs "hp_bar.jpg" with
    | None, None => false
    | _, _ => true
    end in
  running w' = found /\
  state w' = (if found then MOVING else STOPPED) /\
  workers_spawned (trace w') = (if found then 1 else 0)%nat.
Proof.
  intros w w' found.
  pose proof (load_templates_hp_bar fs) as Hhp.
  assert (running w = false) as Hr by reflexivity.
  destruct (ImageDetector_init fs !! "hp_bar") as [img|] eqn:Ht.
  - assert (found = true) as ->.
    { subst found. destruct (readable fs "hp_bar.png"); [done|].
      by destruct (readable fs "hp_bar.jpg"). }
    destruct (toggle_bot_start w img Hr Ht)
      as (cur' & mx' & ents' & Hrun & _).
    + apply keyed_default.
    + apply keyed_default.
    + intros k Hk.
      destruct (range_1_5_cases k Hk) as [-> | [-> | [-> | ->]]]; by eexists.
    + subst w'. rewrite Hrun. by repeat split.
  - assert (found = false) as ->.
    { subst found. destruct (readable fs "hp_bar.png"); [done|].
      by destruct (readable fs "hp_bar.jpg"). }
    subst w'. rewrite (toggle_bot_refused w Hr Ht). by repeat split.
Qed.
End Startup.

(** ** A battle won in one attack *)

Section WonBattle.
Context `{cv : OpenCV} `{fl : Float64}.

Lemma get_ability_to_use_config (w W : World) (r : Res (option Z)) :
  config W = config w ->
  get_ability_to_use w = (r, w) -> get_ability_to_use W = (r, W).
Proof.
  unfold get_ability_to_use, bind, get, dict_get. intros ->.
  destruct (current_pp (config w) !! selected_ability (config w)) as [p|];
    cbn [ret raise]; [|by intros [= <-]].
  destruct (0 <? p); [by intros [= <-]|].
  destruct (use_backup (config w)); [|by intros [= <-]].
  destruct (current_pp (config w) !! backup_ability (config w)) as [q|];
    cbn [ret raise]; [|by intros [= <-]].
  by destruct (0 <? q); intros [= <-].
Qed.

Lemma any_positive_lookup (d : gmap Z Z) (a v : Z) :
  d !! a = Some v -> 0 < v -> any_positive d = true.
Proof.
  intros Hd Hv. unfold any_positive. apply existsb_exists.
  exists (a, v). split.
  - apply list_elem_of_In. by apply elem_of_map_to_list.
  - by apply Z.ltb_lt.
Qed.

(** X14. A pass of the main loop through a battle won in one attack, with
    the control surface idle: the battle is seen at the outer poll and at
    the battle poll, the menu is visible, an ability is chosen, and after
    the attack wait the HP bar is gone. Then the pass spends exactly one
    use of the chosen ability, counts one battle and no flee, goes
    through the states In_battle, Attacking and Moving, and the loop goes
    on. *)
Theorem won_battle_pass (bf : nat) (w : World) (a : Z) :
  quiet w ->
  seen w (grabs w) "hp_bar" = true ->
  seen w (S (grabs w)) "hp_bar" = true ->
  seen w (S (S (grabs w))) "battle_menu" = true ->
  seen w (S (S (S (grabs w)))) "hp_bar" = false ->
  get_ability_to_use w = (Ok (Some a), w) ->
  exists w' v,
    main_loop_body (S bf) w = (Ok Continue, w') /\
    current_pp (config w) !! a = Some v /\ 0 < v /\
    current_pp (config w') = <[a := v - 1]> (current_pp (config w)) /\
    max_pp (config w') = max_pp (config w) /\
    stats w' = {| movements := movements (stats w);
                  battles := battles (stats w) + 1;
                  runs := runs (stats w) |} /\
    states_of (new_events w w') = [IN_BATTLE; ATTACKING; MOVING] /\
    state w' = MOVING /\ running w' = running w.
Proof.
  unfold seen. intros Hq H0 H1 H2 H3 Hg.
  destruct (get_ability_to_use_pure w w _ Hg) as [_ Hpos].
  destruct (Hpos a eq_refl) as (v & Hv & Hv0).
  pose proof (any_positive_lookup _ a v Hv Hv0) as Hany.
  unfold main_loop_body.
  repeat (lazymatch goal with
          | |- context [bind (handle_battle _) _ _] => fail
          | _ => walk
          end).
  rewrite Hany. cbn [negb].
  repeat (lazymatch goal with
          | |- context [bind (handle_battle _) _ _] => fail
          | _ => walk
          end).
  cbn [handle_battle]. to_the_fight.
  lazymatch goal with
  | |- context [bind (select_fight_and_ability None) ?k ?W] =>
      destruct (bind_fight_chosen W a v) as (tr1 & t1 & E & Htr1);
        [exact Hq
        | by apply (get_ability_to_use_config w)
        | exact Hv |]
  end.
  rewrite E. unfold snapshot. flat.
  repeat (lazymatch goal with
          | |- context [bind (detect _ _) _ _] => fail
          | _ => walk
          end).
  lazymatch goal with
  | |- context [bind (detect ?n ?thr) _ ?W] =>
      destruct (bind_detect_unseen n thr W) as (evs & dg & Hk & Hst & _);
        [exact H3|]
  end.
  rewrite Hk. flat. cbn [negb].
  repeat walk.
  lazymatch goal with
  | |- context [@decide ("battle_complete" = "run") ?d] =>
      destruct (@decide ("battle_complete" = "run") d) as [Hx | _];
        [discriminate Hx|]
  end.
  repeat walk.
  eexists _, v. split; [reflexivity|]. flat.
  repeat apply conj; try done.
  - f_equal; lia.
  - erewrite new_events_app; [|flat; rewrite <- !app_assoc; reflexivity].
    rewrite !states_of_app, Hst, Htr1. reflexivity.
Qed.
End WonBattle.

(** ** The worker that stops itself *)

Section SelfStop.
Context `{cv : OpenCV} `{fl : Float64}.

Lemma button_text_app (t1 t2 : list Event) :
  button_text (t1 ++ t2) =
    match button_text t2 with
    | Some s => Some s
    | None => button_text t1
    end.
Proof.
  induction t1 as [|e t1 IH]; simpl.
  - by destruct (button_text t2).
  - destruct e; try exact IH. rewrite IH.
    destruct (button_text t2); [done|]. by destruct (button_text t1).
Qed.

Lemma triple_bind {A B} (P : World -> Prop) (Q1 : A -> World -> Prop)
    (Q : B -> World -> Prop) (m : M A) (k : A -> M B) :
  triple P m Q1 -> (forall a, triple (Q1 a) (k a) Q) -> triple P (bind m k) Q.
Proof.
  intros Hm Hk w Hw. specialize (Hm w Hw). unfold bind.
  destruct (m w) as [[a | e |] w']; cbn [fst snd] in *; try done.
  by apply Hk.
Qed.

Lemma triple_seq {A B} (I : World -> Prop) (Q : B -> World -> Prop)
    (m : M A) (k : A -> M B) :
  triple I m (fun _ => I) -> (forall a, triple I (k a) Q) ->
  triple I (bind m k) Q.
Proof. intros Hm Hk. by apply (triple_bind I (fun _ => I)). Qed.

Lemma triple_modify (I J : World -> Prop) (f : World -> World) :
  (forall w, I w -> J (f w)) -> triple I (modify f) (fun _ => J).
Proof. intros H w Hw. by apply H. Qed.

Lemma triple_pure {A} (I : World -> Prop) (m : M A) :
  (forall w, snd (m w) = w) -> triple I m (fun _ => I).
Proof. intros H w Hw. destruct (fst (m w)); try done. by rewrite H. Qed.

Lemma triple_ret {A} (I : World -> Prop) (Q : A -> World -> Prop) (a : A) :
  (forall w, I w -> Q a w) -> triple I (ret a) Q.
Proof. intros H w Hw. by apply H. Qed.

Lemma triple_for_each {A} (I : World -> Prop) (xs : list A)
    (body : A -> M unit) :
  (forall x, triple I (body x) (fun _ => I)) ->
  triple I (for_each xs body) (fun _ => I).
Proof.
  intros H. induction xs as [|x xs IH]; simpl.
  - by apply triple_ret.
  - apply triple_seq; auto.
Qed.

Lemma left_alone_frame b tp ents r (w w' : World) (evs : list Event) :
  gui w' = gui w -> trace w' = trace w ++ evs -> button_text evs = None ->
  templates w' = templates w -> pp_entries w' = pp_entries w ->
  config w' = config w -> running w' = running w ->
  left_alone b tp ents r w -> left_alone b tp ents r w'.
Proof.
  unfold left_alone, quiet.
  intros -> -> He -> -> -> ->. by rewrite button_text_app, He.
Qed.

Lemma triple_log b tp ents r (e : Event) :
  button_text [e] = None ->
  triple (left_alone b tp ents r) (log e)
    (fun _ => left_alone b tp ents r).
Proof.
  intros He. apply triple_modify. intros w.
  by apply (left_alone_frame _ _ _ _ w _ [e]).
Qed.

Lemma triple_sleep b tp ents r (q : Q) :
  triple (left_alone b tp ents r) (sleep q)
    (fun _ => left_alone b tp ents r).
Proof.
  intros w Hw. rewrite sleep_quiet by apply Hw. cbn [fst snd].
  by apply (left_alone_frame _ _ _ _ w _ [Sleep q]).
Qed.

Lemma detect_events (name : string) (thr : Q) (w : World) :
  exists b evs dg,
    detect name thr w =
      (Ok b, set_trace (trace w ++ evs) (set_grabs (dg + grabs w) w)) /\
    (evs = [] \/ evs = [Grab] \/ exists s, evs = [Grab; Stdout s]).
Proof.
  unfold detect.
  change (bind get ?k w) with (k w w). cbv beta.
  destruct (templates w !! name) as [tpl|] eqn:Ht.
  2:{ exists false, [], 0%nat. split; [|by left].
      cbn. rewrite app_nil_r. by destruct w. }
  unfold try_except, bind at 1, grab_screen.
  destruct (screens w (grabs w)) as [screen|e] eqn:Hs.
  2:{ eexists false, [Grab; Stdout _], 1%nat. split; [|right; right; eauto].
      cbn. by rewrite <- app_assoc. }
  unfold bind at 1, lift.
  destruct (matchTemplate screen tpl) as [[|s rest]|e] eqn:Hm.
  - eexists false, [Grab; Stdout _], 1%nat. split; [|right; right; eauto].
    cbn. by rewrite <- app_assoc.
  - eexists _, [Grab], 1%nat. split; [|by right; left]. cbn. reflexivity.
  - eexists false, [Grab; Stdout _], 1%nat. split; [|right; right; eauto].
    cbn. by rewrite <- app_assoc.
Qed.

Lemma triple_detect b tp ents r (name : string) (thr : Q) :
  triple (left_alone b tp ents r) (detect name thr)
    (fun _ => left_alone b tp ents r).
Proof.
  intros w Hw.
  destruct (detect_events name thr w) as (res & evs & dg & -> & Hevs).
  cbn [fst snd]. apply (left_alone_frame _ _ _ _ w _ evs); try done.
  by destruct Hevs as [-> | [-> | [s ->]]].
Qed.

Lemma triple_current_pp_set b tp ents r (a v : Z) :
  triple (left_alone b tp ents r) (current_pp_set a v)
    (fun _ => left_alone b tp ents r).
Proof.
  apply triple_modify. intros w (Hq & Hb & Ht & He & Hc & Hm & Hr).
  repeat split; try done. cbn. by apply keyed_insert.
Qed.
End SelfStop.

(** Proves [triple I m (fun _ => I)] for the worker left alone, by the
    structure of [m]; gives up on a write to the running flag. *)
Ltac steady :=
  lazymatch goal with
  | |- triple _ (bind _ _) _ => apply triple_seq; [steady | intros ?; steady]
  | |- triple _ (for_each _ _) _ => apply triple_for_each; intros ?; steady
  | |- triple _ (log _) _ => apply triple_log; reflexivity
  | |- triple _ (sleep _) _ => apply triple_sleep
  | |- triple _ (detect _ _) _ => apply triple_detect
  | |- triple _ (current_pp_set _ _) _ => apply triple_current_pp_set
  | |- triple _ (modify _) _ =>
      apply triple_modify; let H := fresh in intros ? H; exact H
  | |- triple _ stop _ => fail
  | |- triple _ (ret _) _ => apply triple_pure; reflexivity
  | |- triple _ (raise _) _ => apply triple_pure; reflexivity
  | |- triple _ get _ => apply triple_pure; reflexivity
  | |- triple _ out_of_fuel _ => apply triple_pure; reflexivity
  | |- triple _ (dict_get _ _) _ =>
      apply triple_pure; intros ?; unfold dict_get;
      lazymatch goal with |- context [?d !! ?k] => by destruct (d !! k) end
  | |- triple _ (match ?x with _ => _ end) _ => destruct x; steady
  | |- triple _ ?m _ =>
      first [ assumption | let h := head_of m in unfold h; cbv zeta; steady ]
  end.

Section SelfStop2.
Context `{cv : OpenCV} `{fl : Float64}.
Context (b : option string) (tp : gmap string Image)
  (ents : gmap Z (option Z)).

Lemma triple_handle_battle (r : bool) (fuel : nat) :
  triple (left_alone b tp ents r) (handle_battle fuel)
    (fun _ => left_alone b tp ents r).
Proof. induction fuel as [|fuel IH]; cbn [handle_battle]; steady. Qed.

Lemma triple_stop (r : bool) :
  triple (left_alone b tp ents r) stop
    (fun _ w => left_alone b tp ents false w /\ state w = STOPPED).
Proof.
  unfold stop, set_state.
  apply (triple_bind _ (fun _ => left_alone b tp ents false)).
  { apply triple_modify. intros w (Hq & Hb & Ht & He & Hc & Hm & Hr).
    by repeat split. }
  intros _.
  apply (triple_bind _
           (fun _ w => left_alone b tp ents false w /\ state w = STOPPED)).
  { apply triple_modify. intros w H. by split. }
  intros _. apply triple_modify. intros w [H Hs]. split; [|exact Hs].
  by apply (left_alone_frame _ _ _ _ w _ [SetState STOPPED]).
Qed.

Lemma triple_heal (r : bool) :
  triple (left_alone b tp ents r) heal_pokemon_at_center
    (fun _ w => left_alone b tp ents false w /\ state w = STOPPED).
Proof.
  unfold heal_pokemon_at_center.
  repeat (apply triple_seq; [steady | intros ?]).
  apply triple_stop.
Qed.

Lemma triple_after_battle (result : string) :
  triple (left_alone b tp ents true) (after_battle result)
    (fun c w =>
       match c with
       | Continue => left_alone b tp ents true w
       | Return => left_alone b tp ents false w /\ state w = STOPPED
       end).
Proof.
  unfold after_battle.
  apply (triple_bind _
           (fun c w =>
              match c with
              | Continue => left_alone b tp ents true w
              | Return => left_alone b tp ents false w /\ state w = STOPPED
              end)).
  2:{ intros [|]; [|by apply triple_ret].
      apply triple_seq; [steady | intros _]. by apply triple_ret. }
  destruct (decide (result = "run")); [|by apply triple_ret].
  apply triple_seq; [steady | intros _].
  apply triple_seq; [steady | intros _].
  apply triple_seq; [steady | intros w0].
  destruct (use_abra_teleport (config w0)); [|by apply triple_ret].
  apply triple_seq; [steady | intros _].
  apply triple_seq; [steady | intros teleported].
  destruct teleported; [|by apply triple_ret].
  apply triple_seq; [steady | intros _].
  apply (triple_bind _
           (fun _ w => left_alone b tp ents false w /\ state w = STOPPED));
    [apply triple_heal | intros _; by apply triple_ret].
Qed.

Lemma triple_main_loop_body (bf : nat) :
  triple (left_alone b tp ents true) (main_loop_body bf)
    (fun c w =>
       match c with
       | Continue => left_alone b tp ents true w
       | Return => left_alone b tp ents false w /\ state w = STOPPED
       end).
Proof.
  pose proof (triple_handle_battle true bf) as Hb.
  unfold main_loop_body.
  apply triple_seq; [steady | intros thr].
  apply triple_seq; [steady | intros in_battle].
  apply (triple_bind _
           (fun c w =>
              match c with
              | Continue => left_alone b tp ents true w
              | Return => left_alone b tp ents false w /\ state w = STOPPED
              end)).
  2:{ intros [|]; [|by apply triple_ret].
      apply triple_seq; [steady | intros _]. by apply triple_ret. }
  destruct in_battle.
  - apply triple_seq; [steady | intros _].
    apply triple_seq; [steady | intros _].
    apply triple_seq; [steady | intros w0].
    apply triple_seq; [steady | intros _].
    apply triple_seq; [exact Hb | intros result].
    apply triple_after_battle.
  - apply triple_seq; [steady | intros w0].
    destruct (decide (state w0 = MOVING)); [|by apply triple_ret].
    apply triple_seq; [steady | intros _].
    apply triple_seq; [steady | intros _].
    apply triple_seq; [steady | intros w1].
    apply triple_seq; [steady | intros _]. by apply triple_ret.
Qed.

Lemma triple_main_loop_from (fuel bf : nat) :
  triple (left_alone b tp ents true) (main_loop_from fuel bf)
    (fun _ w => left_alone b tp ents false w /\ state w = STOPPED).
Proof.
  induction fuel as [|fuel IH]; cbn [main_loop_from]; intros w Hw;
    change (bind get ?k w) with (k w w); cbv beta;
    destruct Hw as (Hq & Hb & Ht & He & Hc & Hm & Hr); rewrite Hr.
  - exact I.
  - revert w Hq Hb Ht He Hc Hm Hr.
    assert (triple (left_alone b tp ents true)
              (bind (main_loop_body bf)
                 (fun returned =>
                    match returned with
                    | Continue => main_loop_from fuel bf
                    | Return => ret tt
                    end))
              (fun _ w => left_alone b tp ents false w /\ state w = STOPPED))
      as H.
    { eapply triple_bind; [apply triple_main_loop_body|].
      intros [|]; [exact IH | by apply triple_ret]. }
    intros w Hq Hb Ht He Hc Hm Hr. by apply H.
Qed.

Lemma triple_main_loop (fuel bf : nat) :
  triple (left_alone b tp ents true) (main_loop fuel bf)
    (fun _ w => left_alone b tp ents false w /\ state w = STOPPED).
Proof.
  unfold main_loop.
  apply triple_seq; [steady | intros w0].
  apply triple_seq; [steady | intros _].
  apply triple_main_loop_from.
Qed.
End SelfStop2.

Section SelfStop3.
Context `{cv : OpenCV} `{fl : Float64}.

(** X15. A stale control button: when the worker, left alone, ends on its
    own (which it does after healing), the bot is stopped but the control
    button keeps the text it had, "STOP BOT" for a bot that was started
    from it; the next click on it starts the bot again, launching a new
    worker. *)
Theorem self_stop_leaves_button_stale (fuel bf : nat) (w : World)
    (img : Image) :
  quiet w ->
  running w = true ->
  button_text (trace w) = Some "STOP BOT" ->
  templates w !! "hp_bar" = Some img ->
  keyed (current_pp (config w)) -> keyed (max_pp (config w)) ->
  (forall k, k ∈ range_1_5 -> is_Some (pp_entries w !! k)) ->
  fst (main_loop fuel bf w) = Ok tt ->
  let w' := snd (main_loop fuel bf w) in
  running w' = false /\ state w' = STOPPED /\
  button_text (trace w') = Some "STOP BOT" /\
  exists w'',
    toggle_bot w' = (Ok tt, w'') /\
    running w'' = true /\
    workers_spawned (new_events w' w'') = 1%nat.
Proof.
  intros Hq Hr Hb Ht Hc Hm He Hok w'.
  pose proof (triple_main_loop (Some "STOP BOT") (templates w) (pp_entries w)
                fuel bf w) as H.
  rewrite Hok in H. fold w' in H.
  destruct H as [(Hq' & Hb' & Ht' & He' & Hc' & Hm' & Hr') Hs'];
    [by repeat split|].
  repeat apply conj; try assumption.
  destruct (toggle_bot_start w' img) as (cur' & mx' & ents' & Hrun & _);
    try assumption.
  { by rewrite Ht'. }
  { by rewrite He'. }
  eexists. split; [exact Hrun|]. split; [reflexivity|].
  erewrite new_events_app; [|reflexivity]. reflexivity.
Qed.
End SelfStop3.

(** ** Templates chosen in the file dialog *)

Section Persistence.
Context `{cv : OpenCV} `{fl : Float64}.

Lemma readable_written (fs : Files) (path p : string) (img : Image) :
  readable (written fs path img) p =
    if decide (p = path) then Some (recode fs path img) else readable fs p.
Proof. unfold readable, written. cbn. by case_decide. Qed.

(** X16. A template chosen in the file dialog is in use at once, whatever
    becomes of the copy. The copy goes under the name of its kind with the
    extension of the chosen file: when the codec has no encoder for that
    extension the callback raises and no file is written; when the file
    cannot be created the files stay as they were; otherwise the copy is
    written. Whether the next start of the program finds a written copy
    depends on the extension: as [.png] it is the template found; as
    [.jpg] it is found unless an [hp_bar.png] exists and decodes, which
    then wins; as [.jpeg] or [.bmp], which the dialog also offers, the
    copy is never looked for, and the next start finds what it would have
    found without it. *)
Theorem dialog_template_persistence (fs : Files) (filename ext : string)
    (img : Image) (w : World) :
  filename <> "" ->
  imread fs filename = Some img ->
  let path := "hp_bar" +:+ ext in
  let fs' := written fs path img in
  exists w',
    BotGUI_load_template fs "hp_bar" filename ext w =
      (if can_encode fs path
       then Ok (if writable fs path then fs' else fs)
       else Raise
              (External "could not find a writer for the specified extension"),
       w') /\
    templates w' !! "hp_bar" = Some img /\
    (ext = ".png" ->
     ImageDetector_init fs' !! "hp_bar" = Some (recode fs "hp_bar.png" img)) /\
    (ext = ".jpg" ->
     ImageDetector_init fs' !! "hp_bar" =
       match readable fs "hp_bar.png" with
       | Some old => Some old
       | None => Some (recode fs "hp_bar.jpg" img)
       end) /\
    (ext = ".jpeg" \/ ext = ".bmp" ->
     ImageDetector_init fs' !! "hp_bar" = ImageDetector_init fs !! "hp_bar").
Proof.
  intros Hne Himg path fs'. eexists. split.
  { unfold BotGUI_load_template, load_template.
    case_decide; [done|]. rewrite Himg.
    rewrite bind_assoc.
    change (bind (modify ?f) ?k w) with (k tt (f w)). cbv beta.
    change (bind (ret ?a) ?k ?W) with (k a W). cbv beta iota.
    unfold imwrite. fold path. fold fs'.
    destruct (can_encode fs path); reflexivity. }
  split; [cbn; by rewrite lookup_insert_eq|].
  subst fs' path. rewrite !load_templates_hp_bar, !readable_written.
  repeat apply conj.
  - intros ->. cbn. by case_decide.
  - intros ->. cbn. by repeat case_decide.
  - intros [-> | ->]; cbn; by repeat case_decide.
Qed.
End Persistence.

(** ** No exception at all with the timings of the scales *)

Section Calm.
Context `{cv : OpenCV} `{fl : Float64}.

Lemma calm_bind {A B} (m : M A) (k : A -> M B) :
  calm m -> (forall a, calm (k a)) -> calm (bind m k).
Proof.
  intros Hm Hk w Hw. destruct (Hm w Hw) as [HI Hr]. unfold bind.
  destruct (m w) as [[a | e |] w']; cbn [fst snd] in *.
  - by apply Hk.
  - split; [exact HI|]. intros [= ->]. by apply Hr.
  - by split.
Qed.

Lemma calm_bind_get {B} (k : World -> M B) :
  (forall w0, steady_clock w0 -> calm (k w0)) -> calm (bind get k).
Proof. intros Hk w Hw. change (bind get k w) with (k w w). by apply Hk. Qed.

Lemma calm_modify (f : World -> World) :
  (forall w, steady_clock w -> steady_clock (f w)) -> calm (modify f).
Proof. intros H w Hw. split; [by apply H | done]. Qed.

Lemma calm_ret {A} (a : A) : calm (ret a).
Proof. intros w Hw. by split. Qed.

Lemma calm_raise {A} (e : Exn) : e <> ValueError -> calm (@raise _ A e).
Proof. intros He w Hw. split; [exact Hw|]. cbn. congruence. Qed.

Lemma calm_ret_bind {A B} (a : A) (k : A -> M B) :
  calm (k a) -> calm (bind (ret a) k).
Proof. intros H. exact H. Qed.

Lemma calm_assoc {A B C} (m : M A) (f : A -> M B) (g : B -> M C) :
  calm (bind m (fun x => bind (f x) g)) -> calm (bind (bind m f) g).
Proof. intros H w Hw. rewrite bind_assoc. by apply H. Qed.

Lemma calm_out_of_fuel {A} : calm (@out_of_fuel _ A).
Proof. intros w Hw. by split. Qed.

Lemma calm_for_each {A} (xs : list A) (body : A -> M unit) :
  (forall x, calm (body x)) -> calm (for_each xs body).
Proof.
  intros H. induction xs as [|x xs IH]; simpl.
  - apply calm_ret.
  - apply calm_bind; [apply H | intros _; exact IH].
Qed.

Lemma calm_detect (name : string) (thr : Q) : calm (detect name thr).
Proof.
  intros w Hw. destruct (detect_outcome name thr w) as (b & evs & dg & ->).
  split; [exact Hw | done].
Qed.

Lemma calm_dict_get (d : gmap Z Z) (k : Z) : calm (dict_get d k).
Proof.
  unfold dict_get. destruct (d !! k); [apply calm_ret|].
  by apply calm_raise.
Qed.
End Calm.

(** Proves [hoare I m I] for a computation that writes nothing [I] speaks
    of. *)
Ltac framed :=
  lazymatch goal with
  | |- hoare _ (bind _ _) _ => apply hoare_seq; [framed | intros ?; framed]
  | |- hoare _ (try_except _ _) _ =>
      apply hoare_catch; [framed | intros ?; framed]
  | |- hoare _ (for_each _ _) _ => apply hoare_for_each; intros ? _; framed
  | |- hoare _ (match ?x with _ => _ end) _ => destruct x; framed
  | |- hoare _ ?m _ =>
      first [ by (let H := fresh in intros ? H; exact H)
            | let h := head_of m in unfold h; framed ]
  end.

Section Calm2.
Context `{cv : OpenCV} `{fl : Float64}.

Lemma steady_callback (a : GuiAction) :
  on_scale a -> hoare steady_clock (callback a) steady_clock.
Proof.
  intros Ha. destruct a; cbn [callback]; try framed;
    intros w (H1 & H2 & H3 & H4 & H5); by repeat split.
Qed.

Lemma due_on_scale (t : nat) (g : list (nat * GuiAction)) :
  Forall (fun c => on_scale (snd c)) g -> Forall on_scale (due t g).
Proof.
  unfold due. induction 1 as [|c g Hc Hg IH]; [constructor|].
  rewrite filter_cons. case_decide; simpl; [by constructor | exact IH].
Qed.

Lemma steady_callbacks (l : list GuiAction) (w : World) :
  Forall on_scale l -> steady_clock w ->
  steady_clock (fold_left run_callback l w).
Proof.
  intros Hl. revert w. induction Hl as [|a l Ha Hl IH]; intros w Hw; simpl.
  - exact Hw.
  - apply IH. by apply steady_callback.
Qed.

Lemma calm_sleep (q : Q) : calm (sleep q).
Proof.
  intros w Hw. split; [|done]. unfold sleep. cbn [snd].
  assert (steady_clock
            (fold_left run_callback (due (ticks w) (gui w))
               (set_trace (trace w ++ [Sleep q]) w))) as H.
  { apply steady_callbacks; [|exact Hw].
    apply due_on_scale. by destruct Hw as (_ & _ & _ & _ & ?). }
  exact H.
Qed.

Lemma calm_time_sleep (q : Q) : (0 <= q)%Q -> calm (time_sleep q).
Proof.
  intros Hq. unfold time_sleep.
  rewrite (proj2 (Qle_bool_iff 0 q) Hq). apply calm_sleep.
Qed.
End Calm2.

(** Proves [calm m] by the structure of [m]; a computed duration is left
    to the caller. *)
Ltac quietly :=
  lazymatch goal with
  | |- calm (bind get _) =>
      apply calm_bind_get; intros ? ?; quietly
  | |- calm (bind (ret _) _) => apply calm_ret_bind; cbv beta; quietly
  | |- calm (bind spaces _) => unfold spaces; quietly
  | |- calm (bind (bind _ _) _) => apply calm_assoc; cbv beta; quietly
  | |- calm (bind _ _) => apply calm_bind; [quietly | intros ?; quietly]
  | |- calm (for_each _ _) => apply calm_for_each; intros ?; quietly
  | |- calm (modify _) =>
      apply calm_modify; let H := fresh in
      intros ? H;
      first [ exact H
            | destruct H as (? & ? & ? & ? & ?); repeat split; assumption ]
  | |- calm (ret _) => apply calm_ret
  | |- calm out_of_fuel => apply calm_out_of_fuel
  | |- calm (raise _) => apply calm_raise; discriminate
  | |- calm (dict_get _ _) => apply calm_dict_get
  | |- calm (sleep _) => apply calm_sleep
  | |- calm (time_sleep _) => apply calm_time_sleep
  | |- calm (move _ _) => idtac
  | |- calm (detect _ _) => apply calm_detect
  | |- calm (match ?x with _ => _ end) => destruct x; quietly
  | |- calm ?m =>
      first [ assumption | let h := head_of m in unfold h; quietly ]
  end.

Section Calm3.
Context `{cv : OpenCV} `{fl : Float64}.

Lemma hold_time_accepted (w : World) (n : Z) (turn : bool) :
  keeps_sign -> steady_clock w -> 0 <= n ->
  (0 <= hold_time (config w) n turn)%Q.
Proof.
  intros (Hadd & Hmul & Hint) (Hs & Ht & _) Hn. unfold hold_time.
  apply Hadd; [by destruct turn | apply Hmul; [exact Hs | by apply Hint]].
Qed.

Lemma calm_move (d : Direction) (n : Z) :
  keeps_sign -> 0 <= n -> calm (move d n).
Proof.
  intros Hk Hn. unfold move. apply calm_bind_get. intros w0 Hw0. cbv zeta.
  pose proof (hold_time_accepted w0 n true Hk Hw0 Hn) as Ht.
  pose proof (hold_time_accepted w0 n false Hk Hw0 Hn) as Hf.
  unfold hold_time in Ht, Hf.
  pose proof Hw0 as (_ & _ & _ & Hsp & _).
  destruct (decide (current_direction (movement_controller w0) <> d));
    quietly; assumption.
Qed.

Lemma calm_move_cycle : keeps_sign -> calm move_cycle.
Proof.
  intros Hk. unfold move_cycle. apply calm_bind_get. intros w0 Hw0.
  repeat case_decide; quietly;
    (apply calm_move; [exact Hk|]);
    lazymatch goal with
    | H : steady_clock ?w |- 0 <= spaces_to_move (movement_controller ?w) =>
        by destruct H as (_ & _ & _ & ? & _)
    end.
Qed.

Lemma calm_handle_battle (fuel : nat) : calm (handle_battle fuel).
Proof. induction fuel as [|fuel IH]; cbn [handle_battle]; quietly. Qed.

Lemma calm_main_loop_body (bf : nat) :
  keeps_sign -> calm (main_loop_body bf).
Proof.
  intros Hk.
  pose proof (calm_handle_battle bf) as Hb.
  pose proof (calm_move_cycle Hk) as Hm.
  unfold main_loop_body. quietly.
  lazymatch goal with H : steady_clock _ |- _ => by destruct H as (_ & _ & ? & _) end.
Qed.

Lemma calm_main_loop (fuel bf : nat) : keeps_sign -> calm (main_loop fuel bf).
Proof.
  intros Hk. pose proof (calm_main_loop_body bf Hk) as Hb.
  assert (calm (main_loop_from fuel bf)) as Hl
    by (induction fuel as [|fuel IH]; cbn [main_loop_from]; quietly).
  unfold main_loop. quietly.
Qed.

(** X17. With the timings of the scales the worker never dies at all: if
    the float operations give nothing negative from what is not negative,
    no timing and no number of spaces is negative, the sliders moved
    during the run stay on their scales, and the PP tables have their
    keys, then no run of the main loop raises, whatever the screens show
    and however long it runs; and all of this still holds afterwards. *)
Theorem worker_never_raises_on_scale (fuel bf : nat) (w : World) :
  keeps_sign ->
  in_table w ->
  steady_clock w ->
  (forall e, fst (main_loop fuel bf w) <> Raise e) /\
  in_table (snd (main_loop fuel bf w)) /\
  steady_clock (snd (main_loop fuel bf w)).
Proof.
  intros Hk Ht Hs.
  destruct (sure_main_loop fuel bf w Ht) as [HI Hr].
  destruct (calm_main_loop fuel bf Hk w Hs) as [HS Hc].
  split; [|by split].
  intros e He. rewrite He in Hr, Hc. by subst e.
Qed.
End Calm3.

(** Rounding to the nearest binary64 number keeps the sign. *)
Lemma round_half_even_nonneg (q : Q) : (0 <= q)%Q -> 0 <= round_half_even q.
Proof.
  intros Hq. unfold round_half_even.
  assert (0 <= Qnum q) as Hn.
  { unfold Qle in Hq. cbn in Hq. lia. }
  pose proof (Z.div_pos (Qnum q) (Z.pos (Qden q)) Hn ltac:(lia)) as Hd.
  destruct (2 * (Qnum q mod Z.pos (Qden q)) ?= Z.pos (Qden q)); try lia.
  destruct (Z.even _); lia.
Qed.

Lemma pow2_nonneg (e : Z) : (0 <= pow2 e)%Q.
Proof.
  unfold pow2. destruct (0 <=? e) eqn:He.
  - apply Z.leb_le in He. unfold Qle. cbn.
    pose proof (Z.pow_nonneg 2 e ltac:(lia)). lia.
  - unfold Qle. cbn. lia.
Qed.

Lemma round64_nonneg (q : Q) : (0 <= q)%Q -> (0 <= round64 q)%Q.
Proof.
  intros Hq. unfold round64. destruct (Qeq_bool q 0); [apply Qle_refl|].
  cbv zeta. rewrite Qred_correct.
  rewrite (proj2 (Qle_bool_iff 0 q) Hq).
  repeat apply Qmult_le_0_compat; try apply pow2_nonneg; [done|].
  change 0%Q with (inject_Z 0). rewrite <- Zle_Qle.
  apply round_half_even_nonneg.
  apply Qmult_le_0_compat; [apply Qabs_nonneg | apply pow2_nonneg].
Qed.

Lemma binary64_keeps_sign : @keeps_sign binary64.
Proof.
  repeat split; cbn; intros.
  - apply round64_nonneg.
    apply (Qle_trans _ (0 + 0)); [apply Qle_refl | by apply Qplus_le_compat].
  - apply round64_nonneg. by apply Qmult_le_0_compat.
  - apply round64_nonneg. change 0%Q with (inject_Z 0). by rewrite <- Zle_Qle.
Qed.


(** * The properties on concrete worlds *)

(** C1 at [w_spent]: primary spent, backup disabled. *)
Lemma get_ability_to_use_sound_witness :
  exists r,
    get_ability_to_use w_spent = (Ok r, w_spent) /\
    (forall a, r = Some a ->
       (a = selected_ability (config w_spent) \/
        use_backup (config w_spent) = true /\
        a = backup_ability (config w_spent)) /\
       exists v, current_pp (config w_spent) !! a = Some v /\ v <> 0) /\
    (r = None <->
       current_pp (config w_spent) !! selected_ability (config w_spent)
         = Some 0 /\
       (use_backup (config w_spent) = false \/
        current_pp (config w_spent) !! backup_ability (config w_spent)
          = Some 0)).
Proof.
  apply (get_ability_to_use_sound w_spent).
  - unfold nonneg_counters. compute_done.
  - vm_compute. eauto.
  - vm_compute. discriminate.
Defined.

(** C2, as stated, fails at [w_spent]: the scenario holds there (running,
    [Moving], battle and menu detected, primary at 0, backup and escalation
    disabled) and the pass goes through [Attacking], because abilities 2 to
    4 still have uses. *)
Lemma flee_passes_through_attacking :
  running w_spent = true /\ state w_spent = MOVING /\ quiet w_spent /\
  current_pp (config w_spent) !! selected_ability (config w_spent) = Some 0 /\
  use_backup (config w_spent) = false /\
  use_abra_teleport (config w_spent) = false /\
  seen w_spent (grabs w_spent) "hp_bar" = true /\
  seen w_spent (S (grabs w_spent)) "hp_bar" = true /\
  seen w_spent (S (S (grabs w_spent))) "battle_menu" = true /\
  fst (main_loop_body 1 w_spent) = Ok Continue /\
  states_of (new_events w_spent (snd (main_loop_body 1 w_spent))) =
    [IN_BATTLE; ATTACKING; RUNNING; MOVING].
Proof. vm_compute. repeat split. Qed.

(** With every counter at 0 the pass skips [Attacking]. *)
Example flee_skips_attacking_when_empty :
  fst (main_loop_body 1 w_empty) = Ok Continue /\
  states_of (new_events w_empty (snd (main_loop_body 1 w_empty))) =
    [IN_BATTLE; RUNNING; RUNNING; MOVING].
Proof. vm_compute. repeat split. Qed.

(** C2, amended, at [w_spent]. *)
Lemma flee_when_depleted_witness :
  exists w' evs,
    main_loop_body 1 w_spent = (Ok Continue, w') /\
    trace w' = trace w_spent ++ evs /\
    states_of evs =
      [IN_BATTLE;
       if any_positive (current_pp (config w_spent)) then ATTACKING
       else RUNNING;
       RUNNING; MOVING] /\
    presses_of evs = ["up"; "down"; "right"; "z"] /\
    runs (stats w') = runs (stats w_spent) + 1 /\
    battles (stats w') = battles (stats w_spent) + 1 /\
    state w' = MOVING /\
    config w' = config w_spent.
Proof.
  apply (flee_when_depleted 0 w_spent); vm_compute; reflexivity.
Defined.

(** C3 on two captures: the loaded template is found on the battle
    screen, and a failing capture reads as not detected. *)
Lemma detect_fails_closed_witness :
  fst (detect "hp_bar" 0.8 w_started) = Ok true /\
  fst (detect "hp_bar" 0.8
         (set_grabs 0 (snd (toggle_bot
            (@BotGUI_init toy_cv toy_templates (fun _ => broken_screen) [])))))
    = Ok false /\
  fst (detect "pokeball" 0.8 w_started) = Ok false.
Proof.
  destruct (detect_fails_closed "hp_bar" 0.8 w_started) as (b & w' & E & _).
  rewrite E. vm_compute in E. injection E as <- _.
  vm_compute. repeat split.
Defined.

(** C4 at [w_started]: the first fight takes ability 1 from 20 to 19. *)
Lemma fight_spends_one_use_witness :
  exists v w',
    select_fight_and_ability None w_started = (Ok true, w') /\
    current_pp (config w_started) !! 1 = Some v /\
    current_pp (config w') !! 1 = Some (v - 1) /\
    (forall b, b <> 1 ->
       current_pp (config w') !! b = current_pp (config w_started) !! b) /\
    max_pp (config w') = max_pp (config w_started).
Proof.
  apply (proj1 fight_spends_one_use w_started 1); vm_compute; reflexivity.
Defined.

(** C5, as stated, fails twice. With -1 spaces the hold time is negative:
    the key goes down, [time.sleep] raises and the key is never released,
    so nothing is held for that time. And at [w_fine_steps], with a
    positive per-tile time, one space and two spaces are held for the same
    time: the per-tile time is lost in the rounding of the sum. *)
Lemma hold_time_fails_to_grow :
  (hold_time (config w_started) (-1) true < 0)%Q /\
  move RIGHT (-1) w_started =
    (Raise ValueError,
     set_trace (trace w_started ++ [KeyDown "right"])
       (set_movement
          {| pattern := "horizontal"; current_direction := RIGHT;
             spaces_to_move := 1 |} w_started)) /\
  (0 < time_per_space (config w_fine_steps))%Q /\
  hold_time (config w_fine_steps) 1 true =
    hold_time (config w_fine_steps) 2 true /\
  new_events w_fine_steps (snd (move RIGHT 1 w_fine_steps)) =
    new_events w_fine_steps (snd (move RIGHT 2 w_fine_steps)).
Proof. vm_compute. repeat split. Qed.

(** C5 at [w_started], which faces left: two tiles to the right. *)
Lemma move_cost_and_facing_witness :
  let turn :=
    bool_decide (current_direction (movement_controller w_started) <> RIGHT) in
  let held := hold_time (config w_started) 2 turn in
  ((0 <= held)%Q ->
   exists w',
     move RIGHT 2 w_started = (Ok tt, w') /\
     trace w' =
       trace w_started ++
       [KeyDown (direction_keys RIGHT); Sleep held;
        KeyUp (direction_keys RIGHT); Sleep 0.1] /\
     current_direction (movement_controller w') = RIGHT) /\
  ((held < 0)%Q ->
   exists w',
     move RIGHT 2 w_started = (Raise ValueError, w') /\
     trace w' = trace w_started ++ [KeyDown (direction_keys RIGHT)] /\
     current_direction (movement_controller w') = RIGHT) /\
  @hold_time exact_arith (config w_started) 2 turn =
    spec_cost (time_to_turn (config w_started))
      (time_per_space (config w_started))
      RIGHT 2 (current_direction (movement_controller w_started)) /\
  (forall n',
     (0 < time_per_space (config w_started))%Q -> 2 < n' ->
     (spec_cost (time_to_turn (config w_started))
        (time_per_space (config w_started)) RIGHT 2
        (current_direction (movement_controller w_started)) <
      spec_cost (time_to_turn (config w_started))
        (time_per_space (config w_started)) RIGHT n'
        (current_direction (movement_controller w_started)))%Q).
Proof.
  apply (move_cost_and_facing RIGHT 2 w_started). vm_compute. reflexivity.
Defined.

(** C6 at [w_last_use], where the travel check sees no battle: the worker
    loop exits. *)
Lemma recovery_after_flee_witness :
  seen w_last_use (S (S (S (grabs w_last_use)))) "hp_bar" = false /\
  exists w' evs,
    trace w' = trace w_last_use ++ evs /\
    runs (stats w') = runs (stats w_last_use) + 1 /\
    max_pp (config w') = max_pp (config w_last_use) /\
    if seen w_last_use (S (S (S (grabs w_last_use)))) "hp_bar"
    then
      main_loop_from (S 0) (S 0) w_last_use = main_loop_from 0 (S 0) w' /\
      state w' = MOVING /\
      running w' = true /\
      states_of evs =
        [IN_BATTLE;
         if any_positive (current_pp (config w_last_use)) then ATTACKING
         else RUNNING;
         RUNNING; MOVING] /\
      presses_of evs = ["up"; "down"; "right"; "z"] /\
      current_pp (config w') = current_pp (config w_last_use)
    else
      main_loop_from (S 0) (S 0) w_last_use = (Ok tt, w') /\
      state w' = STOPPED /\
      running w' = false /\
      states_of evs =
        [IN_BATTLE;
         if any_positive (current_pp (config w_last_use)) then ATTACKING
         else RUNNING;
         RUNNING; TELEPORTING; HEALING; STOPPED] /\
      presses_of evs =
        ["up"; "down"; "right"; "z"; "9"; "z"; "z"; "z"; "z"; "z"] /\
      forall i, 1 <= i <= 4 ->
        current_pp (config w') !! i = max_pp (config w') !! i.
Proof.
  split; [vm_compute; reflexivity|].
  apply (proj1 (recovery_after_flee 0 0 w_last_use
                  ltac:(vm_compute; reflexivity)
                  ltac:(vm_compute; reflexivity)
                  ltac:(intros i Hi;
                        destruct (one_to_four i Hi) as [-> | [-> | [-> | ->]]];
                        vm_compute; eauto)));
    vm_compute; reflexivity.
Defined.

(** In front of a battle the travel is given up: nothing is pressed and
    the state falls back to [Moving]. *)
Example recovery_abandoned_in_battle :
  fst (after_battle "run" w_cornered) = Ok Continue /\
  state (snd (after_battle "run" w_cornered)) = MOVING /\
  presses_of (new_events w_cornered (snd (after_battle "run" w_cornered)))
    = [] /\
  states_of (new_events w_cornered (snd (after_battle "run" w_cornered)))
    = [RUNNING; MOVING].
Proof. vm_compute. repeat split. Qed.

(** The whole recovery run from [w_last_use]: the worker flees, travels,
    heals, stops and ends. *)
Example recovery_run_stops :
  fst (main_loop 2 2 w_last_use) = Ok tt /\
  state (snd (main_loop 2 2 w_last_use)) = STOPPED /\
  running (snd (main_loop 2 2 w_last_use)) = false /\
  states_of (new_events w_last_use (snd (main_loop 2 2 w_last_use))) =
    [IN_BATTLE; ATTACKING; RUNNING; TELEPORTING; HEALING; STOPPED] /\
  current_pp (config (snd (main_loop 2 2 w_last_use))) = default_max_pp.
Proof. vm_compute. repeat split. Qed.

(** C9 at [bare_gui]. *)
Lemma start_refused_without_hp_bar_witness :
  toggle_bot bare_gui =
    (Ok tt,
     set_trace (trace bare_gui ++ [StatusLabel "Load HP Bar image first!"])
       bare_gui) /\
  state (snd (toggle_bot bare_gui)) = state bare_gui /\
  running (snd (toggle_bot bare_gui)) = false /\
  states_of (trace (snd (toggle_bot bare_gui))) = states_of (trace bare_gui) /\
  workers_spawned (trace (snd (toggle_bot bare_gui))) =
    workers_spawned (trace bare_gui).
Proof.
  apply (start_refused_without_hp_bar bare_gui); vm_compute; reflexivity.
Defined.

(** C10 at [w_spent]: an explicit fight on the spent ability 1 leaves its
    counter at -1. *)
Lemma explicit_fight_is_unguarded_witness :
  exists w',
    select_fight_and_ability (Some 1) w_spent = (Ok true, w') /\
    current_pp (config w') !! 1 = Some (-1).
Proof.
  destruct (explicit_fight_is_unguarded 1 0 w_spent) as
    [(w' & evs & E & _ & _ & _ & _ & Hneg) _];
    [vm_compute; reflexivity | lia | vm_compute; reflexivity |].
  exists w'. split; [exact E | apply Hneg; reflexivity].
Defined.

(** C7 speaks of a worker that is the only one. Such runs exist: at
    [w_stop_mid_battle] the control button stops the worker and nothing
    starts another. *)
Example lone_worker_run :
  single_worker w_stop_mid_battle (snd (main_loop 3 3 w_stop_mid_battle)).
Proof. split; vm_compute; [lia | reflexivity]. Qed.

(** C8, as stated, fails at [w_stop_mid_battle]: the stop lands while the
    worker waits out the first turn; the worker then polls three more
    times, plays a whole fight script, waits out the turn, polls again and
    assigns [Moving] before it reads the flag and ends. *)
Lemma worker_polls_after_stop :
  fst (main_loop 3 3 w_stop_mid_battle) = Ok tt /\
  running (snd (main_loop 3 3 w_stop_mid_battle)) = false /\
  after_stop (trace (snd (main_loop 3 3 w_stop_mid_battle))) =
    [ControlButton "START BOT"; StatusLabel "Status: Stopped";
     Grab; Grab; Grab;
     Press "up"; Sleep 0.1; Press "z"; Sleep 0.3;
     Press "up"; Sleep 0.1; Press "up"; Sleep 0.1;
     Press "left"; Sleep 0.1; Press "z"; Sleep 0.3;
     Sleep 11.0; Grab; SetState MOVING; Sleep 0.1].
Proof. vm_compute. repeat split. Qed.

(** C8, amended, at the world that run ends in: flag cleared, the loop
    ends at once. *)
Lemma stop_checked_at_loop_top_only_witness :
  main_loop_from 3 3 (snd (main_loop 3 3 w_stop_mid_battle)) =
    (Ok tt, snd (main_loop 3 3 w_stop_mid_battle)).
Proof.
  apply (proj1 stop_checked_at_loop_top_only). vm_compute. reflexivity.
Defined.
(** * The further properties on concrete worlds *)

Lemma keyed_of_lookups (d : gmap Z Z) (v1 v2 v3 v4 : Z) :
  d !! 1 = Some v1 -> d !! 2 = Some v2 -> d !! 3 = Some v3 ->
  d !! 4 = Some v4 -> keyed d.
Proof.
  intros H1 H2 H3 H4 k Hk.
  destruct (range_1_5_cases k Hk) as [-> | [-> | [-> | ->]]]; by eexists.
Qed.

Lemma entries_of_lookups (d : gmap Z (option Z)) (e1 e2 e3 e4 : option Z) :
  d !! 1 = Some e1 -> d !! 2 = Some e2 -> d !! 3 = Some e3 ->
  d !! 4 = Some e4 -> forall k, k ∈ range_1_5 -> is_Some (d !! k).
Proof.
  intros H1 H2 H3 H4 k Hk.
  destruct (range_1_5_cases k Hk) as [-> | [-> | [-> | ->]]]; by eexists.
Qed.

(** X1 at [w_nobackup]: twenty uses on the primary, no backup. *)
Lemma battle_ends_in_flight_when_pp_runs_out_witness :
  exists w',
    handle_battle (S 20 + 0) w_nobackup = (Ok "run", w') /\
    current_pp (config w') =
      <[selected_ability (config w_nobackup) := 0]>
        (current_pp (config w_nobackup)) /\
    max_pp (config w') = max_pp (config w_nobackup) /\
    grabs w' = (grabs w_nobackup + 3 * 20 + 2)%nat.
Proof.
  destruct (battle_ends_in_flight_when_pp_runs_out 20 0 0 w_nobackup)
    as [H _].
  - reflexivity.
  - intros k. vm_compute. reflexivity.
  - intros k. vm_compute. reflexivity.
  - vm_compute. reflexivity.
  - apply H. reflexivity.
Defined.

(** X2 at [w_no_menu_template]. *)
Lemma battle_loop_spins_while_menu_hidden_witness :
  exists w',
    handle_battle 5 w_no_menu_template = (OutOfFuel, w') /\
    presses_of (trace w') = presses_of (trace w_no_menu_template) /\
    config w' = config w_no_menu_template /\
    ticks w' = (ticks w_no_menu_template + 5)%nat.
Proof.
  apply (battle_loop_spins_while_menu_hidden 5 w_no_menu_template).
  - reflexivity.
  - intros k. vm_compute. reflexivity.
  - intros k. vm_compute. reflexivity.
Defined.

(** X3 at [w_stop_mid_battle], where the one click to come stops the
    worker. *)
Lemma statistics_only_grow_witness :
  let s := stats w_stop_mid_battle in
  let s' := stats (snd (main_loop 3 3 w_stop_mid_battle)) in
  movements s <= movements s' /\
  battles s <= battles s' /\
  runs s <= runs s' /\
  runs s' - runs s <= battles s' - battles s.
Proof.
  apply (statistics_only_grow 3 3 w_stop_mid_battle).
  split; vm_compute; [lia | reflexivity].
Defined.

(** X4 at [w_spent], where the primary ability is at 0. *)
Lemma reset_pp_refills_witness :
  exists cur',
    reset_pp w_spent =
      (Ok tt, set_config (with_current_pp cur' (config w_spent)) w_spent) /\
    (forall k, k ∈ range_1_5 -> cur' !! k = max_pp (config w_spent) !! k) /\
    (forall k, k ∉ range_1_5 ->
       cur' !! k = current_pp (config w_spent) !! k) /\
    reset_pp (set_config (with_current_pp cur' (config w_spent)) w_spent) =
      (Ok tt, set_config (with_current_pp cur' (config w_spent)) w_spent).
Proof.
  apply (reset_pp_refills w_spent).
  eapply keyed_of_lookups; vm_compute; reflexivity.
Defined.

(** X5 at [w_typo]: the second entry holds no number. *)
Lemma update_pp_commits_witness :
  exists cur' mx' ents',
    update_pp 2 w_typo = (Ok tt, with_pp cur' mx' ents' w_typo) /\
    (forall k, cur' !! k =
       if decide (k = 2) then committed None (current_pp (config w_typo) !! k)
       else current_pp (config w_typo) !! k) /\
    (forall k, mx' !! k =
       if decide (k = 2) then committed None (max_pp (config w_typo) !! k)
       else max_pp (config w_typo) !! k) /\
    (forall k, ents' !! k =
       if decide (k = 2)
       then Some (match @None Z with
                  | Some v => Some v
                  | None => max_pp (config w_typo) !! 2
                  end)
       else pp_entries w_typo !! k).
Proof.
  apply (update_pp_commits 2 None w_typo).
  - unfold range_1_5. repeat constructor.
  - eapply keyed_of_lookups; vm_compute; reflexivity.
  - eapply keyed_of_lookups; vm_compute; reflexivity.
  - vm_compute. reflexivity.
Defined.

(** X6 at [fresh_gui]. *)
Lemma start_commits_entries_witness :
  exists w',
    toggle_bot fresh_gui = (Ok tt, w') /\
    running w' = true /\ state w' = MOVING /\
    new_events fresh_gui w' =
      [SetState MOVING; SpawnWorker; ControlButton "STOP BOT";
       StatusLabel "Status: Running"] /\
    (forall k e, k ∈ range_1_5 -> pp_entries fresh_gui !! k = Some e ->
       current_pp (config w') !! k =
         committed e (current_pp (config fresh_gui) !! k) /\
       max_pp (config w') !! k =
         committed e (max_pp (config fresh_gui) !! k)) /\
    stats w' = stats fresh_gui /\
    movement_controller w' = movement_controller fresh_gui.
Proof.
  apply (start_commits_entries fresh_gui [hp_glyph]).
  - reflexivity.
  - vm_compute. reflexivity.
  - eapply keyed_of_lookups; vm_compute; reflexivity.
  - eapply keyed_of_lookups; vm_compute; reflexivity.
  - eapply entries_of_lookups; vm_compute; reflexivity.
Defined.

(** X7 at [w_started], which faces left. *)
Lemma move_cycle_round_trip_witness :
  let c := config w_started in
  let n := spaces_to_move (movement_controller w_started) in
  exists w',
    move_cycle w_started = (Ok tt, w') /\
    new_events w_started w' =
      leg c LEFT
        (bool_decide (current_direction (movement_controller w_started)
                      <> LEFT)) n
      ++ leg c RIGHT true n /\
    config w' = c /\
    movement_controller w' =
      {| pattern := pattern (movement_controller w_started);
         current_direction := RIGHT;
         spaces_to_move := n |} /\
    exists w'',
      move_cycle w' = (Ok tt, w'') /\
      new_events w' w'' = leg c LEFT true n ++ leg c RIGHT true n /\
      movement_controller w'' = movement_controller w'.
Proof.
  apply (move_cycle_round_trip w_started LEFT RIGHT).
  - reflexivity.
  - vm_compute. reflexivity.
  - intros [|]; vm_compute; discriminate.
Defined.

(** X8 at [w_started], switched to the vertical pattern. *)
Lemma set_pattern_then_cycle_witness :
  exists w',
    bind (set_pattern "vertical") (fun _ => move_cycle) w_started =
      (Ok tt, w') /\
    new_events w_started w' =
      leg (config w_started) UP false
        (spaces_to_move (movement_controller w_started)) ++
      leg (config w_started) DOWN true
        (spaces_to_move (movement_controller w_started)) /\
    current_direction (movement_controller w') = DOWN.
Proof.
  apply (set_pattern_then_cycle "vertical" w_started UP DOWN).
  - reflexivity.
  - vm_compute. reflexivity.
  - intros [|]; vm_compute; discriminate.
Defined.

(** X9 at [w_escalating], a started bot on the overworld. *)
Lemma movement_pass_witness :
  exists w',
    main_loop_body 0 w_escalating = (Ok Continue, w') /\
    stats w' = {| movements := movements (stats w_escalating) + 1;
                  battles := battles (stats w_escalating);
                  runs := runs (stats w_escalating) |} /\
    key_events (new_events w_escalating w') =
      match legs_of (pattern (movement_controller w_escalating)) with
      | Some (d1, d2) =>
          [KeyDown (direction_keys d1); KeyUp (direction_keys d1);
           KeyDown (direction_keys d2); KeyUp (direction_keys d2)]
      | None => []
      end /\
    state w' = MOVING /\ config w' = config w_escalating /\
    running w' = running w_escalating.
Proof.
  apply (proj1 (movement_pass 0 w_escalating eq_refl eq_refl eq_refl)).
  - intros _ [|]; vm_compute; discriminate.
  - vm_compute. discriminate.
Defined.

(** X10 at [w_stop_mid_battle], where a click is to come. *)
Lemma worker_never_raises_witness :
  (forall e, fst (main_loop 3 3 w_stop_mid_battle) = Raise e ->
             e = ValueError) /\
  in_table (snd (main_loop 3 3 w_stop_mid_battle)).
Proof.
  apply (worker_never_raises 3 3 w_stop_mid_battle).
  apply in_table_toggle_bot, in_table_init. repeat constructor.
Defined.

(** The clock's [ValueError] does occur: at [w_negative_delay] the worker
    dies after its first movement cycle. *)
Example worker_dies_of_negative_delay :
  in_table w_negative_delay /\
  fst (main_loop 1 0 w_negative_delay) = Raise ValueError /\
  movements (stats (snd (main_loop 1 0 w_negative_delay))) = 1.
Proof.
  split; [|vm_compute; by split].
  apply (in_table_callback (SlideDelay (-1)) I).
  apply (in_table_callback (CheckTeleport true) I).
  apply in_table_toggle_bot, in_table_init. constructor.
Qed.

(** X12 at [w_double_click]. *)
Lemma quick_restart_spawns_second_worker_witness :
  exists w',
    sleep 3 w_double_click = (Ok tt, w') /\
    running w' = true /\
    new_events w_double_click w' =
      [Sleep 3;
       SetState STOPPED; ControlButton "START BOT";
       StatusLabel "Status: Stopped";
       SetState MOVING; SpawnWorker; ControlButton "STOP BOT";
       StatusLabel "Status: Running"] /\
    forall fuel bf,
      main_loop_from (S fuel) bf w' =
        bind (main_loop_body bf)
          (fun returned =>
             match returned with
             | Return => ret tt
             | Continue => main_loop_from fuel bf
             end) w'.
Proof.
  apply (quick_restart_spawns_second_worker 3 w_double_click [hp_glyph]).
  - reflexivity.
  - vm_compute. reflexivity.
  - eapply keyed_of_lookups; vm_compute; reflexivity.
  - eapply keyed_of_lookups; vm_compute; reflexivity.
  - eapply entries_of_lookups; vm_compute; reflexivity.
  - vm_compute. reflexivity.
Defined.

(** X14 at [w_one_hit]. *)
Lemma won_battle_pass_witness :
  exists w' v,
    main_loop_body (S 0) w_one_hit = (Ok Continue, w') /\
    current_pp (config w_one_hit) !! 1 = Some v /\ 0 < v /\
    current_pp (config w') = <[1 := v - 1]> (current_pp (config w_one_hit)) /\
    max_pp (config w') = max_pp (config w_one_hit) /\
    stats w' = {| movements := movements (stats w_one_hit);
                  battles := battles (stats w_one_hit) + 1;
                  runs := runs (stats w_one_hit) |} /\
    states_of (new_events w_one_hit w') = [IN_BATTLE; ATTACKING; MOVING] /\
    state w' = MOVING /\ running w' = running w_one_hit.
Proof.
  apply (won_battle_pass 0 w_one_hit 1).
  - reflexivity.
  - vm_compute. reflexivity.
  - vm_compute. reflexivity.
  - vm_compute. reflexivity.
  - vm_compute. reflexivity.
  - vm_compute. reflexivity.
Defined.

(** X15 at [w_last_use]: the worker flees, travels, heals and stops. *)
Lemma self_stop_leaves_button_stale_witness :
  let w' := snd (main_loop 1 1 w_last_use) in
  running w' = false /\ state w' = STOPPED /\
  button_text (trace w') = Some "STOP BOT" /\
  exists w'',
    toggle_bot w' = (Ok tt, w'') /\
    running w'' = true /\
    workers_spawned (new_events w' w'') = 1%nat.
Proof.
  apply (self_stop_leaves_button_stale 1 1 w_last_use [hp_glyph]).
  - reflexivity.
  - reflexivity.
  - vm_compute. reflexivity.
  - vm_compute. reflexivity.
  - eapply keyed_of_lookups; vm_compute; reflexivity.
  - eapply keyed_of_lookups; vm_compute; reflexivity.
  - eapply entries_of_lookups; vm_compute; reflexivity.
  - vm_compute. reflexivity.
Defined.

(** X16 at [toy_files]: the bitmap is chosen for a panel that found no
    template. *)
Lemma dialog_template_persistence_witness :
  let path := "hp_bar" +:+ ".bmp" in
  let fs' := written toy_files path [hp_glyph] in
  exists w',
    BotGUI_load_template toy_files "hp_bar" "shot.bmp" ".bmp" bare_gui =
      (if can_encode toy_files path
       then Ok (if writable toy_files path then fs' else toy_files)
       else Raise
              (External "could not find a writer for the specified extension"),
       w') /\
    templates w' !! "hp_bar" = Some [hp_glyph] /\
    (".bmp" = ".png" ->
     ImageDetector_init fs' !! "hp_bar" =
       Some (recode toy_files "hp_bar.png" [hp_glyph])) /\
    (".bmp" = ".jpg" ->
     ImageDetector_init fs' !! "hp_bar" =
       match readable toy_files "hp_bar.png" with
       | Some old => Some old
       | None => Some (recode toy_files "hp_bar.jpg" [hp_glyph])
       end) /\
    (".bmp" = ".jpeg" \/ ".bmp" = ".bmp" ->
     ImageDetector_init fs' !! "hp_bar" =
       ImageDetector_init toy_files !! "hp_bar").
Proof.
  apply (dialog_template_persistence toy_files "shot.bmp" ".bmp" [hp_glyph]
           bare_gui).
  - discriminate.
  - reflexivity.
Defined.

(** The same screenshot chosen under its name without extension: the
    template is in use, the callback dies in [cv2.imwrite] and the
    directory is as it was. *)
Example extensionless_choice_raises :
  exists w',
    BotGUI_load_template toy_files "hp_bar" "shot" "" bare_gui =
      (Raise (External "could not find a writer for the specified extension"),
       w') /\
    templates w' !! "hp_bar" = Some [hp_glyph].
Proof. eexists. split; [vm_compute; reflexivity | reflexivity]. Qed.

(** X17 at [w_sliding], with binary64 floats: two sliders are moved during
    the run. *)
Lemma worker_never_raises_on_scale_witness :
  (forall e, fst (main_loop 3 3 w_sliding) <> Raise e) /\
  in_table (snd (main_loop 3 3 w_sliding)) /\
  steady_clock (snd (main_loop 3 3 w_sliding)).
Proof.
  apply (worker_never_raises_on_scale 3 3 w_sliding).
  - exact binary64_keeps_sign.
  - apply in_table_toggle_bot, in_table_init. repeat constructor.
  - apply (steady_callback ClickToggle I).
    repeat split; try (vm_compute; discriminate).
    repeat constructor; vm_compute; discriminate.
Defined.
